(** * Enapres delitos: clasificador / validador — verification of the core

    A shallow embedding of the batch validator
    ([src/scripts/4_Api_delito_validador.py]), the batch consolidator
    ([src/scripts/5_lotes_processor.py]) and the error analyser
    ([src/scripts/6_Error_results.py]).

    Modelling conventions.
    - Python [str] is a Rocq [string] that holds its UTF-8 encoding.
      Lengths, indices, slices and iteration go by code points
      ([Str.codepoints]); [str.strip], [str.lower] and the classes [\s]
      and [\d] of the regular expressions are those of Unicode 14, the
      version of Python 3.11.
    - A value produced by [json.loads] is a [json]; JSON numbers are the
      integers ([JInt]); values with a fraction or an exponent are outside
      the value model.
    - A Python [dict] is an insertion-ordered association list ([Dict]):
      assigning to a key that is present keeps its position.
    - Code that may raise returns a [result]; the exception classes named by
      the sources are constructors of [exn].
    - A Python [int] is a [Z]; a Python [float] is a binary64 number, a
      [spec_float] of the Standard Library with the operations of [F64].
    - The remote endpoint, the random source, the clock and the file system
      are explicit arguments.  What the sources print or log is left out,
      the formatting of the messages included. *)

From Stdlib Require Import String Ascii List ZArith QArith Bool Lia Arith.
From Stdlib Require Import DecimalString DecimalPos DecimalZ SpecFloat.
From Stdlib Require Import Sorted Permutation.
Import ListNotations.

Close Scope Q_scope.
Open Scope nat_scope.
Open Scope string_scope.
Open Scope list_scope.

(* ------------------------------------------------------------------ *)
(** * Exceptions and the error monad *)

Module Py.

Inductive exn : Type :=
| JSONDecodeError
| TypeError
| KeyError
| IndexError
| AttributeError
| ValueError
| OverflowError
| ZeroDivisionError
| FileNotFoundError
| OtherError (class_name : string).

Inductive result (A : Type) : Type :=
| Ok (a : A)
| Raise (e : exn).

Arguments Ok {A} a.
Arguments Raise {A} e.

Definition bind {A B : Type} (r : result A) (k : A -> result B) : result B :=
  match r with
  | Ok a => k a
  | Raise e => Raise e
  end.

(** [for x in xs: body] over an accumulator, stopping at the first raise. *)
Fixpoint foldM {A S : Type} (body : S -> A -> result S) (xs : list A) (s : S)
  : result S :=
  match xs with
  | [] => Ok s
  | x :: xs' => bind (body s x) (foldM body xs')
  end.

End Py.

Import Py.

Declare Scope py_scope.
Delimit Scope py_scope with py.
Notation "x <- c ;; k" := (Py.bind c (fun x => k))
  (at level 61, c at next level, right associativity) : py_scope.
Notation "' p <- c ;; k" := (Py.bind c (fun x => let p := x in k))
  (at level 61, p pattern, c at next level, right associativity) : py_scope.
Open Scope py_scope.

(* ------------------------------------------------------------------ *)
(** * Text *)

Module Str.

(** A text from the values of its bytes. *)
Definition bytes (l : list nat) : string :=
  string_of_list_ascii (map ascii_of_nat l).

(** A byte that continues a code point in UTF-8: [10xxxxxx]. *)
Definition is_continuation (c : ascii) : bool :=
  let n := nat_of_ascii c in
  Nat.leb 128 n && Nat.leb n 191.

Definition starts_inside (cp : string) : bool :=
  match cp with
  | String c _ => is_continuation c
  | EmptyString => false
  end.

(** The code points of a text, each with its bytes, in order. *)
Fixpoint codepoints (s : string) : list string :=
  match s with
  | EmptyString => []
  | String c s' =>
      match codepoints s' with
      | cp :: rest =>
          if starts_inside cp then String c cp :: rest
          else String c EmptyString :: cp :: rest
      | [] => [String c EmptyString]
      end
  end.

(** [len(s)] *)
Definition length (s : string) : nat := List.length (codepoints s).

(** The bytes that continue a code point, at the head of a text. *)
Fixpoint continuation (s : string) : string :=
  match s with
  | String c s' =>
      if is_continuation c then String c (continuation s') else EmptyString
  | EmptyString => EmptyString
  end.

(** The first code point of a text. *)
Definition head_point (s : string) : string :=
  match s with
  | String c s' => String c (continuation s')
  | EmptyString => EmptyString
  end.

(** [Py_UNICODE_ISSPACE] on the ASCII range: TAB..CR, FS..US and space. *)
Definition is_space (c : ascii) : bool :=
  let n := nat_of_ascii c in
  (Nat.leb 9 n && Nat.leb n 13) || (Nat.leb 28 n && Nat.leb n 32).

(** The white space outside ASCII: U+0085, U+00A0, U+1680, U+2000 to
    U+200A, U+2028, U+2029, U+202F, U+205F and U+3000. *)
Definition wide_spaces : list string :=
  [bytes [194; 133]; bytes [194; 160]; bytes [225; 154; 128];
   bytes [226; 128; 128]; bytes [226; 128; 129]; bytes [226; 128; 130];
   bytes [226; 128; 131]; bytes [226; 128; 132]; bytes [226; 128; 133];
   bytes [226; 128; 134]; bytes [226; 128; 135]; bytes [226; 128; 136];
   bytes [226; 128; 137]; bytes [226; 128; 138]; bytes [226; 128; 168];
   bytes [226; 128; 169]; bytes [226; 128; 175]; bytes [226; 129; 159];
   bytes [227; 128; 128]].

(** [c.isspace()] for a code point. *)
Definition is_space_point (cp : string) : bool :=
  match cp with
  | String c EmptyString => is_space c
  | _ => existsb (String.eqb cp) wide_spaces
  end.

Definition is_digit (c : ascii) : bool :=
  let n := nat_of_ascii c in
  Nat.leb 48 n && Nat.leb n 57.

Definition lower_char (c : ascii) : ascii :=
  let n := nat_of_ascii c in
  if Nat.leb 65 n && Nat.leb n 90 then ascii_of_nat (n + 32) else c.

(** The number of a code point, from its bytes in UTF-8, and back. *)
Definition decode_point (cp : string) : Z :=
  match map (fun c => Z.of_nat (nat_of_ascii c)) (list_ascii_of_string cp) with
  | [a] => a
  | [a; b] => (a - 192) * 64 + (b - 128)
  | [a; b; c] => (a - 224) * 4096 + (b - 128) * 64 + (c - 128)
  | [a; b; c; d] =>
      (a - 240) * 262144 + (b - 128) * 4096 + (c - 128) * 64 + (d - 128)
  | _ => 0
  end%Z.

Definition encode_point (n : Z) : string :=
  bytes
    (map Z.to_nat
       (if n <? 128 then [n]
        else if n <? 2048 then [192 + n / 64; 128 + n mod 64]
        else if n <? 65536 then
          [224 + n / 4096; 128 + (n / 64) mod 64; 128 + n mod 64]
        else
          [240 + n / 262144; 128 + (n / 4096) mod 64;
           128 + (n / 64) mod 64; 128 + n mod 64])%Z).

(** The lower-case mappings of Unicode 14 outside ASCII that give one code
    point, as runs: [(first, count, step, shift)] stands for the code
    points [first], [first + step], ... ([count] of them), each mapped to
    itself plus [shift]. *)
Definition lower_runs : list (Z * Z * Z * Z) :=
  [(192, 23, 1, 32); (216, 7, 1, 32); (256, 24, 2, 1); (306, 3, 2, 1);
   (313, 8, 2, 1); (330, 23, 2, 1); (376, 1, 1, -121); (377, 3, 2, 1);
   (385, 1, 1, 210); (386, 2, 2, 1); (390, 1, 1, 206); (391, 1, 1, 1);
   (393, 2, 1, 205); (395, 1, 1, 1); (398, 1, 1, 79); (399, 1, 1, 202);
   (400, 1, 1, 203); (401, 1, 1, 1); (403, 1, 1, 205); (404, 1, 1, 207);
   (406, 1, 1, 211); (407, 1, 1, 209); (408, 1, 1, 1); (412, 1, 1, 211);
   (413, 1, 1, 213); (415, 1, 1, 214); (416, 3, 2, 1); (422, 1, 1, 218);
   (423, 1, 1, 1); (425, 1, 1, 218); (428, 1, 1, 1); (430, 1, 1, 218);
   (431, 1, 1, 1); (433, 2, 1, 217); (435, 2, 2, 1); (439, 1, 1, 219);
   (440, 1, 1, 1); (444, 1, 1, 1); (452, 1, 1, 2); (453, 1, 1, 1);
   (455, 1, 1, 2); (456, 1, 1, 1); (458, 1, 1, 2); (459, 9, 2, 1);
   (478, 9, 2, 1); (497, 1, 1, 2); (498, 2, 2, 1); (502, 1, 1, -97);
   (503, 1, 1, -56); (504, 20, 2, 1); (544, 1, 1, -130); (546, 9, 2, 1);
   (570, 1, 1, 10795); (571, 1, 1, 1); (573, 1, 1, -163); (574, 1, 1, 10792);
   (577, 1, 1, 1); (579, 1, 1, -195); (580, 1, 1, 69); (581, 1, 1, 71);
   (582, 5, 2, 1); (880, 2, 2, 1); (886, 1, 1, 1); (895, 1, 1, 116);
   (902, 1, 1, 38); (904, 3, 1, 37); (908, 1, 1, 64); (910, 2, 1, 63);
   (913, 17, 1, 32); (931, 9, 1, 32); (975, 1, 1, 8); (984, 12, 2, 1);
   (1012, 1, 1, -60); (1015, 1, 1, 1); (1017, 1, 1, -7); (1018, 1, 1, 1);
   (1021, 3, 1, -130); (1024, 16, 1, 80); (1040, 32, 1, 32);
   (1120, 17, 2, 1); (1162, 27, 2, 1); (1216, 1, 1, 15); (1217, 7, 2, 1);
   (1232, 48, 2, 1); (1329, 38, 1, 48); (4256, 38, 1, 7264);
   (4295, 1, 1, 7264); (4301, 1, 1, 7264); (5024, 80, 1, 38864);
   (5104, 6, 1, 8); (7312, 43, 1, -3008); (7357, 3, 1, -3008);
   (7680, 75, 2, 1); (7838, 1, 1, -7615); (7840, 48, 2, 1); (7944, 8, 1, -8);
   (7960, 6, 1, -8); (7976, 8, 1, -8); (7992, 8, 1, -8); (8008, 6, 1, -8);
   (8025, 4, 2, -8); (8040, 8, 1, -8); (8072, 8, 1, -8); (8088, 8, 1, -8);
   (8104, 8, 1, -8); (8120, 2, 1, -8); (8122, 2, 1, -74); (8124, 1, 1, -9);
   (8136, 4, 1, -86); (8140, 1, 1, -9); (8152, 2, 1, -8); (8154, 2, 1, -100);
   (8168, 2, 1, -8); (8170, 2, 1, -112); (8172, 1, 1, -7);
   (8184, 2, 1, -128); (8186, 2, 1, -126); (8188, 1, 1, -9);
   (8486, 1, 1, -7517); (8490, 1, 1, -8383); (8491, 1, 1, -8262);
   (8498, 1, 1, 28); (8544, 16, 1, 16); (8579, 1, 1, 1); (9398, 26, 1, 26);
   (11264, 48, 1, 48); (11360, 1, 1, 1); (11362, 1, 1, -10743);
   (11363, 1, 1, -3814); (11364, 1, 1, -10727); (11367, 3, 2, 1);
   (11373, 1, 1, -10780); (11374, 1, 1, -10749); (11375, 1, 1, -10783);
   (11376, 1, 1, -10782); (11378, 1, 1, 1); (11381, 1, 1, 1);
   (11390, 2, 1, -10815); (11392, 50, 2, 1); (11499, 2, 2, 1);
   (11506, 1, 1, 1); (42560, 23, 2, 1); (42624, 14, 2, 1); (42786, 7, 2, 1);
   (42802, 31, 2, 1); (42873, 2, 2, 1); (42877, 1, 1, -35332);
   (42878, 5, 2, 1); (42891, 1, 1, 1); (42893, 1, 1, -42280);
   (42896, 2, 2, 1); (42902, 10, 2, 1); (42922, 1, 1, -42308);
   (42923, 1, 1, -42319); (42924, 1, 1, -42315); (42925, 1, 1, -42305);
   (42926, 1, 1, -42308); (42928, 1, 1, -42258); (42929, 1, 1, -42282);
   (42930, 1, 1, -42261); (42931, 1, 1, 928); (42932, 8, 2, 1);
   (42948, 1, 1, -48); (42949, 1, 1, -42307); (42950, 1, 1, -35384);
   (42951, 2, 2, 1); (42960, 1, 1, 1); (42966, 2, 2, 1); (42997, 1, 1, 1);
   (65313, 26, 1, 32); (66560, 40, 1, 40); (66736, 36, 1, 40);
   (66928, 11, 1, 39); (66940, 15, 1, 39); (66956, 7, 1, 39);
   (66964, 2, 1, 39); (68736, 51, 1, 64); (71840, 32, 1, 32);
   (93760, 32, 1, 32); (125184, 34, 1, 34)]%Z.

Definition lower_shift (n : Z) : Z :=
  match find (fun run =>
                let '(first, count, step, _) := run in
                (first <=? n) && (n <? first + count * step)
                && ((n - first) mod step =? 0))%Z lower_runs with
  | Some (_, _, _, shift) => shift
  | None => 0%Z
  end.

(** The lower case of a code point; U+0130 gives two code points, [i] and
    U+0307. *)
Definition lower_point (cp : string) : string :=
  match cp with
  | String c EmptyString => String (lower_char c) EmptyString
  | _ =>
      let n := decode_point cp in
      if (n =? 304)%Z then bytes [105; 204; 135]
      else if (lower_shift n =? 0)%Z then cp
      else encode_point (n + lower_shift n)
  end.

Definition in_ranges (n : Z) (ranges : list (Z * Z)) : bool :=
  existsb (fun r => (fst r <=? n) && (n <=? snd r))%Z ranges.

(** The decimal digits of Unicode 14 (category Nd), as ranges of code
    points, ends included. *)
Definition decimal_ranges : list (Z * Z) :=
  [(48, 57); (1632, 1641); (1776, 1785); (1984, 1993); (2406, 2415);
   (2534, 2543); (2662, 2671); (2790, 2799); (2918, 2927); (3046, 3055);
   (3174, 3183); (3302, 3311); (3430, 3439); (3558, 3567); (3664, 3673);
   (3792, 3801); (3872, 3881); (4160, 4169); (4240, 4249); (6112, 6121);
   (6160, 6169); (6470, 6479); (6608, 6617); (6784, 6793); (6800, 6809);
   (6992, 7001); (7088, 7097); (7232, 7241); (7248, 7257); (42528, 42537);
   (43216, 43225); (43264, 43273); (43472, 43481); (43504, 43513);
   (43600, 43609); (44016, 44025); (65296, 65305); (66720, 66729);
   (68912, 68921); (69734, 69743); (69872, 69881); (69942, 69951);
   (70096, 70105); (70384, 70393); (70736, 70745); (70864, 70873);
   (71248, 71257); (71360, 71369); (71472, 71481); (71904, 71913);
   (72016, 72025); (72784, 72793); (73040, 73049); (73120, 73129);
   (92768, 92777); (92864, 92873); (93008, 93017); (120782, 120831);
   (123200, 123209); (123632, 123641); (125264, 125273); (130032, 130041)]%Z.

(** [c.isdecimal()] for a code point, the class [\d] of [re]. *)
Definition is_decimal_point (cp : string) : bool :=
  match cp with
  | String c EmptyString => is_digit c
  | _ => in_ranges (decode_point cp) decimal_ranges
  end.

(** The code points with the property Cased. *)
Definition cased_ranges : list (Z * Z) :=
  [(65, 90); (97, 122); (170, 170); (181, 181); (186, 186); (192, 214);
   (216, 246); (248, 442); (444, 447); (452, 659); (661, 696); (704, 705);
   (736, 740); (837, 837); (880, 883); (886, 887); (890, 893); (895, 895);
   (902, 902); (904, 906); (908, 908); (910, 929); (931, 1013); (1015, 1153);
   (1162, 1327); (1329, 1366); (1376, 1416); (4256, 4293); (4295, 4295);
   (4301, 4301); (4304, 4346); (4349, 4351); (5024, 5109); (5112, 5117);
   (7296, 7304); (7312, 7354); (7357, 7359); (7424, 7615); (7680, 7957);
   (7960, 7965); (7968, 8005); (8008, 8013); (8016, 8023); (8025, 8025);
   (8027, 8027); (8029, 8029); (8031, 8061); (8064, 8116); (8118, 8124);
   (8126, 8126); (8130, 8132); (8134, 8140); (8144, 8147); (8150, 8155);
   (8160, 8172); (8178, 8180); (8182, 8188); (8305, 8305); (8319, 8319);
   (8336, 8348); (8450, 8450); (8455, 8455); (8458, 8467); (8469, 8469);
   (8473, 8477); (8484, 8484); (8486, 8486); (8488, 8488); (8490, 8493);
   (8495, 8500); (8505, 8505); (8508, 8511); (8517, 8521); (8526, 8526);
   (8544, 8575); (8579, 8580); (9398, 9449); (11264, 11492); (11499, 11502);
   (11506, 11507); (11520, 11557); (11559, 11559); (11565, 11565);
   (42560, 42605); (42624, 42653); (42786, 42887); (42891, 42894);
   (42896, 42954); (42960, 42961); (42963, 42963); (42965, 42969);
   (42997, 42998); (43000, 43002); (43824, 43866); (43868, 43880);
   (43888, 43967); (64256, 64262); (64275, 64279); (65313, 65338);
   (65345, 65370); (66560, 66639); (66736, 66771); (66776, 66811);
   (66928, 66938); (66940, 66954); (66956, 66962); (66964, 66965);
   (66967, 66977); (66979, 66993); (66995, 67001); (67003, 67004);
   (67456, 67456); (67459, 67461); (67463, 67504); (67506, 67514);
   (68736, 68786); (68800, 68850); (71840, 71903); (93760, 93823);
   (119808, 119892); (119894, 119964); (119966, 119967); (119970, 119970);
   (119973, 119974); (119977, 119980); (119982, 119993); (119995, 119995);
   (119997, 120003); (120005, 120069); (120071, 120074); (120077, 120084);
   (120086, 120092); (120094, 120121); (120123, 120126); (120128, 120132);
   (120134, 120134); (120138, 120144); (120146, 120485); (120488, 120512);
   (120514, 120538); (120540, 120570); (120572, 120596); (120598, 120628);
   (120630, 120654); (120656, 120686); (120688, 120712); (120714, 120744);
   (120746, 120770); (120772, 120779); (122624, 122633); (122635, 122654);
   (125184, 125251); (127280, 127305); (127312, 127337); (127344, 127369)]%Z.

(** The code points with the property Case_Ignorable. *)
Definition ignorable_ranges : list (Z * Z) :=
  [(39, 39); (46, 46); (58, 58); (94, 94); (96, 96); (168, 168); (173, 173);
   (175, 175); (180, 180); (183, 184); (688, 879); (884, 885); (890, 890);
   (900, 901); (903, 903); (1155, 1161); (1369, 1369); (1375, 1375);
   (1425, 1469); (1471, 1471); (1473, 1474); (1476, 1477); (1479, 1479);
   (1524, 1524); (1536, 1541); (1552, 1562); (1564, 1564); (1600, 1600);
   (1611, 1631); (1648, 1648); (1750, 1757); (1759, 1768); (1770, 1773);
   (1807, 1807); (1809, 1809); (1840, 1866); (1958, 1968); (2027, 2037);
   (2042, 2042); (2045, 2045); (2070, 2093); (2137, 2139); (2184, 2184);
   (2192, 2193); (2200, 2207); (2249, 2306); (2362, 2362); (2364, 2364);
   (2369, 2376); (2381, 2381); (2385, 2391); (2402, 2403); (2417, 2417);
   (2433, 2433); (2492, 2492); (2497, 2500); (2509, 2509); (2530, 2531);
   (2558, 2558); (2561, 2562); (2620, 2620); (2625, 2626); (2631, 2632);
   (2635, 2637); (2641, 2641); (2672, 2673); (2677, 2677); (2689, 2690);
   (2748, 2748); (2753, 2757); (2759, 2760); (2765, 2765); (2786, 2787);
   (2810, 2815); (2817, 2817); (2876, 2876); (2879, 2879); (2881, 2884);
   (2893, 2893); (2901, 2902); (2914, 2915); (2946, 2946); (3008, 3008);
   (3021, 3021); (3072, 3072); (3076, 3076); (3132, 3132); (3134, 3136);
   (3142, 3144); (3146, 3149); (3157, 3158); (3170, 3171); (3201, 3201);
   (3260, 3260); (3263, 3263); (3270, 3270); (3276, 3277); (3298, 3299);
   (3328, 3329); (3387, 3388); (3393, 3396); (3405, 3405); (3426, 3427);
   (3457, 3457); (3530, 3530); (3538, 3540); (3542, 3542); (3633, 3633);
   (3636, 3642); (3654, 3662); (3761, 3761); (3764, 3772); (3782, 3782);
   (3784, 3789); (3864, 3865); (3893, 3893); (3895, 3895); (3897, 3897);
   (3953, 3966); (3968, 3972); (3974, 3975); (3981, 3991); (3993, 4028);
   (4038, 4038); (4141, 4144); (4146, 4151); (4153, 4154); (4157, 4158);
   (4184, 4185); (4190, 4192); (4209, 4212); (4226, 4226); (4229, 4230);
   (4237, 4237); (4253, 4253); (4348, 4348); (4957, 4959); (5906, 5908);
   (5938, 5939); (5970, 5971); (6002, 6003); (6068, 6069); (6071, 6077);
   (6086, 6086); (6089, 6099); (6103, 6103); (6109, 6109); (6155, 6159);
   (6211, 6211); (6277, 6278); (6313, 6313); (6432, 6434); (6439, 6440);
   (6450, 6450); (6457, 6459); (6679, 6680); (6683, 6683); (6742, 6742);
   (6744, 6750); (6752, 6752); (6754, 6754); (6757, 6764); (6771, 6780);
   (6783, 6783); (6823, 6823); (6832, 6862); (6912, 6915); (6964, 6964);
   (6966, 6970); (6972, 6972); (6978, 6978); (7019, 7027); (7040, 7041);
   (7074, 7077); (7080, 7081); (7083, 7085); (7142, 7142); (7144, 7145);
   (7149, 7149); (7151, 7153); (7212, 7219); (7222, 7223); (7288, 7293);
   (7376, 7378); (7380, 7392); (7394, 7400); (7405, 7405); (7412, 7412);
   (7416, 7417); (7468, 7530); (7544, 7544); (7579, 7679); (8125, 8125);
   (8127, 8129); (8141, 8143); (8157, 8159); (8173, 8175); (8189, 8190);
   (8203, 8207); (8216, 8217); (8228, 8228); (8231, 8231); (8234, 8238);
   (8288, 8292); (8294, 8303); (8305, 8305); (8319, 8319); (8336, 8348);
   (8400, 8432); (11388, 11389); (11503, 11505); (11631, 11631);
   (11647, 11647); (11744, 11775); (11823, 11823); (12293, 12293);
   (12330, 12333); (12337, 12341); (12347, 12347); (12441, 12446);
   (12540, 12542); (40981, 40981); (42232, 42237); (42508, 42508);
   (42607, 42610); (42612, 42621); (42623, 42623); (42652, 42655);
   (42736, 42737); (42752, 42785); (42864, 42864); (42888, 42890);
   (42994, 42996); (43000, 43001); (43010, 43010); (43014, 43014);
   (43019, 43019); (43045, 43046); (43052, 43052); (43204, 43205);
   (43232, 43249); (43263, 43263); (43302, 43309); (43335, 43345);
   (43392, 43394); (43443, 43443); (43446, 43449); (43452, 43453);
   (43471, 43471); (43493, 43494); (43561, 43566); (43569, 43570);
   (43573, 43574); (43587, 43587); (43596, 43596); (43632, 43632);
   (43644, 43644); (43696, 43696); (43698, 43700); (43703, 43704);
   (43710, 43711); (43713, 43713); (43741, 43741); (43756, 43757);
   (43763, 43764); (43766, 43766); (43867, 43871); (43881, 43883);
   (44005, 44005); (44008, 44008); (44013, 44013); (64286, 64286);
   (64434, 64450); (65024, 65039); (65043, 65043); (65056, 65071);
   (65106, 65106); (65109, 65109); (65279, 65279); (65287, 65287);
   (65294, 65294); (65306, 65306); (65342, 65342); (65344, 65344);
   (65392, 65392); (65438, 65439); (65507, 65507); (65529, 65531);
   (66045, 66045); (66272, 66272); (66422, 66426); (67456, 67461);
   (67463, 67504); (67506, 67514); (68097, 68099); (68101, 68102);
   (68108, 68111); (68152, 68154); (68159, 68159); (68325, 68326);
   (68900, 68903); (69291, 69292); (69446, 69456); (69506, 69509);
   (69633, 69633); (69688, 69702); (69744, 69744); (69747, 69748);
   (69759, 69761); (69811, 69814); (69817, 69818); (69821, 69821);
   (69826, 69826); (69837, 69837); (69888, 69890); (69927, 69931);
   (69933, 69940); (70003, 70003); (70016, 70017); (70070, 70078);
   (70089, 70092); (70095, 70095); (70191, 70193); (70196, 70196);
   (70198, 70199); (70206, 70206); (70367, 70367); (70371, 70378);
   (70400, 70401); (70459, 70460); (70464, 70464); (70502, 70508);
   (70512, 70516); (70712, 70719); (70722, 70724); (70726, 70726);
   (70750, 70750); (70835, 70840); (70842, 70842); (70847, 70848);
   (70850, 70851); (71090, 71093); (71100, 71101); (71103, 71104);
   (71132, 71133); (71219, 71226); (71229, 71229); (71231, 71232);
   (71339, 71339); (71341, 71341); (71344, 71349); (71351, 71351);
   (71453, 71455); (71458, 71461); (71463, 71467); (71727, 71735);
   (71737, 71738); (71995, 71996); (71998, 71998); (72003, 72003);
   (72148, 72151); (72154, 72155); (72160, 72160); (72193, 72202);
   (72243, 72248); (72251, 72254); (72263, 72263); (72273, 72278);
   (72281, 72283); (72330, 72342); (72344, 72345); (72752, 72758);
   (72760, 72765); (72767, 72767); (72850, 72871); (72874, 72880);
   (72882, 72883); (72885, 72886); (73009, 73014); (73018, 73018);
   (73020, 73021); (73023, 73029); (73031, 73031); (73104, 73105);
   (73109, 73109); (73111, 73111); (73459, 73460); (78896, 78904);
   (92912, 92916); (92976, 92982); (92992, 92995); (94031, 94031);
   (94095, 94111); (94176, 94177); (94179, 94180); (110576, 110579);
   (110581, 110587); (110589, 110590); (113821, 113822); (113824, 113827);
   (118528, 118573); (118576, 118598); (119143, 119145); (119155, 119170);
   (119173, 119179); (119210, 119213); (119362, 119364); (121344, 121398);
   (121403, 121452); (121461, 121461); (121476, 121476); (121499, 121503);
   (121505, 121519); (122880, 122886); (122888, 122904); (122907, 122913);
   (122915, 122916); (122918, 122922); (123184, 123197); (123566, 123566);
   (123628, 123631); (125136, 125142); (125252, 125259); (127995, 127999);
   (917505, 917505); (917536, 917631); (917760, 917999)]%Z.

Definition is_cased (cp : string) : bool :=
  in_ranges (decode_point cp) cased_ranges.

Definition is_case_ignorable (cp : string) : bool :=
  in_ranges (decode_point cp) ignorable_ranges.

Fixpoint drop_ignorable (l : list string) : list string :=
  match l with
  | cp :: l' => if is_case_ignorable cp then drop_ignorable l' else l
  | [] => []
  end.

(** The capital sigma, U+03A3, and the final sigma, U+03C2. *)
Definition capital_sigma : string := bytes [206; 163].
Definition final_sigma : string := bytes [207; 130].

(** A capital sigma ends a word when a cased letter comes before it and
    none comes after it, the code points that case ignores being passed
    over.  [before] has the nearest code point first. *)
Definition ends_word (before after : list string) : bool :=
  match drop_ignorable before with
  | cp :: _ => is_cased cp
  | [] => false
  end
  && match drop_ignorable after with
     | cp :: _ => negb (is_cased cp)
     | [] => true
     end.

Fixpoint lower_points (before l : list string) : list string :=
  match l with
  | [] => []
  | cp :: l' =>
      (if String.eqb cp capital_sigma && ends_word before l' then final_sigma
       else lower_point cp)
      :: lower_points (cp :: before) l'
  end.

(** [s.lower()] *)
Definition lower (s : string) : string :=
  String.concat EmptyString (lower_points [] (codepoints s)).

Fixpoint drop_spaces (l : list string) : list string :=
  match l with
  | cp :: l' => if is_space_point cp then drop_spaces l' else l
  | [] => []
  end.

Definition lstrip (s : string) : string :=
  String.concat EmptyString (drop_spaces (codepoints s)).

Definition rstrip (s : string) : string :=
  String.concat EmptyString (rev (drop_spaces (rev (codepoints s)))).

(** [s.strip()] *)
Definition strip (s : string) : string :=
  String.concat EmptyString
    (rev (drop_spaces (rev (drop_spaces (codepoints s))))).

(** [needle in hay] for two strings. *)
Fixpoint contains (needle hay : string) : bool :=
  if String.prefix needle hay then true
  else match hay with
       | EmptyString => false
       | String _ hay' => contains needle hay'
       end.

(** The first [n] bytes of a text. *)
Fixpoint take_bytes (n : nat) (s : string) : string :=
  match n, s with
  | S n', String c s' => String c (take_bytes n' s')
  | _, _ => EmptyString
  end.

(** The text without its first [n] bytes. *)
Fixpoint drop_bytes (n : nat) (s : string) : string :=
  match n, s with
  | S n', String _ s' => drop_bytes n' s'
  | _, _ => s
  end.

(** [s[:n]]: the first [n] code points. *)
Definition take (n : nat) (s : string) : string :=
  String.concat EmptyString (firstn n (codepoints s)).

(** [s[s.rfind(c):]] when [c] occurs in [s]; [None] when [rfind] is [-1]. *)
Fixpoint from_last (c : ascii) (s : string) : option string :=
  match s with
  | EmptyString => None
  | String d s' =>
      match from_last c s' with
      | Some r => Some r
      | None => if Ascii.eqb c d then Some s else None
      end
  end.

(** Insertion of a string in a list sorted by code points; [sorted] of a
    list of strings. *)
Fixpoint insert_sorted (x : string) (l : list string) : list string :=
  match l with
  | [] => [x]
  | y :: l' => if String.leb x y then x :: l else y :: insert_sorted x l'
  end.

Definition sorted (l : list string) : list string :=
  fold_right insert_sorted [] l.

(** [list(set(l))] followed by [sorted]: the order of a set is lost, the
    sort restores a canonical one, so only the set of elements matters. *)
Definition sorted_set (l : list string) : list string :=
  sorted (nodup string_dec l).

End Str.

(* ------------------------------------------------------------------ *)
(** * Insertion-ordered dictionaries *)

Module Dict.

Section Ops.
Context {K V : Type}.
Variable eqb : K -> K -> bool.

(** [d.get(k)] *)
Fixpoint lookup (k : K) (d : list (K * V)) : option V :=
  match d with
  | [] => None
  | (k', v) :: d' => if eqb k k' then Some v else lookup k d'
  end.

(** [k in d] *)
Definition mem (k : K) (d : list (K * V)) : bool :=
  match lookup k d with Some _ => true | None => false end.

(** [d[k] = v]: a present key keeps its place (and its key object), a new
    key goes last. *)
Fixpoint set (k : K) (v : V) (d : list (K * V)) : list (K * V) :=
  match d with
  | [] => [(k, v)]
  | (k', v') :: d' =>
      if eqb k k' then (k', v) :: d' else (k', v') :: set k v d'
  end.

(** [del d[k]] on a dictionary that has [k]. *)
Definition remove (k : K) (d : list (K * V)) : list (K * V) :=
  filter (fun kv => negb (eqb k (fst kv))) d.
End Ops.

End Dict.

(* ------------------------------------------------------------------ *)
(** * Values of [json.loads] and the dynamic operations the sources use *)

Module Val.

#[warnings="-register-all"]
Inductive json : Type :=
| JNull
| JBool (b : bool)
| JInt (z : Z)
| JStr (s : string)
| JList (l : list json)
| JObj (o : list (string * json)).

(** A JSON object, i.e. a [dict] with [str] keys. *)
Abbreviation obj := (list (string * json)) (only parsing).

Definition obj_lookup (k : string) (o : obj) : option json :=
  Dict.lookup String.eqb k o.
Definition obj_mem (k : string) (o : obj) : bool := Dict.mem String.eqb k o.
Definition obj_set (k : string) (v : json) (o : obj) : obj :=
  Dict.set String.eqb k v o.
Definition obj_remove (k : string) (o : obj) : obj :=
  Dict.remove String.eqb k o.

(** [o.get(k, default)] on a [dict]. *)
Definition obj_get (k : string) (default : json) (o : obj) : json :=
  match obj_lookup k o with Some v => v | None => default end.

(** [bool(v)] *)
Definition truthy (v : json) : bool :=
  match v with
  | JNull => false
  | JBool b => b
  | JInt z => negb (Z.eqb z 0)
  | JStr s => negb (String.eqb s "")
  | JList l => match l with [] => false | _ => true end
  | JObj o => match o with [] => false | _ => true end
  end.

(** Hashable values: everything but [list] and [dict]. *)
Definition hashable (v : json) : bool :=
  match v with
  | JList _ | JObj _ => false
  | _ => true
  end.

(** [a == b] between hashable values, the equality of dictionary keys:
    [True == 1] and [False == 0]. *)
Definition key_eqb (a b : json) : bool :=
  match a, b with
  | JNull, JNull => true
  | JBool x, JBool y => Bool.eqb x y
  | JBool x, JInt y => Z.eqb (Z.b2z x) y
  | JInt x, JBool y => Z.eqb x (Z.b2z y)
  | JInt x, JInt y => Z.eqb x y
  | JStr x, JStr y => String.eqb x y
  | _, _ => false
  end.

(** A [dict] keyed by record identifiers. *)
Abbreviation idmap V := (list (json * V)) (only parsing).

(** [d[k] = v] with an arbitrary value as key: unhashable keys raise. *)
Definition idmap_set {V : Type} (k : json) (v : V) (d : idmap V)
  : result (idmap V) :=
  if hashable k then Ok (Dict.set key_eqb k v d) else Raise TypeError.

(** [needle in v] for a [str] needle. *)
Definition py_in (needle : string) (v : json) : result bool :=
  match v with
  | JObj o => Ok (obj_mem needle o)
  | JList l =>
      Ok (existsb (fun x => match x with
                            | JStr s => String.eqb needle s
                            | _ => false
                            end) l)
  | JStr s => Ok (Str.contains needle s)
  | JNull | JBool _ | JInt _ => Raise TypeError
  end.

(** [v[k]] for a [str] subscript. *)
Definition py_getitem (v : json) (k : string) : result json :=
  match v with
  | JObj o => match obj_lookup k o with
              | Some x => Ok x
              | None => Raise KeyError
              end
  | _ => Raise TypeError
  end.

(** [v[n]] for a non-negative [int] subscript. *)
Definition py_index (v : json) (n : nat) : result json :=
  match v with
  | JList l => match nth_error l n with
               | Some x => Ok x
               | None => Raise IndexError
               end
  | JStr s => match nth_error (Str.codepoints s) n with
              | Some cp => Ok (JStr cp)
              | None => Raise IndexError
              end
  | JObj _ => Raise KeyError
  | JNull | JBool _ | JInt _ => Raise TypeError
  end.

(** [v.get(k, default)] : only a [dict] has the method. *)
Definition py_get (v : json) (k : string) (default : json) : result json :=
  match v with
  | JObj o => Ok (obj_get k default o)
  | _ => Raise AttributeError
  end.

Definition chars (s : string) : list json := map JStr (Str.codepoints s).

(** [for x in v] *)
Definition py_iter (v : json) : result (list json) :=
  match v with
  | JList l => Ok l
  | JStr s => Ok (chars s)
  | JObj o => Ok (map (fun kv => JStr (fst kv)) o)
  | JNull | JBool _ | JInt _ => Raise TypeError
  end.

(** [len(v)] *)
Definition py_len (v : json) : result nat :=
  match v with
  | JList l => Ok (List.length l)
  | JStr s => Ok (Str.length s)
  | JObj o => Ok (List.length o)
  | JNull | JBool _ | JInt _ => Raise TypeError
  end.

(** [json.loads(v)] for a value that may not be a [str]. *)
Definition loads_value (json_loads : string -> result json) (v : json)
  : result json :=
  match v with
  | JStr s => json_loads s
  | _ => Raise TypeError
  end.

(** [isinstance(v, str)], and [isinstance(v, int)] (a [bool] is an [int]). *)
Definition is_str (v : json) : bool :=
  match v with JStr _ => true | _ => false end.

Definition is_number (v : json) : bool :=
  match v with JInt _ | JBool _ => true | _ => false end.

End Val.

Import Val.

(* ------------------------------------------------------------------ *)
(** * The fragment of [re] used by the sources

    Every pattern of the sources is a sequence of single-character atoms,
    each taken once or under [*], [+] or [*?], some of them inside a named
    group, possibly closed by an end anchor.  The matcher backtracks in the
    order of [re]: a greedy repetition tries the longest run first, a lazy
    one the shortest. *)

Module Re.

Inductive cls : Type :=
| Lit (c : ascii)     (* the character itself, of the ASCII range *)
| Space               (* \s *)
| Digit               (* \d *)
| Any.                (* . under re.DOTALL *)

(** The number of bytes of the character at the head of [s], when it is of
    the class; [0] when it is not.  [Any] goes byte by byte: in the
    patterns of the sources an ASCII character or the end of the text
    follows it, which a match meets between two code points only. *)
Definition width (k : cls) (s : string) : nat :=
  match s with
  | EmptyString => 0
  | String c _ =>
      match k with
      | Lit d => if Ascii.eqb c d then 1 else 0
      | Space =>
          if Str.is_space_point (Str.head_point s)
          then String.length (Str.head_point s) else 0
      | Digit =>
          if Str.is_decimal_point (Str.head_point s)
          then String.length (Str.head_point s) else 0
      | Any => 1
      end
  end.

Inductive quant : Type := One | Star | Plus | LazyStar.

Inductive item : Type :=
| Atom (q : quant) (k : cls) (group : option string)
| Eos.                (* \Z *)

Definition regex : Type := list item.

(** A literal piece of a pattern. *)
Fixpoint lits (s : string) : regex :=
  match s with
  | EmptyString => []
  | String c s' => Atom One (Lit c) None :: lits s'
  end.

Definition captures : Type := list (string * string).

Section Repeat.
Context {R : Type}.
Variable width : string -> nat.
(** The continuation receives the run consumed so far (latest byte first)
    and the remaining text. *)
Variable k : list ascii -> string -> option R.

(** [pending] counts the bytes still to pass of the character that the run
    has entered. *)
Fixpoint greedy (s : string) (acc : list ascii) (pending : nat)
  : option R :=
  match pending with
  | S n =>
      match s with
      | String c s' => greedy s' (c :: acc) n
      | EmptyString => None
      end
  | O =>
      match s with
      | String c s' =>
          match width s with
          | S n =>
              match greedy s' (c :: acc) n with
              | Some r => Some r
              | None => k acc s
              end
          | O => k acc s
          end
      | EmptyString => k acc s
      end
  end.

Fixpoint lazy (s : string) (acc : list ascii) (pending : nat)
  : option R :=
  match pending with
  | S n =>
      match s with
      | String c s' => lazy s' (c :: acc) n
      | EmptyString => None
      end
  | O =>
      match k acc s with
      | Some r => Some r
      | None =>
          match s with
          | String c s' =>
              match width s with
              | S n => lazy s' (c :: acc) n
              | O => None
              end
          | EmptyString => None
          end
      end
  end.
End Repeat.

Definition add_capture (group : option string) (run : list ascii)
  (caps : captures) : captures :=
  match group with
  | Some name => (name, string_of_list_ascii (rev run)) :: caps
  | None => caps
  end.

(** [pattern.match(s)]: the groups and the text left after the match. *)
Fixpoint match_here (r : regex) (s : string) {struct r}
  : option (captures * string) :=
  match r with
  | [] => Some ([], s)
  | Eos :: r' =>
      match s with
      | EmptyString => match_here r' s
      | String _ _ => None
      end
  | Atom q cl g :: r' =>
      let k (run : list ascii) (rest : string) :=
        match match_here r' rest with
        | Some (caps, fin) => Some (add_capture g run caps, fin)
        | None => None
        end in
      match q with
      | One =>
          match width cl s with
          | S n =>
              k (rev (list_ascii_of_string (Str.take_bytes (S n) s)))
                (Str.drop_bytes (S n) s)
          | O => None
          end
      | Star => greedy (width cl) k s [] 0
      | Plus =>
          match s with
          | String c s' =>
              match width cl s with
              | S n => greedy (width cl) k s' [c] n
              | O => None
              end
          | EmptyString => None
          end
      | LazyStar => lazy (width cl) k s [] 0
      end
  end.

(** [pattern.search(s)]: the leftmost match. The triple is the groups, the
    text from the start of the match, and the text left after it. *)
Fixpoint search (r : regex) (s : string)
  : option (captures * string * string) :=
  match match_here r s with
  | Some (caps, rest) => Some (caps, s, rest)
  | None =>
      match s with
      | String _ s' => search r s'
      | EmptyString => None
      end
  end.

(** [m.group(0)] of a match that starts [from] and leaves [rest]. *)
Definition group0 (from rest : string) : string :=
  Str.take_bytes (String.length from - String.length rest) from.

(** [m.group(name)] *)
Definition group (name : string) (caps : captures) : string :=
  match Dict.lookup String.eqb name caps with
  | Some s => s
  | None => ""
  end.

(** [pattern.finditer(s)]: the successive non-overlapping matches, left to
    right.  [skip] counts the characters of the last match still to pass. *)
Fixpoint finditer_from (r : regex) (s : string) (skip : nat)
  : list captures :=
  match skip with
  | S n =>
      match s with
      | String _ s' => finditer_from r s' n
      | EmptyString => []
      end
  | O =>
      match match_here r s with
      | Some (caps, rest) =>
          caps ::
          match s with
          | String _ s' =>
              finditer_from r s' (String.length s - String.length rest - 1)
          | EmptyString => []
          end
      | None =>
          match s with
          | String _ s' => finditer_from r s' 0
          | EmptyString => []
          end
      end
  end.

Definition finditer (r : regex) (s : string) : list captures :=
  finditer_from r s 0.

(** [fnmatch.translate] for patterns made of literal characters and [*]. *)
Fixpoint glob_translate (pattern : string) : regex :=
  match pattern with
  | EmptyString => [Eos]
  | String c p' =>
      (if Ascii.eqb c "*" then Atom Star Any None else Atom One (Lit c) None)
      :: glob_translate p'
  end.

(** [fnmatch.fnmatchcase(name, pattern)] *)
Definition fnmatch (name pattern : string) : bool :=
  match match_here (glob_translate pattern) name with
  | Some _ => true
  | None => false
  end.

End Re.

(* ------------------------------------------------------------------ *)
(** * A reference decoder for [json.loads]

    The general results below hold for any decoder (it is an argument of
    the functions that call [json.loads]).  This one follows the scanner of
    the [json] module on documents without fractional numbers and without
    [\u] escapes, and serves to evaluate concrete responses; on a document
    outside that fragment it answers [Unsupported]. *)

Module Json.

Definition dquote : ascii := ascii_of_nat 34.
Definition backslash : ascii := ascii_of_nat 92.

(** Writes a text with the apostrophe standing for the double quote. *)
Fixpoint dq (s : string) : string :=
  match s with
  | EmptyString => EmptyString
  | String c s' => String (if Ascii.eqb c "'" then dquote else c) (dq s')
  end.

Definition Unsupported : exn := OtherError "Unsupported".
Definition RecursionError : exn := OtherError "RecursionError".

(** The white space of the [json] scanner. *)
Definition is_ws (c : ascii) : bool :=
  let n := nat_of_ascii c in
  Nat.eqb n 32 || Nat.eqb n 9 || Nat.eqb n 10 || Nat.eqb n 13.

Fixpoint skip_ws (s : string) : string :=
  match s with
  | String c s' => if is_ws c then skip_ws s' else s
  | EmptyString => EmptyString
  end.

Definition unescape (c : ascii) : option ascii :=
  let n := nat_of_ascii c in
  if Nat.eqb n 34 then Some dquote
  else if Nat.eqb n 92 then Some backslash
  else if Ascii.eqb c "/" then Some "/"%char
  else if Ascii.eqb c "b" then Some (ascii_of_nat 8)
  else if Ascii.eqb c "f" then Some (ascii_of_nat 12)
  else if Ascii.eqb c "n" then Some (ascii_of_nat 10)
  else if Ascii.eqb c "r" then Some (ascii_of_nat 13)
  else if Ascii.eqb c "t" then Some (ascii_of_nat 9)
  else None.

(** The body of a string, from after its opening quote: the decoded text
    and what follows the closing quote. *)
Fixpoint scanstring (s : string) : result (string * string) :=
  match s with
  | EmptyString => Raise JSONDecodeError
  | String c s' =>
      if Ascii.eqb c dquote then Ok (EmptyString, s')
      else if Ascii.eqb c backslash then
        match s' with
        | EmptyString => Raise JSONDecodeError
        | String e s'' =>
            match unescape e with
            | Some ch =>
                '(body, rest) <- scanstring s'' ;; Ok (String ch body, rest)
            | None =>
                if Ascii.eqb e "u" then Raise Unsupported
                else Raise JSONDecodeError
            end
        end
      else if Nat.ltb (nat_of_ascii c) 32 then Raise JSONDecodeError
      else '(body, rest) <- scanstring s' ;; Ok (String c body, rest)
  end.

(** The digits at the head of a text, as a number, and the rest. *)
Fixpoint digits (s : string) (acc : Z) : Z * string :=
  match s with
  | String c s' =>
      if Str.is_digit c
      then digits s' (10 * acc + Z.of_nat (nat_of_ascii c - 48))%Z
      else (acc, s)
  | EmptyString => (acc, s)
  end.

(** [s[len(p):]] when [s.startswith(p)]. *)
Fixpoint strip_prefix (p s : string) : option string :=
  match p with
  | EmptyString => Some s
  | String c p' =>
      match s with
      | String d s' => if Ascii.eqb c d then strip_prefix p' s' else None
      | EmptyString => None
      end
  end.

(** An integer literal at the head of a text: an optional minus sign, then
    a lone zero or a run of digits that does not start with zero. *)
Definition integer (s : string) : option (Z * string) :=
  let '(neg, body) :=
    match strip_prefix "-" s with
    | Some s' => (true, s')
    | None => (false, s)
    end in
  match body with
  | String c rest =>
      if Ascii.eqb c "0" then Some (0%Z, rest)
      else if Str.is_digit c then
        let '(n, rest') := digits rest (Z.of_nat (nat_of_ascii c - 48)) in
        Some ((if neg then - n else n)%Z, rest')
      else None
  | EmptyString => None
  end.

(** After an integer: a fraction or an exponent makes the number a float. *)
Definition float_follows (s : string) : bool :=
  match s with
  | String c (String d _) =>
      (Ascii.eqb c "." && Str.is_digit d)
      || ((Ascii.eqb c "e" || Ascii.eqb c "E")
          && (Str.is_digit d || Ascii.eqb d "+" || Ascii.eqb d "-"))
  | _ => false
  end.

(** One of the three literals at the head of a text. *)
Definition literal (s : string) : option (json * string) :=
  match strip_prefix "null" s with
  | Some rest => Some (JNull, rest)
  | None =>
      match strip_prefix "true" s with
      | Some rest => Some (JBool true, rest)
      | None =>
          match strip_prefix "false" s with
          | Some rest => Some (JBool false, rest)
          | None => None
          end
      end
  end.

(** A number at the head of a text. *)
Definition number (s : string) : result (json * string) :=
  match integer s with
  | Some (n, rest) =>
      if float_follows rest then Raise Unsupported else Ok (JInt n, rest)
  | None =>
      if String.prefix "NaN" s || String.prefix "Infinity" s
         || String.prefix "-Infinity" s
      then Raise Unsupported
      else Raise JSONDecodeError
  end.

Inductive mode : Type :=
| MValue                                   (* a value *)
| MElements (acc : list json)              (* after [ or a comma of a list *)
| MMembers (acc : obj).                    (* at a key of an object *)

(** The scanner.  The fuel bounds the chain of its calls; a scan that uses
    it up answers [RecursionError]. *)
Fixpoint scan (fuel : nat) (m : mode) (s : string) : result (json * string) :=
  match fuel with
  | O => Raise RecursionError
  | S fuel' =>
      match m with
      | MValue =>
          match s with
          | EmptyString => Raise JSONDecodeError
          | String c s' =>
              if Ascii.eqb c dquote then
                '(body, rest) <- scanstring s' ;; Ok (JStr body, rest)
              else if Ascii.eqb c "{" then
                match strip_prefix "}" (skip_ws s') with
                | Some rest => Ok (JObj [], rest)
                | None => scan fuel' (MMembers []) (skip_ws s')
                end
              else if Ascii.eqb c "[" then
                match strip_prefix "]" (skip_ws s') with
                | Some rest => Ok (JList [], rest)
                | None => scan fuel' (MElements []) (skip_ws s')
                end
              else
                match literal s with
                | Some r => Ok r
                | None => number s
                end
          end
      | MElements acc =>
          '(v, rest) <- scan fuel' MValue s ;;
          match strip_prefix "]" (skip_ws rest) with
          | Some rest' => Ok (JList (rev (v :: acc)), rest')
          | None =>
              match strip_prefix "," (skip_ws rest) with
              | Some rest' =>
                  scan fuel' (MElements (v :: acc)) (skip_ws rest')
              | None => Raise JSONDecodeError
              end
          end
      | MMembers acc =>
          match strip_prefix (String dquote EmptyString) s with
          | Some s' =>
              '(key, rest) <- scanstring s' ;;
              match strip_prefix ":" (skip_ws rest) with
              | Some rest' =>
                  '(v, rest'') <- scan fuel' MValue (skip_ws rest') ;;
                  let acc' := obj_set key v acc in
                  match strip_prefix "}" (skip_ws rest'') with
                  | Some fin => Ok (JObj acc', fin)
                  | None =>
                      match strip_prefix "," (skip_ws rest'') with
                      | Some fin => scan fuel' (MMembers acc') (skip_ws fin)
                      | None => Raise JSONDecodeError
                      end
                  end
              | None => Raise JSONDecodeError
              end
          | None => Raise JSONDecodeError
          end
      end
  end.

(** [json.loads(s)]: one value, white space allowed around it.  The fuel
    is enough for every text ([JsonProps.loads_fuel]). *)
Definition loads (s : string) : result json :=
  '(v, rest) <- scan (2 * String.length s + 2) MValue (skip_ws s) ;;
  match skip_ws rest with
  | EmptyString => Ok v
  | String _ _ => Raise JSONDecodeError
  end.

End Json.

(* ------------------------------------------------------------------ *)
(** * [str], [repr] and [json.dumps] of values *)

Module Show.

Local Open Scope string_scope.

Definition hex_digit (n : nat) : ascii :=
  if Nat.ltb n 10 then ascii_of_nat (48 + n) else ascii_of_nat (87 + n).

Definition hex2 (n : nat) : string :=
  String (hex_digit (n / 16)) (String (hex_digit (n mod 16)) EmptyString).

(** [str(z)] of an [int]. *)
Definition decimal (z : Z) : string := NilZero.string_of_int (Z.to_int z).

Definition has_char (c : ascii) (s : string) : bool :=
  Str.contains (String c EmptyString) s.

(** One character of the [repr] of a [str] delimited by [quote]. *)
Definition repr_char (quote c : ascii) : string :=
  let n := nat_of_ascii c in
  if Ascii.eqb c quote || Ascii.eqb c Json.backslash
  then String Json.backslash (String c EmptyString)
  else if Nat.eqb n 9 then String Json.backslash "t"
  else if Nat.eqb n 10 then String Json.backslash "n"
  else if Nat.eqb n 13 then String Json.backslash "r"
  else if Nat.ltb n 32 || Nat.eqb n 127
  then String Json.backslash (String "x" (hex2 n))
  else String c EmptyString.

Fixpoint escape_with (f : ascii -> string) (s : string) : string :=
  match s with
  | EmptyString => EmptyString
  | String c s' => f c ++ escape_with f s'
  end.

(** [repr(s)] of a [str]: double quotes only when the text has an
    apostrophe and no double quote. *)
Definition repr_str (s : string) : string :=
  let quote :=
    if has_char "'" s && negb (has_char Json.dquote s)
    then Json.dquote else "'"%char in
  String quote (escape_with (repr_char quote) s ++ String quote EmptyString).

Definition join (sep : string) (l : list string) : string :=
  String.concat sep l.

(** [repr(v)] *)
Fixpoint repr (v : json) : string :=
  match v with
  | JNull => "None"
  | JBool true => "True"
  | JBool false => "False"
  | JInt z => decimal z
  | JStr s => repr_str s
  | JList l => "[" ++ join ", " (map repr l) ++ "]"
  | JObj o =>
      "{" ++ join ", " (map (fun kv => match kv with
                                       | (k, x) => repr_str k ++ ": " ++ repr x
                                       end) o) ++ "}"
  end.

(** [str(v)] *)
Definition py_str (v : json) : string :=
  match v with
  | JStr s => s
  | _ => repr v
  end.

(** One character of a JSON string written with [ensure_ascii=False]. *)
Definition dumps_char (c : ascii) : string :=
  let n := nat_of_ascii c in
  if Nat.eqb n 34 || Nat.eqb n 92
  then String Json.backslash (String c EmptyString)
  else if Nat.eqb n 8 then String Json.backslash "b"
  else if Nat.eqb n 12 then String Json.backslash "f"
  else if Nat.eqb n 10 then String Json.backslash "n"
  else if Nat.eqb n 13 then String Json.backslash "r"
  else if Nat.eqb n 9 then String Json.backslash "t"
  else if Nat.ltb n 32 then String Json.backslash ("u00" ++ hex2 n)
  else String c EmptyString.

Definition dumps_str (s : string) : string :=
  String Json.dquote (escape_with dumps_char s
                      ++ String Json.dquote EmptyString).

(** [json.dumps(v, ensure_ascii=False)] *)
Fixpoint dumps (v : json) : string :=
  match v with
  | JNull => "null"
  | JBool true => "true"
  | JBool false => "false"
  | JInt z => decimal z
  | JStr s => dumps_str s
  | JList l => "[" ++ join ", " (map dumps l) ++ "]"
  | JObj o =>
      "{" ++ join ", " (map (fun kv => match kv with
                                       | (k, x) => dumps_str k ++ ": " ++ dumps x
                                       end) o) ++ "}"
  end.

End Show.

(* ------------------------------------------------------------------ *)
(** * Binary64 numbers *)

Module F64.

Definition prec : Z := 53.
Definition emax : Z := 1024.

Definition add : spec_float -> spec_float -> spec_float := SFadd prec emax.
Definition sub : spec_float -> spec_float -> spec_float := SFsub prec emax.
Definition mul : spec_float -> spec_float -> spec_float := SFmul prec emax.

(** The conversion of an [int] that meets a [float] in an arithmetic
    operation: the nearest binary64 number, ties to even, and
    [OverflowError] (int too large to convert to float) past the range. *)
Definition of_int (n : Z) : result spec_float :=
  match binary_normalize prec emax n 0 false with
  | S754_infinity _ => Raise OverflowError
  | x => Ok x
  end.

(** The literal [0.5]. *)
Definition half : spec_float := S754_finite false 4503599627370496 (-53).

End F64.

(* ------------------------------------------------------------------ *)
(** * [4_Api_delito_validador.py]: the request executor *)

Module Validador.

(** The fields of [config.api] the executor reads, each declared [int]. *)
Record api_config : Type := {
  max_retries : Z;
  timeout : Z;
  retry_delay : Z
}.

(** What one call of [chat.completions.create] followed by
    [response.choices[0].message.content.strip()] does inside the [try]:
    it yields the content, or raises an [Exception] of some class with
    some text. *)
Inductive api_outcome : Type :=
| Response (content : string)
| Failure (error_type : string) (error_text : string).

(** A wait is an [int] (the rate-limit delay) or a [float] (a backoff
    with its jitter). *)
Inductive number : Type :=
| PyInt (n : Z)
| PyFloat (x : spec_float).

(** What the executor does to the outside, in order. *)
Inductive event : Type :=
| Request (current_timeout : Z)
| Sleep (wait_time : number).

Definition base_delay : Z := 2.

(** The value returned when the last attempt fails. *)
Definition max_retries_sentinel : string :=
  Json.dq "{'razonamiento': 'ERROR: Máximo de reintentos alcanzado después de múltiples intentos con timeout incremental', 'clasificaciones': []}".

(** The value returned when the loop ends without an attempt. *)
Definition no_attempt_sentinel : string :=
  Json.dq "{'razonamiento': 'ERROR en llamada API', 'clasificaciones': []}".

Definition is_rate_limit (error_type error_str : string) : bool :=
  Str.contains "RateLimitError" error_type
  || Str.contains "rate_limit" error_str.

Definition is_timeout (error_str : string) : bool :=
  Str.contains "timeout" error_str || Str.contains "timed out" error_str.

Definition is_network (error_str : string) : bool :=
  Str.contains "connection" error_str || Str.contains "network" error_str.

(** [base_timeout + (attempt * 30)] *)
Definition current_timeout (cfg : api_config) (attempt : nat) : Z :=
  (timeout cfg + Z.of_nat attempt * 30)%Z.

(** [base_delay ** (attempt + 1)], an [int]. *)
Definition backoff (attempt : nat) : Z :=
  (base_delay ^ (Z.of_nat attempt + 1))%Z.

(** [random.uniform(a, b)], that is [a + (b - a) * self.random()], for an
    [int] [a], a [float] [b] and the value [u] that [random()] returned. *)
Definition uniform (a : Z) (b u : spec_float) : result spec_float :=
  a' <- F64.of_int a ;;
  Ok (F64.add a' (F64.mul (F64.sub b a') u)).

(** [random.uniform(0, attempt * 0.5)] *)
Definition jitter (attempt : nat) (u : spec_float) : result spec_float :=
  attempt' <- F64.of_int (Z.of_nat attempt) ;;
  uniform 0 (F64.mul attempt' F64.half) u.

(** The wait before the next attempt, lines 84 to 105.  The sum of line 86
    is computed whatever the class of the error; an [int] added to a
    [float] is converted first, which fails when it is too large. *)
Definition wait_time (cfg : api_config) (attempt : nat)
  (error_type error_str : string) (u : spec_float) : result number :=
  jitter <- jitter attempt u ;;
  backoff' <- F64.of_int (backoff attempt) ;;
  let wait := F64.add backoff' jitter in
  if is_rate_limit error_type error_str then
    Ok (PyInt (retry_delay cfg + Z.of_nat attempt * 15)%Z)
  else if is_timeout error_str then Ok (PyFloat wait)
  else if is_network error_str then
    doubled <- F64.of_int (backoff attempt * 2)%Z ;;
    Ok (PyFloat (F64.add doubled jitter))
  else Ok (PyFloat wait).

Section Executor.
Variable cfg : api_config.
(** The outcome of the call of each attempt. *)
Variable endpoint : nat -> api_outcome.
(** The value of [random()] drawn at each attempt. *)
Variable random : nat -> spec_float.

(** The body of [for attempt in range(max_retries)] over the attempts
    still to make, and line 114 after the loop: the value returned, or
    the exception that leaves the handler, with what was done before. *)
Fixpoint attempts_loop (attempts : list nat) : result string * list event :=
  match attempts with
  | [] => (Ok no_attempt_sentinel, [])
  | attempt :: rest =>
      match endpoint attempt with
      | Response content =>
          (Ok (Str.strip content), [Request (current_timeout cfg attempt)])
      | Failure error_type error_text =>
          let error_str := Str.lower error_text in
          if (Z.of_nat attempt <? max_retries cfg - 1)%Z then
            match wait_time cfg attempt error_type error_str
                    (random attempt) with
            | Ok w =>
                let '(r, trace) := attempts_loop rest in
                (r, Request (current_timeout cfg attempt) :: Sleep w :: trace)
            | Raise e => (Raise e, [Request (current_timeout cfg attempt)])
            end
          else
            (Ok max_retries_sentinel,
             [Request (current_timeout cfg attempt)])
      end
  end.

Definition generate_prediction_api : result string * list event :=
  attempts_loop (seq 0 (Z.to_nat (max_retries cfg))).
End Executor.

(** The requests of a trace. *)
Definition requests (trace : list event) : list Z :=
  flat_map (fun e => match e with Request t => [t] | Sleep _ => [] end) trace.

(** The waits of a trace. *)
Definition sleeps (trace : list event) : list number :=
  flat_map (fun e => match e with Sleep w => [w] | Request _ => [] end) trace.

(** ** Reading the response *)

(** [r'\{.*?"clasificaciones":\s*\[.*?\]\s*\}'] under [re.DOTALL]. *)
Definition pattern_json : Re.regex :=
  Re.lits "{" ++ [Re.Atom Re.LazyStar Re.Any None]
  ++ Re.lits (Json.dq "'clasificaciones':")
  ++ [Re.Atom Re.Star Re.Space None]
  ++ Re.lits "[" ++ [Re.Atom Re.LazyStar Re.Any None] ++ Re.lits "]"
  ++ [Re.Atom Re.Star Re.Space None] ++ Re.lits "}".

(** [r'"codigo":\s*"(\d+)"'] *)
Definition pattern_codigo : Re.regex :=
  Re.lits (Json.dq "'codigo':") ++ [Re.Atom Re.Star Re.Space None]
  ++ Re.lits (Json.dq "'") ++ [Re.Atom Re.Plus Re.Digit (Some "1")]
  ++ Re.lits (Json.dq "'").

(** The codes of the comprehension of lines 121 and 130, before sorting:
    [str(item.get("codigo", ""))] for each [dict] item with a truthy code. *)
Definition codigos_of_items (items : list json) : list string :=
  flat_map (fun item =>
              match item with
              | JObj o =>
                  if truthy (obj_get "codigo" JNull o)
                  then [Show.py_str (obj_get "codigo" (JStr "") o)]
                  else []
              | _ => []
              end) items.

(** Lines 119 to 122 (and 128 to 131): the codes and the reasoning of a
    decoded response. *)
Definition read_payload (data : json) (default_razonamiento : string)
  : result (list string * json) :=
  razonamiento <- py_get data "razonamiento" (JStr default_razonamiento) ;;
  clasificaciones <- py_get data "clasificaciones" (JList []) ;;
  items <- py_iter clasificaciones ;;
  Ok (Str.sorted (codigos_of_items items), razonamiento).

Section Parse.
(** [json.loads] *)
Variable json_loads : string -> result json.

(** The inner [try] of lines 124 to 133; its bare [except] swallows every
    exception. *)
Definition parse_embedded (response : string)
  : option (list string * json) :=
  match Re.search pattern_json response with
  | Some (_, from, rest) =>
      match (data <- json_loads (Re.group0 from rest) ;;
             read_payload data "Razonamiento extraído parcialmente.") with
      | Ok r => Some r
      | Raise _ => None
      end
  | None => None
  end.

(** Lines 135 to 142. *)
Definition parse_codes_only (response : string) : list string * json :=
  let codes_matches :=
    map (Re.group "1") (Re.finditer pattern_codigo response) in
  match codes_matches with
  | _ :: _ => (Str.sorted_set codes_matches,
               JStr "Códigos extraídos con regex.")
  | [] => ([], JStr ("Error de parseo - respuesta no válida: "
                      ++ Str.take 100 response ++ "...")%string)
  end.

Definition parse_response (response : string)
  : result (list string * json) :=
  match json_loads (Str.strip response) with
  | Ok data => read_payload data "No se encontró razonamiento."
  | Raise JSONDecodeError =>
      match parse_embedded response with
      | Some r => Ok r
      | None => Ok (parse_codes_only response)
      end
  | Raise e => Raise e
  end.
End Parse.

(** ** One case *)

(** What a case task meets outside itself. *)
Record task_env : Type := {
  (** [knowledge_base.get_validation_prompt] *)
  get_validation_prompt : json -> result (string * string);
  (** the endpoint, for the two prompts, at each attempt *)
  endpoint : string -> string -> nat -> api_outcome;
  (** [random.random()] at each attempt *)
  random : nat -> spec_float;
  (** [datetime.now().isoformat()] when the record is built *)
  now : string
}.

(** Lines 152 to 156. *)
Definition normalize_codigos_raw (codigos_raw : json) : list json :=
  match codigos_raw with
  | JStr s => if truthy (JStr (Str.strip s)) then [codigos_raw] else []
  | JList l => l
  | _ => []
  end.

(** Lines 161 to 168, for one element. A [bool] is an [int]. *)
Definition expected_code (c : json) : list string :=
  match c with
  | JInt z => [Show.py_str (JInt z)]
  | JBool b => [Show.py_str (JInt (Z.b2z b))]
  | JStr s => if truthy (JStr (Str.strip s)) then [Str.strip s] else []
  | JObj o =>
      if obj_mem "codigo" o then
        match obj_get "codigo" JNull o with
        | JNull => []
        | codigo_val =>
            if truthy (JStr (Str.strip (Show.py_str codigo_val)))
            then [Str.strip (Show.py_str codigo_val)]
            else []
        end
      else []
  | _ => []
  end.

Definition strs (l : list string) : json := JList (map JStr l).

Section Case.
Variable json_loads : string -> result json.
(** [str(e)] of an exception. *)
Variable exn_str : exn -> string.
Variable cfg : api_config.

(** The [try] block of [process_single_case], with the requests and
    waits it made. *)
Definition try_single_case (env : task_env) (case_data : obj)
  : result obj * list event :=
  let case_id := obj_get "id" (JStr "unknown") case_data in
  let observacion := obj_get "observacion" (JStr "") case_data in
  let codigos_raw :=
    normalize_codigos_raw (obj_get "codigos_esperados" (JList []) case_data) in
  let expected_codes :=
    Str.sorted_set (flat_map expected_code codigos_raw) in
  let ids_delito_originales :=
    obj_get "ids_delito_originales" (JList []) case_data in
  match get_validation_prompt env observacion with
  | Raise e => (Raise e, [])
  | Ok (system_prompt, user_prompt) =>
      let '(returned, trace) :=
        generate_prediction_api cfg (endpoint env system_prompt user_prompt)
          (random env) in
      (raw_response <- returned ;;
       '(predicted_codes, razonamiento) <-
         parse_response json_loads raw_response ;;
       Ok [("id", case_id);
           ("observacion", observacion);
           ("expected_codes", strs expected_codes);
           ("ids_delito_originales", ids_delito_originales);
           ("predicted_codes", strs predicted_codes);
           ("razonamiento_modelo", razonamiento);
           ("raw_response", JStr raw_response);
           ("timestamp", JStr (now env))],
       trace)
  end.

(** The record of the [except Exception] handler. *)
Definition failed_record (env : task_env) (case_data : obj) (e : exn)
  : obj :=
  [("id", obj_get "id" (JStr "unknown") case_data);
   ("observacion", obj_get "observacion" (JStr "") case_data);
   ("expected_codes", obj_get "codigos_esperados" (JList []) case_data);
   ("ids_delito_originales",
    obj_get "ids_delito_originales" (JList []) case_data);
   ("predicted_codes", JList []);
   ("razonamiento_modelo",
    JStr ("Error en procesamiento: " ++ exn_str e)%string);
   ("raw_response", JStr "");
   ("timestamp", JStr (now env));
   ("error", JBool true)].

Definition process_single_case (env : task_env) (case_data : obj)
  : obj * list event :=
  match try_single_case env case_data with
  | (Ok record, trace) => (record, trace)
  | (Raise e, trace) => (failed_record env case_data e, trace)
  end.

(** [process_batch_async]: one task per case, the results gathered in
    the order of the cases; [envs i] is what task [i] meets. *)
Fixpoint gather_from (envs : nat -> task_env) (i : nat)
  (batch_data : list obj) : list obj :=
  match batch_data with
  | [] => []
  | case_data :: rest =>
      fst (process_single_case (envs i) case_data)
      :: gather_from envs (S i) rest
  end.

Definition process_batch_async (envs : nat -> task_env)
  (batch_data : list obj) : list obj :=
  gather_from envs 0 batch_data.
End Case.

(** ** Batch files *)

(** A file: its name and its lines. *)
Abbreviation file := (string * list string)%type (only parsing).

Definition newline : string := String (ascii_of_nat 10) EmptyString.

(** The name and the content written by [save_batch_results]; [stamp] is
    [datetime.now().strftime("%Y%m%d_%H%M")]. *)
Definition save_batch_results (stamp : string) (results : list obj)
  (batch_id : Z) : file :=
  (("resultados_lote_" ++ Show.decimal batch_id ++ "_" ++ stamp
    ++ ".jsonl")%string,
   map (fun result => (Show.dumps (JObj result) ++ newline)%string) results).

(** ** The orchestrator *)

Section Clean.
Variable json_loads : string -> result json.

(** The body of the loop of [load_clean_data] for one line: the case it
    appends and the number of original records it adds, if any. *)
Definition clean_case (line : string) : result (option (obj * nat)) :=
  record <- json_loads (Str.strip line) ;;
  has_messages <- py_in "messages" record ;;
  if has_messages then
    messages <- py_getitem record "messages" ;;
    n <- py_len messages ;;
    if Nat.leb 3 n then
      user <- py_index messages 1 ;;
      observacion <- py_getitem user "content" ;;
      assistant <- py_index messages 2 ;;
      content <- py_getitem assistant "content" ;;
      assistant_content <- loads_value json_loads content ;;
      ids_originales <-
        py_get assistant_content "ids_delito_originales" (JList []) ;;
      n_ids <- py_len ids_originales ;;
      id <- py_get record "id" JNull ;;
      codigos <- py_get assistant_content "codigos_delito" (JList []) ;;
      Ok (Some ([("id", id);
                 ("observacion", observacion);
                 ("codigos_esperados", codigos);
                 ("ids_delito_originales", ids_originales)], n_ids))
    else Ok None
  else Ok None.

(** [load_clean_data] on the lines of the clean file: a line that raises
    is passed over. *)
Fixpoint load_clean_lines (lines : list string) : list obj * nat :=
  match lines with
  | [] => ([], 0)
  | line :: rest =>
      let '(data, total) := load_clean_lines rest in
      match clean_case line with
      | Ok (Some (case_data, n_ids)) => (case_data :: data, n_ids + total)
      | Ok None | Raise _ => (data, total)
      end
  end.

(** [clean_file] is [None] when the file does not exist. *)
Definition load_clean_data (clean_file : option (list string))
  : result (list obj * nat) :=
  match clean_file with
  | None => Raise FileNotFoundError
  | Some lines => Ok (load_clean_lines lines)
  end.
End Clean.

(** The knowledge base: its [version] attribute, when it has one, and its
    prompt method. *)
Record knowledge_base : Type := {
  kb_version : option json;
  kb_prompt : json -> result (string * string)
}.

(** What a run meets outside itself.  The API key is at hand (it is
    fetched before the [try] block), at least one task may run at a time,
    and what the run prints is left out. *)
Record run_env : Type := {
  (** [config.get_prompts_version()] *)
  prompt_version : json;
  (** [get_knowledge_base(version=prompt_version)] *)
  loaded_kb : result knowledge_base;
  (** the lines of the clean file, when it exists *)
  clean_file : option (list string);
  (** [config.processing.batch_size] *)
  config_batch_size : Z;
  (** what the operator types at the confirmation prompt *)
  typed : string;
  (** the files of the batch directory, when it exists *)
  lotes_dir : option (list file);
  (** the exception the constructor of the validator raises, if any *)
  init_error : option exn;
  (** the batch, counted from zero, at whose [await] the operator
      interrupts (SIGINT) *)
  interrupt_at : option nat;
  (** for each batch and each of its tasks: endpoint, randomness, clock *)
  endpoint_of : nat -> nat -> string -> string -> nat -> api_outcome;
  random_of : nat -> nat -> nat -> spec_float;
  now_of : nat -> nat -> string;
  (** the stamp of each batch file *)
  stamp_of : nat -> string;
  (** seconds between the start and the end of the processing *)
  elapsed_seconds : Q
}.

(** How [run_validation_async] ends: at one of its [return] statements, or
    cancelled.  The coroutine runs under [asyncio.run] (lines 396 and 400),
    whose handler of SIGINT does not raise [KeyboardInterrupt] inside the
    coroutine: it cancels the main task.  The [CancelledError] raised at
    the [await] of line 364 is a [BaseException], which neither
    [except KeyboardInterrupt] nor [except Exception] catches, so the
    coroutine ends without a value and [asyncio.run] raises
    [KeyboardInterrupt] in its caller.  The [return] of line 386 needs a
    [KeyboardInterrupt] raised in the coroutine itself, which the
    environments described by [run_env] do not do. *)
Inductive exit_point : Type :=
| VersionMismatch      (* line 284 *)
| NoData               (* line 298 *)
| Declined             (* line 333 *)
| Completed            (* line 381 *)
| Interrupted          (* line 386 *)
| Failed (e : exn)     (* line 392 *)
| Cancelled.           (* no [return]: [CancelledError] leaves line 364 *)

(** The value each of them returns, if any. *)
Definition returned (x : exit_point) : option bool :=
  match x with
  | VersionMismatch => Some false
  | NoData => Some true
  | Declined => Some false
  | Completed => Some true
  | Interrupted => Some false
  | Failed _ => Some false
  | Cancelled => None
  end.

(** What a call of [asyncio.run] on the coroutine gives its caller. *)
Inductive run_outcome : Type :=
| Value (b : bool)
| KeyboardInterrupt.

(** An index of a slice of a list of length [len]: a negative index counts
    from the end, and both ends are clamped. *)
Definition slice_index (len i : Z) : nat :=
  Z.to_nat (if (i <? 0)%Z then Z.max 0 (i + len) else Z.min i len).

(** [l[start:stop]] *)
Definition slice {A : Type} (start stop : Z) (l : list A) : list A :=
  let len := Z.of_nat (List.length l) in
  let a := slice_index len start in
  let b := slice_index len stop in
  firstn (b - a) (skipn a l).

(** Lines 337 to 348: the old result files leave the batch directory. *)
Definition backup_old_files (dir : list file) : list file :=
  filter (fun f => negb (Re.fnmatch (fst f) "resultados_*.jsonl")) dir.

Section Run.
Variable json_loads : string -> result json.
Variable exn_str : exn -> string.
Variable cfg : api_config.

Definition task_of (env : run_env) (kb : knowledge_base)
  (batch_idx i : nat) : task_env :=
  {| get_validation_prompt := kb_prompt kb;
     endpoint := endpoint_of env batch_idx i;
     random := random_of env batch_idx i;
     now := now_of env batch_idx i |}.

Definition interrupted_in (env : run_env) (batch_idx : nat) : bool :=
  match interrupt_at env with
  | Some k => Nat.eqb k batch_idx
  | None => false
  end.

(** The loop of lines 354 to 371 over the batches still to run.  The
    state is the batch directory and the counter [results_saved] of the
    validator; the boolean tells whether the operator interrupted: the
    batch at whose [await] the task is cancelled writes no file. *)
Fixpoint batches_loop (env : run_env) (kb : knowledge_base)
  (data : list obj) (batch_size total_cases : Z) (batches : list nat)
  (dir : list file) (results_saved : nat) : bool * list file * nat :=
  match batches with
  | [] => (false, dir, results_saved)
  | batch_idx :: rest =>
      if interrupted_in env batch_idx then (true, dir, results_saved)
      else
        let start_idx := (Z.of_nat batch_idx * batch_size)%Z in
        let end_idx := Z.min (start_idx + batch_size) total_cases in
        let batch_data := slice start_idx end_idx data in
        let batch_id := (Z.of_nat batch_idx + 1)%Z in
        let batch_results :=
          process_batch_async json_loads exn_str cfg
            (task_of env kb batch_idx) batch_data in
        let f := save_batch_results (stamp_of env batch_idx)
                   batch_results batch_id in
        batches_loop env kb data batch_size total_cases rest
          (Dict.set String.eqb (fst f) (snd f) dir)
          (results_saved + List.length batch_results)
  end.

Definition version_mismatch (env : run_env) (kb : knowledge_base) : bool :=
  match kb_version kb with
  | Some v =>
      negb (String.eqb (Show.py_str v) (Show.py_str (prompt_version env)))
  | None => false
  end.

Definition declines (typed : string) : bool :=
  let confirm := Str.lower typed in
  String.eqb confirm "n" || String.eqb confirm "no".

(** [batch_size or config.processing.batch_size] *)
Definition effective_batch_size (env : run_env) (batch_size : option Z) : Z :=
  match batch_size with
  | Some b => if (b =? 0)%Z then config_batch_size env else b
  | None => config_batch_size env
  end.

(** [(total_cases + batch_size - 1) // batch_size] *)
Definition num_batches (total_cases batch_size : Z) : Z :=
  ((total_cases + batch_size - 1) / batch_size)%Z.

(** [run_validation_async]: how it ends and the batch directory it
    leaves. *)
Definition run_validation_async (env : run_env) (batch_size : option Z)
  (auto_confirm : bool) : exit_point * list file :=
  let dir0 := match lotes_dir env with Some d => d | None => [] end in
  match loaded_kb env with
  | Raise e => (Failed e, dir0)
  | Ok kb =>
      if version_mismatch env kb then (VersionMismatch, dir0)
      else
        match load_clean_data json_loads (clean_file env) with
        | Raise e => (Failed e, dir0)
        | Ok ([], _) => (NoData, dir0)
        | Ok (data_to_process, _) =>
            let total_cases := Z.of_nat (List.length data_to_process) in
            let batch_size := effective_batch_size env batch_size in
            if (batch_size =? 0)%Z then (Failed ZeroDivisionError, dir0)
            else
              let num_batches := num_batches total_cases batch_size in
              if negb auto_confirm && declines (typed env)
              then (Declined, dir0)
              else
                let dir1 := backup_old_files dir0 in
                match init_error env with
                | Some e => (Failed e, dir1)
                | None =>
                    match batches_loop env kb data_to_process batch_size
                            total_cases (seq 0 (Z.to_nat num_batches))
                            dir1 0 with
                    | (true, dir2, _) => (Cancelled, dir2)
                    | (false, dir2, _) =>
                        if Qeq_bool (elapsed_seconds env) 0
                        then (Failed ZeroDivisionError, dir2)
                        else (Completed, dir2)
                    end
                end
        end
  end.

(** [run_validation], lines 394 to 396: [asyncio.run] of the coroutine. *)
Definition run_validation (env : run_env) (auto_confirm : bool)
  : run_outcome * list file :=
  let '(x, dir) := run_validation_async env None auto_confirm in
  (match returned x with
   | Some b => Value b
   | None => KeyboardInterrupt
   end, dir).
End Run.

End Validador.

(* ------------------------------------------------------------------ *)
(** * [5_lotes_processor.py]: the consolidator *)

Module Lotes.

Import Validador.

(** ** Finding the batch files *)

Definition patterns : list string :=
  ["resultados_lote_*.jsonl";
   "resultados_*_lote_*.jsonl";
   "lote_*.jsonl";
   "batch_*.jsonl"].

(** [glob.glob(lotes_dir / pattern)] on the entries of the directory, in
    the order of the listing; names match with their case, as on POSIX. *)
Definition glob (dir : list file) (pattern : string) : list file :=
  filter (fun f => Re.fnmatch (fst f) pattern) dir.

(** The loop of lines 54 to 59: the files of the first pattern that finds
    any; the patterns after it are not tried. *)
Fixpoint first_found (dir : list file) (patterns : list string) : list file :=
  match patterns with
  | [] => []
  | pattern :: rest =>
      match glob dir pattern with
      | [] => first_found dir rest
      | found_files => found_files
      end
  end.

Fixpoint insert_file (f : file) (l : list file) : list file :=
  match l with
  | [] => [f]
  | g :: l' =>
      if String.leb (fst f) (fst g) then f :: l else g :: insert_file f l'
  end.

(** [sorted(batch_files)]: paths of one directory compare by name. *)
Definition sort_files (l : list file) : list file :=
  fold_right insert_file [] l.

Definition find_batch_files (dir : list file) : result (list file) :=
  match first_found dir patterns with
  | [] => Raise FileNotFoundError
  | batch_files => Ok (sort_files batch_files)
  end.

(** ** Unifying the batch files *)

(** The processor: the counters of [__init__] and, while it loads, the
    dictionary [unified_data]. *)
Record load_state : Type := {
  unified_data : idmap json;
  json_decode_errors : nat;
  general_parse_errors : nat;
  skipped_no_id : nat
}.

Definition initial_state : load_state :=
  {| unified_data := [];
     json_decode_errors := 0;
     general_parse_errors := 0;
     skipped_no_id := 0 |}.

(** [record.pop(k)] when [k in record] holds. *)
Definition py_pop (record : json) (k : string) : result (json * json) :=
  match record with
  | JObj o =>
      match obj_lookup k o with
      | Some v => Ok (v, JObj (obj_remove k o))
      | None => Raise KeyError
      end
  | JList _ => Raise TypeError
  | _ => Raise AttributeError
  end.

(** [record[k] = v] *)
Definition py_setitem (record : json) (k : string) (v : json) : result json :=
  match record with
  | JObj o => Ok (JObj (obj_set k v o))
  | _ => Raise TypeError
  end.

(** Lines 85 to 93: the identifier ([JNull] for [None]) and the record as
    the normalisation leaves it. *)
Definition normalize_id (record : json) : result (json * json) :=
  has_id <- py_in "id" record ;;
  if has_id then
    record_id <- py_getitem record "id" ;;
    Ok (record_id, record)
  else
    has_case_id <- py_in "case_id" record ;;
    if has_case_id then
      '(record_id, record') <- py_pop record "case_id" ;;
      record'' <- py_setitem record' "id" record_id ;;
      Ok (record_id, record'')
    else
      has_id_observacion <- py_in "id_observacion" record ;;
      if has_id_observacion then
        record_id <- py_getitem record "id_observacion" ;;
        record' <- py_setitem record "id" record_id ;;
        Ok (record_id, record')
      else Ok (JNull, record).

Definition count_json_error (st : load_state) : load_state :=
  {| unified_data := unified_data st;
     json_decode_errors := S (json_decode_errors st);
     general_parse_errors := general_parse_errors st;
     skipped_no_id := skipped_no_id st |}.

Definition count_general_error (st : load_state) : load_state :=
  {| unified_data := unified_data st;
     json_decode_errors := json_decode_errors st;
     general_parse_errors := S (general_parse_errors st);
     skipped_no_id := skipped_no_id st |}.

Definition count_no_id (st : load_state) : load_state :=
  {| unified_data := unified_data st;
     json_decode_errors := json_decode_errors st;
     general_parse_errors := general_parse_errors st;
     skipped_no_id := S (skipped_no_id st) |}.

Definition store (st : load_state) (d : idmap json) : load_state :=
  {| unified_data := d;
     json_decode_errors := json_decode_errors st;
     general_parse_errors := general_parse_errors st;
     skipped_no_id := skipped_no_id st |}.

Section Load.
Variable json_loads : string -> result json.

(** The body of the loop over the lines of a file, lines 81 to 108. *)
Definition load_line (st : load_state) (line : string) : load_state :=
  match (record <- json_loads (Str.strip line) ;; normalize_id record) with
  | Ok (record_id, record) =>
      if negb (truthy record_id) then count_no_id st
      else
        match idmap_set record_id record (unified_data st) with
        | Ok d => store st d
        | Raise JSONDecodeError => count_json_error st
        | Raise _ => count_general_error st
        end
  | Raise JSONDecodeError => count_json_error st
  | Raise _ => count_general_error st
  end.

Definition load_file (st : load_state) (f : file) : load_state :=
  fold_left load_line (snd f) st.

(** [load_batch_files]: the state of the processor after the load; its
    [unified_data] is the dictionary returned. *)
Definition load_batch_files (dir : list file) : result load_state :=
  batch_files <- find_batch_files dir ;;
  Ok (fold_left load_file batch_files initial_state).
End Load.

(** ** The reference cases *)

Section Reference.
Variable json_loads : string -> result json.

(** The body of the loop of [load_reference_data]; the counters of that
    loop are local and only printed. *)
Definition reference_line (reference_data : idmap json) (line : string)
  : idmap json :=
  match (record <- json_loads (Str.strip line) ;;
         record_id <- py_get record "id" JNull ;;
         if negb (truthy record_id) then Ok reference_data
         else idmap_set record_id record reference_data) with
  | Ok d => d
  | Raise _ => reference_data
  end.

Definition load_reference_data (clean_lines : list string) : idmap json :=
  fold_left reference_line clean_lines [].
End Reference.

Definition has_key {V : Type} (k : json) (d : idmap V) : bool :=
  Dict.mem key_eqb k d.

(** [set(a.keys()) - set(b.keys())] *)
Definition keys_minus {V W : Type} (a : idmap V) (b : idmap W) : list json :=
  filter (fun k => negb (has_key k b)) (map fst a).

(** What [validate_consistency] lists when the two counts differ: the
    identifiers missing from the batches and the extra ones. *)
Definition validate_consistency (unified_data reference_data : idmap json)
  : option (list json * list json) :=
  if Nat.eqb (List.length unified_data) (List.length reference_data)
  then None
  else Some (keys_minus reference_data unified_data,
             keys_minus unified_data reference_data).

(** ** The tiered parser of the raw response *)

(** The head shared by the two patterns: an opening brace, the code in the
    group [code], and the opening quote of the justification. *)
Definition pattern_head : Re.regex :=
  Re.lits "{" ++ [Re.Atom Re.Star Re.Space None]
  ++ Re.lits (Json.dq "'codigo':") ++ [Re.Atom Re.Star Re.Space None]
  ++ Re.lits (Json.dq "'") ++ [Re.Atom Re.Plus Re.Digit (Some "code")]
  ++ Re.lits (Json.dq "',") ++ [Re.Atom Re.Star Re.Space None]
  ++ Re.lits (Json.dq "'justificacion':") ++ [Re.Atom Re.Star Re.Space None]
  ++ Re.lits (Json.dq "'").

(** [pattern_completo]: the head, a lazy justification, the closing quote
    and the closing brace. *)
Definition pattern_completo : Re.regex :=
  pattern_head ++ [Re.Atom Re.LazyStar Re.Any (Some "just")]
  ++ Re.lits (Json.dq "'") ++ [Re.Atom Re.Star Re.Space None] ++ Re.lits "}".

(** [pattern_truncado]: the head and a greedy justification to the end. *)
Definition pattern_truncado : Re.regex :=
  pattern_head ++ [Re.Atom Re.Star Re.Any (Some "just")].

(** [predicted_details], a [dict] from code to justification. *)
Abbreviation details := (list (string * json)) (only parsing).

Definition details_set (code : string) (v : json) (d : details) : details :=
  Dict.set String.eqb code v d.

(** The body of the loop of lines 184 to 186. *)
Definition tier1_item (d : details) (item : json) : result details :=
  has_codigo <- py_in "codigo" item ;;
  if has_codigo then
    has_justificacion <- py_in "justificacion" item ;;
    if has_justificacion then
      codigo <- py_getitem item "codigo" ;;
      justificacion <- py_getitem item "justificacion" ;;
      Ok (details_set (Show.py_str codigo) justificacion d)
    else Ok d
  else Ok d.

(** Lines 183 to 187 on the decoded response: [Some] when the function
    returns there. *)
Definition tier1 (parsed_json : json) : result (option details) :=
  has_clasificaciones <- py_in "clasificaciones" parsed_json ;;
  if has_clasificaciones then
    clasificaciones <- py_get parsed_json "clasificaciones" (JList []) ;;
    items <- py_iter clasificaciones ;;
    d <- foldM tier1_item items [] ;;
    Ok (Some d)
  else Ok None.

(** Lines 196 and 197: every complete block, a later one over an earlier
    one of the same code. *)
Definition tier2 (raw_response : string) (d : details) : details :=
  fold_left (fun d m => details_set (Re.group "code" m)
                          (JStr (Re.group "just" m)) d)
            (Re.finditer pattern_completo raw_response) d.

(** The match of lines 204 to 208: the code and the partial justification
    of a truncated block at the last opening brace. *)
Definition truncated_block (raw_response : string) : option (string * string) :=
  match Str.from_last "{" raw_response with
  | Some tail =>
      match Re.search pattern_truncado tail with
      | Some (m, _, _) => Some (Re.group "code" m, Re.group "just" m)
      | None => None
      end
  | None => None
  end.

Definition truncation_marker : string := " [TRUNCADO]".

(** Lines 204 to 211. *)
Definition tier3 (raw_response : string) (d : details) : details :=
  match truncated_block raw_response with
  | Some (code, just) =>
      if Dict.mem String.eqb code d then d
      else details_set code (JStr (just ++ truncation_marker)%string) d
  | None => d
  end.

Section Parser.
Variable json_loads : string -> result json.

Definition parse_detailed_predictions (raw_response : json)
  : result details :=
  if negb (truthy raw_response) then Ok []
  else
    match raw_response with
    | JStr text =>
        match json_loads text with
        | Ok parsed_json =>
            returned <- tier1 parsed_json ;;
            match returned with
            | Some d => Ok d
            | None => Ok (tier3 text (tier2 text []))
            end
        | Raise JSONDecodeError => Ok (tier3 text (tier2 text []))
        | Raise e => Raise e
        end
    | _ => Raise TypeError
    end.
End Parser.

(** ** The flattened view *)

(** A row of the flattened file. *)
Record row : Type := {
  id_delito_ia : json;
  id_observacion : json;
  observacion : json;
  expected_codes_obs : json;
  predicted_codes_obs : json;
  razonamiento_general_modelo : json;
  predicciones_detalladas_modelo : details;
  timestamp : json;
  processing_error : json
}.

(** An entry of [parsing_issues]. *)
Record issue : Type := {
  issue_id : json;
  codes_list : list string;
  codes_parsed : list string
}.

Definition same_set (a b : list string) : bool :=
  if list_eq_dec string_dec (Str.sorted_set a) (Str.sorted_set b)
  then true else false.

Section Unnest.
Variable json_loads : string -> result json.
(** [PROCESSING_MODE == "complex"] *)
Variable complex : bool.

(** Lines 253 to 260: the original crime identifiers of a reference
    record; the three exceptions of the [except] clause give [[None]]. *)
Definition crime_ids_of (ref_record : json) : result json :=
  let read :=
    messages <- py_getitem ref_record "messages" ;;
    assistant <- py_index messages 2 ;;
    content <- py_getitem assistant "content" ;;
    assistant_content <- loads_value json_loads content ;;
    py_get assistant_content "ids_delito_originales" (JList []) in
  crime_ids <-
    match read with
    | Ok ids => Ok ids
    | Raise JSONDecodeError | Raise KeyError | Raise IndexError =>
        Ok (JList [JNull])
    | Raise e => Raise e
    end ;;
  Ok (if negb (truthy crime_ids) then JList [JNull] else crime_ids).

Definition make_row (crime_id obs_id unified_record : json)
  (predicted_details : details) : result row :=
  observacion <- py_get unified_record "observacion" JNull ;;
  expected <- py_get unified_record "expected_codes" (JList []) ;;
  predicted <- py_get unified_record "predicted_codes" (JList []) ;;
  razonamiento <- py_get unified_record "razonamiento_modelo" JNull ;;
  stamp <- py_get unified_record "timestamp" JNull ;;
  error <- py_get unified_record "error" (JBool false) ;;
  Ok {| id_delito_ia := crime_id;
        id_observacion := obs_id;
        observacion := observacion;
        expected_codes_obs := expected;
        predicted_codes_obs := predicted;
        razonamiento_general_modelo := razonamiento;
        predicciones_detalladas_modelo := predicted_details;
        timestamp := stamp;
        processing_error := error |}.

(** The body of the loop of lines 229 to 290 for one unified record: the
    rows and the parsing issues it appends. *)
Definition unnest_record (reference_data : idmap json)
  (obs_id unified_record : json) : result (list row * list issue) :=
  match Dict.lookup key_eqb obs_id reference_data with
  | None => Ok ([], [])
  | Some ref_record =>
      if negb (truthy ref_record) then Ok ([], [])
      else
        raw_response <- py_get unified_record "raw_response" (JStr "") ;;
        predicted_details <-
          parse_detailed_predictions json_loads raw_response ;;
        predicted_codes <-
          py_get unified_record "predicted_codes" (JList []) ;;
        codes <- py_iter predicted_codes ;;
        let predicted_from_details := map fst predicted_details in
        let predicted_from_list := map Show.py_str codes in
        let issues :=
          if same_set predicted_from_details predicted_from_list then []
          else [{| issue_id := obs_id;
                   codes_list := Str.sorted_set predicted_from_list;
                   codes_parsed := Str.sorted_set predicted_from_details |}]
        in
        if complex then
          crime_ids <- crime_ids_of ref_record ;;
          ids <- py_iter crime_ids ;;
          rows <- foldM (fun rows crime_id =>
                           r <- make_row crime_id obs_id unified_record
                                  predicted_details ;;
                           Ok (rows ++ [r])) ids [] ;;
          Ok (rows, issues)
        else
          r <- make_row obs_id obs_id unified_record predicted_details ;;
          Ok ([r], issues)
  end.

(** The loop over [unified_data.items()], from the rows and issues
    gathered so far. *)
Fixpoint unnest_loop (reference_data : idmap json)
  (items : idmap json) (final_rows : list row) (parsing_issues : list issue)
  : result (list row * list issue) :=
  match items with
  | [] => Ok (final_rows, parsing_issues)
  | (obs_id, unified_record) :: rest =>
      '(rows, issues) <- unnest_record reference_data obs_id unified_record ;;
      unnest_loop reference_data rest (final_rows ++ rows)
        (parsing_issues ++ issues)
  end.

(** [create_unnested_format]: the rows written to the flattened file, in
    order; the function returns their number and the parsing issues. *)
Definition create_unnested_format (unified_data reference_data : idmap json)
  : result (list row * list issue) :=
  unnest_loop reference_data unified_data [] [].

Definition unnested_count (unified_data reference_data : idmap json)
  : result nat :=
  '(final_rows, _) <- create_unnested_format unified_data reference_data ;;
  Ok (List.length final_rows).
End Unnest.

(** ** The nested view and the whole consolidation *)

(** [create_nested_format]: the lines written to the nested file, one for
    each unified record in the order of the dictionary, and the number
    returned. *)
Definition create_nested_format (unified_data : idmap json)
  : list string * nat :=
  (map (fun kv => (Show.dumps (snd kv) ++ newline)%string) unified_data,
   List.length unified_data).

(** [sorted(list(ids))] on a set of identifiers raises [TypeError] when it
    has to compare a [str] with a number; any sort of a list that holds both
    compares two such elements. *)
Definition sorted_raises (ids : list json) : bool :=
  existsb is_str ids && existsb is_number ids.

(** The exception that leaves [validate_consistency], if any: the examples
    of lines 166 and 170 are sorted before they are printed. *)
Definition validate_consistency_raises
  (unified_data reference_data : idmap json) : option exn :=
  match validate_consistency unified_data reference_data with
  | Some (missing_in_unified, extra_in_unified) =>
      if sorted_raises missing_in_unified || sorted_raises extra_in_unified
      then Some TypeError else None
  | None => None
  end.

(** The counts of the dictionary that [process] returns (the name of the
    data set and the two paths are left out). *)
Record process_results : Type := {
  unified_records : nat;
  reference_records : nat;
  nested_count : nat;
  unnested_rows : nat;                  (* the entry [unnested_count] *)
  parsing_issues_count : nat;
  parsing_issues : list issue
}.

(** What [process] has written when it returns: the lines of the nested
    file and the rows of the flattened file, each [None] when the file was
    not written. *)
Record process_output : Type := {
  nested_file : option (list string);
  unnested_file : option (list row)
}.

Section Process.
Variable json_loads : string -> result json.
Variable complex : bool.

(** [process]: [None] is the value returned from the [except] clause. *)
Definition process (dir : list file) (clean_lines : list string)
  : option process_results * process_output :=
  match load_batch_files json_loads dir with
  | Raise _ => (None, {| nested_file := None; unnested_file := None |})
  | Ok st =>
      let unified_data := unified_data st in
      let reference_data := load_reference_data json_loads clean_lines in
      match validate_consistency_raises unified_data reference_data with
      | Some _ => (None, {| nested_file := None; unnested_file := None |})
      | None =>
          let '(nested_lines, nested_count) :=
            create_nested_format unified_data in
          match create_unnested_format json_loads complex unified_data
                  reference_data with
          | Raise _ =>
              (None, {| nested_file := Some nested_lines;
                        unnested_file := None |})
          | Ok (final_rows, parsing_issues) =>
              (Some {| unified_records := List.length unified_data;
                       reference_records := List.length reference_data;
                       nested_count := nested_count;
                       unnested_rows := List.length final_rows;
                       parsing_issues_count := List.length parsing_issues;
                       parsing_issues := firstn 10 parsing_issues |},
               {| nested_file := Some nested_lines;
                  unnested_file := Some final_rows |})
          end
      end
  end.
End Process.

End Lotes.

(* ------------------------------------------------------------------ *)
(** * [6_Error_results.py]: the error analyser *)

Module Errores.

Definition formato_a : string := "Formato A: Perfecto".
Definition formato_b : string := "Formato B: Fallback Recuperable".
Definition formato_c : string := "Formato C: Fallback Truncado".
Definition formato_d : string := "Formato D: Inconsistente".
Definition formato_e : string := "Formato E: Otro".

(** [razonamiento.lower()]: only a [str] has the method. *)
Definition py_lower (v : json) : result string :=
  match v with
  | JStr s => Ok (Str.lower s)
  | _ => Raise AttributeError
  end.

(** Lines 55 to 64: the label of the three flags. *)
Definition label (is_fallback is_raw_valid_json has_clasificaciones : bool)
  : string :=
  if negb is_fallback && is_raw_valid_json && has_clasificaciones
  then formato_a
  else if is_fallback && is_raw_valid_json && has_clasificaciones
  then formato_b
  else if is_fallback && negb is_raw_valid_json
  then formato_c
  else if negb is_fallback
          && (negb is_raw_valid_json || negb has_clasificaciones)
  then formato_d
  else formato_e.

Section Classify.
Variable json_loads : string -> result json.

(** Lines 46 to 53: [is_raw_valid_json] and [has_clasificaciones]. *)
Definition raw_flags (raw_response : json) : result (bool * bool) :=
  if truthy raw_response then
    match loads_value json_loads raw_response with
    | Ok parsed_raw =>
        has <- py_in "clasificaciones" parsed_raw ;;
        if has then
          clasificaciones <- py_getitem parsed_raw "clasificaciones" ;;
          Ok (true, truthy clasificaciones)
        else Ok (true, false)
    | Raise JSONDecodeError => Ok (false, false)
    | Raise e => Raise e
    end
  else Ok (false, false).

(** Lines 39 to 53: the three flags of a record. *)
Definition flags (record : json) : result (bool * bool * bool) :=
  razonamiento <- py_get record "razonamiento_modelo" (JStr "") ;;
  raw_response <- py_get record "raw_response" (JStr "") ;;
  lowered <- py_lower razonamiento ;;
  let is_fallback := Str.contains "fallback" lowered in
  '(is_raw_valid_json, has_clasificaciones) <- raw_flags raw_response ;;
  Ok (is_fallback, is_raw_valid_json, has_clasificaciones).

Definition classify_record (record : json) : result string :=
  '(is_fallback, is_raw_valid_json, has_clasificaciones) <- flags record ;;
  Ok (label is_fallback is_raw_valid_json has_clasificaciones).
End Classify.

(** ** The analysis of the nested file *)

Definition error_de_lectura : string := "Error de Lectura".

(** [classified_records], a [defaultdict(list)] from label to records. *)
Abbreviation classes := (list (string * list json)) (only parsing).

(** [classified_records.get(label, [])] *)
Definition class_get (label : string) (c : classes) : list json :=
  match Dict.lookup String.eqb label c with
  | Some records => records
  | None => []
  end.

(** [classified_records[label].append(record)]: a label met for the first
    time enters the dictionary with an empty list. *)
Definition class_append (label : string) (record : json) (c : classes)
  : classes :=
  Dict.set String.eqb label (class_get label c ++ [record]) c.

(** The analyser while it reads: the two local variables of
    [analyze_errors] and the two counters of [__init__]. *)
Record analysis : Type := {
  classified_records : classes;
  total_records : nat;
  json_decode_errors : nat;
  parse_errors : nat
}.

Definition initial_analysis : analysis :=
  {| classified_records := [];
     total_records := 0;
     json_decode_errors := 0;
     parse_errors := 0 |}.

Section Analyze.
Variable json_loads : string -> result json.
(** [str(e)] of the [JSONDecodeError] that [json.loads] raises on a line. *)
Variable decode_error_str : string -> string.

(** Lines 83 to 87. *)
Definition error_record (line_num : nat) (line : string) : json :=
  JObj [("linea", JInt (Z.of_nat line_num));
        ("error", JStr (Str.take 100 (decode_error_str line)));
        ("contenido_parcial", JStr (Str.take 100 line))].

(** The body of the loop of lines 75 to 92. *)
Definition analyze_line (st : analysis) (line_num : nat) (line : string)
  : analysis :=
  match (record <- json_loads line ;;
         format_name <- classify_record json_loads record ;;
         Ok (format_name, record)) with
  | Ok (format_name, record) =>
      {| classified_records :=
           class_append format_name record (classified_records st);
         total_records := S (total_records st);
         json_decode_errors := json_decode_errors st;
         parse_errors := parse_errors st |}
  | Raise JSONDecodeError =>
      {| classified_records :=
           class_append error_de_lectura (error_record line_num line)
             (classified_records st);
         total_records := total_records st;
         json_decode_errors := S (json_decode_errors st);
         parse_errors := parse_errors st |}
  | Raise _ =>
      {| classified_records := classified_records st;
         total_records := total_records st;
         json_decode_errors := json_decode_errors st;
         parse_errors := S (parse_errors st) |}
  end.

(** [for line_num, line in enumerate(f, line_num)] *)
Fixpoint analyze_lines (line_num : nat) (lines : list string) (st : analysis)
  : analysis :=
  match lines with
  | [] => st
  | line :: rest =>
      analyze_lines (S line_num) rest (analyze_line st line_num line)
  end.

(** [analyze_errors] of a fresh analyser; [nested_file] is [None] when the
    file does not exist.  The state returned carries the two values of the
    [return] and the counters the analyser is left with. *)
Definition analyze_errors (nested_file : option (list string))
  : result analysis :=
  match nested_file with
  | None => Raise FileNotFoundError
  | Some lines =>
      let st := analyze_lines 1 lines initial_analysis in
      if Nat.eqb (total_records st) 0 then Raise ValueError else Ok st
  end.
End Analyze.

(** Lines 115 to 117: the identifiers of the first two records;
    [', '.join(examples)] wants every one of them to be a [str]. *)
Definition report_examples (records : list json) : result unit :=
  examples <-
    foldM (fun examples rec =>
             id <- py_get rec "id" (JStr "ID_no_encontrado") ;;
             Ok (examples ++ [id])) (firstn 2 records) [] ;;
  match examples with
  | [] => Ok tt
  | _ => if forallb is_str examples then Ok tt else Raise TypeError
  end.

(** The body of the loop of [generate_report], lines 110 to 117. *)
Definition report_class (total_records : nat) (item : string * list json)
  : result unit :=
  let '(format_name, records) := item in
  if Nat.eqb total_records 0 then Raise ZeroDivisionError
  else if Str.contains "Truncado" format_name
          || Str.contains "Inconsistente" format_name
  then report_examples records
  else Ok tt.

Fixpoint insert_class (x : string * list json) (l : classes) : classes :=
  match l with
  | [] => [x]
  | y :: l' =>
      if String.leb (fst x) (fst y) then x :: l else y :: insert_class x l'
  end.

(** [sorted(classified_records.items())]: the labels are distinct, so the
    items compare by label. *)
Definition sorted_items (c : classes) : classes :=
  fold_right insert_class [] c.

(** [generate_report] prints; the value is what it raises, if anything. *)
Definition generate_report (classified_records : classes)
  (total_records : nat) : result unit :=
  foldM (fun _ item => report_class total_records item)
        (sorted_items classified_records) tt.

(** A quarantine file: written only for a class that has records. *)
Definition quarantine (name : string) (records : list json)
  : list (string * list string) :=
  match records with
  | [] => []
  | _ => [(name,
           map (fun record => (Show.dumps record ++ Validador.newline)%string)
               records)]
  end.

Definition truncados_name : string := "formato_c_truncados.jsonl".
Definition inconsistentes_name : string := "formato_d_inconsistentes.jsonl".

(** [save_problematic_cases]: the files it writes in the directory of
    errors, in order; [files_created] is the list of their names. *)
Definition save_problematic_cases (classified_records : classes)
  : list (string * list string) :=
  quarantine truncados_name (class_get formato_c classified_records)
  ++ quarantine inconsistentes_name (class_get formato_d classified_records).

(** The dictionary returned by [run_analysis]. *)
Record analysis_results : Type := {
  results_total_records : nat;          (* the entry [total_records] *)
  problematic_cases : nat;
  files_created : list string;
  classification_summary : list (string * nat)
}.

(** [open(path, 'w')] and the writes that follow. *)
Definition write_file (dir : list (string * list string))
  (f : string * list string) : list (string * list string) :=
  Dict.set String.eqb (fst f) (snd f) dir.

Section Run.
Variable json_loads : string -> result json.
Variable decode_error_str : string -> string.

(** [run_analysis] of a fresh analyser: what it returns or raises again,
    and the directory of errors it leaves. *)
Definition run_analysis (nested_file : option (list string))
  (errors_dir : list (string * list string))
  : result analysis_results * list (string * list string) :=
  match analyze_errors json_loads decode_error_str nested_file with
  | Raise e => (Raise e, errors_dir)
  | Ok st =>
      match generate_report (classified_records st) (total_records st) with
      | Raise e => (Raise e, errors_dir)
      | Ok _ =>
          let written := save_problematic_cases (classified_records st) in
          (Ok {| results_total_records := total_records st;
                 problematic_cases :=
                   List.length (class_get formato_c (classified_records st))
                   + List.length
                       (class_get formato_d (classified_records st));
                 files_created := map fst written;
                 classification_summary :=
                   map (fun kv => (fst kv, List.length (snd kv)))
                       (classified_records st) |},
           fold_left write_file written errors_dir)
      end
  end.
End Run.

End Errores.

(* ================================================================== *)
(** * Properties *)

(** Case analysis on the scrutinee of the innermost [match] of the goal. *)
Ltac case_match :=
  match goal with
  | |- context [match ?x with _ => _ end] =>
      lazymatch x with
      | context [match _ with _ => _ end] => fail
      | _ => destruct x eqn:?
      end
  end.

(** Inverts an equation between two results of the error monad. *)
Ltac inv_ok :=
  repeat match goal with
         | H : Ok _ = Ok _ |- _ => inversion H; subst; clear H
         | H : Raise _ = Ok _ |- _ => discriminate H
         | H : Ok _ = Raise _ |- _ => discriminate H
         | H : Some _ = Some _ |- _ => inversion H; subst; clear H
         | H : None = Some _ |- _ => discriminate H
         | H : Some _ = None |- _ => discriminate H
         | H : (_, _) = (_, _) |- _ => inversion H; subst; clear H
         end.

Lemma bind_ok {A B : Type} (r : result A) (k : A -> result B) (b : B) :
  Py.bind r k = Ok b -> exists a, r = Ok a /\ k a = Ok b.
Proof.
  destruct r as [a | e]; simpl; intros H; [eauto | discriminate].
Qed.

(* ------------------------------------------------------------------ *)
(** ** The reference decoder never runs out of fuel *)

Module JsonProps.

Import Json.

Ltac bind_step H :=
  apply bind_ok in H; destruct H as [[? ?] [? H]].

Lemma skip_ws_length (s : string) :
  String.length (skip_ws s) <= String.length s.
Proof.
  induction s as [| c s IH]; simpl; [lia |].
  destruct (is_ws c); simpl; lia.
Qed.

Lemma strip_prefix_length (p : string) :
  forall s rest,
    strip_prefix p s = Some rest ->
    String.length s = String.length p + String.length rest.
Proof.
  induction p as [| c p IH]; intros s rest H; simpl in *.
  - now inversion H.
  - destruct s as [| d s]; [discriminate |].
    destruct (Ascii.eqb c d); [| discriminate].
    simpl. now rewrite (IH s rest H).
Qed.

(** A string literal ends at its closing quote: what follows is shorter
    than what was scanned; and the scan of a literal raises one of two
    exceptions only. *)
Lemma scanstring_facts (n : nat) :
  forall s,
    String.length s <= n ->
    (forall body rest,
        scanstring s = Ok (body, rest) ->
        String.length rest < String.length s)
    /\ (forall e, scanstring s = Raise e ->
                  e = JSONDecodeError \/ e = Unsupported).
Proof.
  induction n as [| n IH]; intros s Hn.
  - destruct s; [| simpl in Hn; lia].
    split; simpl; intros; [discriminate | inv_ok].
    inversion H; auto.
  - destruct s as [| c s]; simpl.
    { split; intros; [discriminate |]. inversion H; auto. }
    simpl in Hn. destruct (Ascii.eqb c dquote).
    { split; intros; [inv_ok; lia | discriminate]. }
    destruct (Ascii.eqb c backslash).
    + destruct s as [| e s]; [split; intros; [discriminate |];
                              inversion H; auto |].
      simpl in Hn. destruct (IH s ltac:(lia)) as [IH1 IH2].
      destruct (unescape e).
      * destruct (scanstring s) as [[body rest] | e'] eqn:E; simpl.
        -- split; intros; [| discriminate]. inv_ok.
           specialize (IH1 _ _ eq_refl). simpl. lia.
        -- split; intros; [discriminate |]. inversion H; subst.
           now apply IH2.
      * destruct (Ascii.eqb e "u"); split; intros; try discriminate;
          inversion H; auto.
    + destruct (Nat.ltb (nat_of_ascii c) 32).
      { split; intros; [discriminate |]. inversion H; auto. }
      destruct (IH s ltac:(lia)) as [IH1 IH2].
      destruct (scanstring s) as [[body rest] | e'] eqn:E; simpl.
      * split; intros; [| discriminate]. inv_ok.
        specialize (IH1 _ _ eq_refl). lia.
      * split; intros; [discriminate |]. inversion H; subst.
        now apply IH2.
Qed.

Lemma scanstring_rest (s body rest : string) :
  scanstring s = Ok (body, rest) -> String.length rest < String.length s.
Proof.
  apply (proj1 (scanstring_facts (String.length s) s (Nat.le_refl _))).
Qed.

Lemma scanstring_raises (s : string) (e : exn) :
  scanstring s = Raise e -> e <> RecursionError.
Proof.
  intros H.
  destruct (proj2 (scanstring_facts (String.length s) s (Nat.le_refl _))
              e H) as [-> | ->]; discriminate.
Qed.

Lemma digits_length (s : string) :
  forall acc, String.length (snd (digits s acc)) <= String.length s.
Proof.
  induction s as [| c s IH]; intros acc; simpl; [lia |].
  destruct (Str.is_digit c); simpl; [| lia].
  apply Nat.le_trans with (String.length s); [apply IH | lia].
Qed.

Lemma integer_rest (s : string) (n : Z) (rest : string) :
  integer s = Some (n, rest) -> String.length rest < String.length s.
Proof.
  unfold integer.
  destruct (strip_prefix "-" s) as [s' |] eqn:E.
  - apply strip_prefix_length in E. simpl in E.
    destruct s' as [| c r]; [discriminate |].
    destruct (Ascii.eqb c "0"); [intros H; inv_ok; simpl in *; lia |].
    destruct (Str.is_digit c); [| discriminate].
    pose proof (digits_length r (Z.of_nat (nat_of_ascii c - 48))) as Hd.
    destruct (digits r _) as [m rest']. intros H. inv_ok.
    simpl in *. lia.
  - destruct s as [| c r]; [discriminate |].
    destruct (Ascii.eqb c "0"); [intros H; inv_ok; simpl in *; lia |].
    destruct (Str.is_digit c); [| discriminate].
    pose proof (digits_length r (Z.of_nat (nat_of_ascii c - 48))) as Hd.
    destruct (digits r _) as [m rest']. intros H. inv_ok.
    simpl in *. lia.
Qed.

Lemma literal_rest (s : string) (v : json) (rest : string) :
  literal s = Some (v, rest) -> String.length rest < String.length s.
Proof.
  unfold literal.
  destruct (strip_prefix "null" s) eqn:E1;
    [| destruct (strip_prefix "true" s) eqn:E2;
       [| destruct (strip_prefix "false" s) eqn:E3; [| discriminate]]];
    intros H; inversion H; subst;
    match goal with
    | E : strip_prefix _ _ = Some _ |- _ =>
        apply strip_prefix_length in E; simpl in E; lia
    end.
Qed.

Lemma number_rest (s : string) (v : json) (rest : string) :
  number s = Ok (v, rest) -> String.length rest < String.length s.
Proof.
  unfold number. destruct (integer s) as [[n r] |] eqn:E.
  - destruct (float_follows r); [discriminate |].
    intros H. inv_ok. now apply (integer_rest s n).
  - destruct (_ || _); discriminate.
Qed.

Lemma number_raises (s : string) (e : exn) :
  number s = Raise e -> e <> RecursionError.
Proof.
  unfold number. destruct (integer s) as [[n r] |].
  - destruct (float_follows r); intros H; inversion H; discriminate.
  - destruct (_ || _); intros H; inversion H; discriminate.
Qed.

(** A scan consumes at least one character. *)
Lemma scan_rest :
  forall fuel m s v rest,
    scan fuel m s = Ok (v, rest) -> String.length rest < String.length s.
Proof.
  induction fuel as [| fuel IH]; intros m s v rest H; [discriminate |].
  cbn [scan] in H. destruct m as [| acc | acc].
  - destruct s as [| c s']; [discriminate |]. cbn [String.length].
    destruct (Ascii.eqb c dquote).
    { bind_step H. inv_ok.
      match goal with
      | E : scanstring _ = Ok _ |- _ => apply scanstring_rest in E; lia
      end. }
    pose proof (skip_ws_length s') as Hws.
    destruct (Ascii.eqb c "{").
    { destruct (strip_prefix "}" (skip_ws s')) eqn:E.
      - inv_ok. apply strip_prefix_length in E. simpl in E. lia.
      - apply IH in H. lia. }
    destruct (Ascii.eqb c "[").
    { destruct (strip_prefix "]" (skip_ws s')) eqn:E.
      - inv_ok. apply strip_prefix_length in E. simpl in E. lia.
      - apply IH in H. lia. }
    destruct (literal (String c s')) as [[v' r] |] eqn:E.
    + inv_ok. apply literal_rest in E. simpl in E. lia.
    + apply number_rest in H. simpl in H. lia.
  - bind_step H.
    match goal with
    | E : scan fuel MValue s = Ok (_, ?r) |- _ =>
        apply IH in E; pose proof (skip_ws_length r) as Hws
    end.
    destruct (strip_prefix "]" (skip_ws _)) eqn:E1.
    + inv_ok. apply strip_prefix_length in E1. simpl in E1. lia.
    + destruct (strip_prefix "," (skip_ws _)) eqn:E2; [| discriminate].
      apply strip_prefix_length in E2. simpl in E2.
      apply IH in H.
      match goal with
      | _ : context [skip_ws ?t] |- _ =>
          lazymatch type of H with
          | context [skip_ws t] => pose proof (skip_ws_length t)
          end
      end.
      lia.
  - destruct (strip_prefix (String dquote EmptyString) s) as [s' |] eqn:E0;
      [| discriminate].
    apply strip_prefix_length in E0. simpl in E0.
    bind_step H.
    match goal with
    | E : scanstring s' = Ok (_, ?r) |- _ =>
        apply scanstring_rest in E; pose proof (skip_ws_length r) as Hws
    end.
    destruct (strip_prefix ":" (skip_ws _)) as [r2 |] eqn:E1;
      [| discriminate].
    apply strip_prefix_length in E1. simpl in E1.
    pose proof (skip_ws_length r2) as Hws2.
    bind_step H.
    match goal with
    | E : scan fuel MValue _ = Ok (_, ?r) |- _ =>
        apply IH in E; pose proof (skip_ws_length r) as Hws3
    end.
    cbv zeta in H.
    destruct (strip_prefix "}" (skip_ws _)) as [r4 |] eqn:E3.
    + inv_ok. apply strip_prefix_length in E3. simpl in E3. lia.
    + destruct (strip_prefix "," (skip_ws _)) as [r5 |] eqn:E4;
        [| discriminate].
      apply strip_prefix_length in E4. simpl in E4.
      apply IH in H. pose proof (skip_ws_length r5) as Hws5. lia.
Qed.

(** With fuel for twice the text, the scanner never uses it up. *)
Lemma scan_fuel :
  forall fuel m s,
    2 * String.length s + match m with MValue => 1 | _ => 2 end <= fuel ->
    forall e, scan fuel m s = Raise e -> e <> RecursionError.
Proof.
  induction fuel as [| fuel IH]; intros m s Hf e H;
    [destruct m; cbn [Py.bind] in Hf; lia |].
  cbn [scan] in H. destruct m as [| acc | acc].
  - destruct s as [| c s']; [inversion H; discriminate |].
    cbn [String.length] in Hf. pose proof (skip_ws_length s') as Hws.
    destruct (Ascii.eqb c dquote).
    { destruct (scanstring s') as [[body r] | e'] eqn:E; cbn [Py.bind] in H;
        [discriminate |].
      inversion H; subst. now apply (scanstring_raises s'). }
    destruct (Ascii.eqb c "{").
    { destruct (strip_prefix "}" (skip_ws s')); [discriminate |].
      refine (IH _ _ _ _ H); simpl; lia. }
    destruct (Ascii.eqb c "[").
    { destruct (strip_prefix "]" (skip_ws s')); [discriminate |].
      refine (IH _ _ _ _ H); simpl; lia. }
    destruct (literal (String c s')); [discriminate |].
    now apply (number_raises (String c s')).
  - destruct (scan fuel MValue s) as [[v r] | e'] eqn:E; cbn [Py.bind] in H.
    + apply scan_rest in E. pose proof (skip_ws_length r) as Hws.
      destruct (strip_prefix "]" (skip_ws r)); [discriminate |].
      destruct (strip_prefix "," (skip_ws r)) as [r' |] eqn:E2;
        [| inversion H; discriminate].
      apply strip_prefix_length in E2. simpl in E2.
      pose proof (skip_ws_length r') as Hws'.
      refine (IH _ _ _ _ H); simpl; lia.
    + inversion H; subst. refine (IH _ _ _ _ E); simpl; lia.
  - destruct (strip_prefix (String dquote EmptyString) s) as [s' |] eqn:E0;
      [| inversion H; discriminate].
    apply strip_prefix_length in E0. simpl in E0.
    destruct (scanstring s') as [[key r] | e'] eqn:E; cbn [Py.bind] in H;
      [| inversion H; subst; now apply (scanstring_raises s')].
    apply scanstring_rest in E. pose proof (skip_ws_length r) as Hws.
    destruct (strip_prefix ":" (skip_ws r)) as [r2 |] eqn:E1;
      [| inversion H; discriminate].
    apply strip_prefix_length in E1. simpl in E1.
    pose proof (skip_ws_length r2) as Hws2.
    destruct (scan fuel MValue (skip_ws r2)) as [[v r3] | e'] eqn:E2;
      cbn [Py.bind] in H; [| inversion H; subst; refine (IH _ _ _ _ E2); simpl; lia].
    apply scan_rest in E2. pose proof (skip_ws_length r3) as Hws3.
    destruct (strip_prefix "}" (skip_ws r3)); [discriminate |].
    destruct (strip_prefix "," (skip_ws r3)) as [r5 |] eqn:E4;
      [| inversion H; discriminate].
    apply strip_prefix_length in E4. simpl in E4.
    pose proof (skip_ws_length r5) as Hws5.
    refine (IH _ _ _ _ H); simpl; lia.
Qed.

(** [loads] never answers [RecursionError]: either a value or one of the
    exceptions of the decoder. *)
Lemma loads_fuel (s : string) : loads s <> Raise RecursionError.
Proof.
  unfold loads. intros H.
  pose proof (skip_ws_length s) as Hws.
  destruct (scan (2 * String.length s + 2) MValue (skip_ws s))
    as [[v rest] | e] eqn:E; cbn [Py.bind] in H.
  - destruct (skip_ws rest); discriminate.
  - inversion H; subst.
    refine (scan_fuel _ MValue (skip_ws s) _ _ E eq_refl). lia.
Qed.

End JsonProps.

(* ------------------------------------------------------------------ *)
(** ** The error analyser *)

Module ErroresProps.

Import Errores.

Section Facts.
Variable json_loads : string -> result json.

(** A response that is not valid JSON has no classifications. *)
Lemma raw_flags_items_valid (raw_response : json) (v h : bool) :
  raw_flags json_loads raw_response = Ok (v, h) -> h = true -> v = true.
Proof.
  unfold raw_flags. intros H Hh. subst h.
  destruct (truthy raw_response); [| inv_ok].
  destruct (loads_value json_loads raw_response) as [parsed | e].
  - apply bind_ok in H. destruct H as [has [_ H]].
    destruct has.
    + apply bind_ok in H. destruct H as [c [_ H]]. now inv_ok.
    + inv_ok.
  - destruct e; inv_ok.
Qed.

(** The flags of a record whose two fields are text, when the raw
    response is rejected by the decoder or decodes to an object: the
    classification does not raise on the records the validator writes
    with a textual reasoning. *)
Lemma flags_defined (o : obj) (razonamiento raw : string) :
  obj_lookup "razonamiento_modelo" o = Some (JStr razonamiento) ->
  obj_lookup "raw_response" o = Some (JStr raw) ->
  (json_loads raw = Raise JSONDecodeError
   \/ exists parsed, json_loads raw = Ok (JObj parsed)) ->
  exists f v h, flags json_loads (JObj o) = Ok (f, v, h).
Proof.
  intros Hr Hw Hl. unfold flags, py_get, obj_get. rewrite Hr, Hw. simpl.
  unfold raw_flags. destruct (truthy (JStr raw)); [| simpl; eauto].
  simpl. destruct Hl as [Hl | [parsed Hl]]; rewrite Hl; simpl; [eauto |].
  destruct (obj_mem "clasificaciones" parsed) eqn:Hm; simpl; [| eauto].
  unfold obj_mem, Dict.mem in Hm. unfold obj_lookup.
  destruct (Dict.lookup String.eqb "clasificaciones" parsed);
    [simpl; eauto | discriminate].
Qed.
End Facts.

Definition perfect_record : json :=
  JObj [("id", JStr "A");
        ("razonamiento_modelo", JStr "Robo de celular.");
        ("raw_response",
         JStr (Json.dq "{'razonamiento': 'Robo de celular.', 'clasificaciones': [{'codigo': '9', 'justificacion': 'robo'}]}"))].

(** A record as the validator writes it when the model answers with a
    [null] reasoning: no fallback marker, a raw response that is valid JSON
    and has a classification. *)
Definition null_reasoning_record : json :=
  JObj [("id", JStr "A");
        ("razonamiento_modelo", JNull);
        ("raw_response",
         JStr (Json.dq "{'razonamiento': null, 'clasificaciones': [{'codigo': '9', 'justificacion': 'robo'}]}"))].

(** C2, as stated, fails: not every record gets a label.  The reasoning of
    this record holds no fallback marker, its raw response is valid JSON
    with a non-empty list of classifications, so the table says Perfect;
    [classify_record] raises [AttributeError], since [None] has no
    [lower]. *)
Lemma null_reasoning_is_not_classified :
  classify_record Json.loads null_reasoning_record = Raise AttributeError
  /\ exists items,
      Json.loads
        (Json.dq "{'razonamiento': null, 'clasificaciones': [{'codigo': '9', 'justificacion': 'robo'}]}")
      = Ok (JObj [("razonamiento", JNull); ("clasificaciones", items)])
      /\ truthy items = true.
Proof.
  split; [vm_compute; reflexivity |].
  eexists. split; [vm_compute; reflexivity | reflexivity].
Qed.

(** C2, amended. On every record for which [classify_record] returns a
    label, the label is the one of the five-class truth table over three
    booleans read off the record: [f], a fallback marker in the reasoning,
    whatever its case; [v], a raw response that is not empty and decodes as
    JSON; [h], a decoded raw response that has a non-empty
    [clasificaciones].  No fallback, valid JSON and items give Perfect (A);
    fallback, valid JSON and items give Fallback Recoverable (B); fallback
    and invalid JSON give Fallback Truncated (C) whatever [h] is; no
    fallback with invalid JSON or no items gives Inconsistent (D); the
    remaining combination, fallback with valid JSON and no items, gives
    Other (E).  Such a record is an object with a textual reasoning. *)
Theorem classify_record_truth_table
  (json_loads : string -> result json) (record : json)
  (format_name : string) :
  classify_record json_loads record = Ok format_name ->
  exists (o : list (string * json)) (razonamiento : string) (f v h : bool),
    record = JObj o
    /\ obj_get "razonamiento_modelo" (JStr "") o = JStr razonamiento
    /\ f = Str.contains "fallback" (Str.lower razonamiento)
    /\ (v = true <->
        exists text parsed,
          obj_get "raw_response" (JStr "") o = JStr text
          /\ text <> EmptyString
          /\ json_loads text = Ok parsed)
    /\ (h = true <->
        exists text parsed items,
          obj_get "raw_response" (JStr "") o = JStr text
          /\ text <> EmptyString
          /\ json_loads text = Ok (JObj parsed)
          /\ obj_lookup "clasificaciones" parsed = Some items
          /\ truthy items = true)
    /\ (f = false -> v = true -> h = true -> format_name = formato_a)
    /\ (f = true -> v = true -> h = true -> format_name = formato_b)
    /\ (f = true -> v = false -> format_name = formato_c)
    /\ (f = false -> v = false \/ h = false -> format_name = formato_d)
    /\ (f = true -> v = true -> h = false -> format_name = formato_e).
Proof.
  unfold classify_record, flags. intros H.
  destruct record as [| b | z | s | l | o]; try discriminate H.
  cbn [py_get Py.bind] in H.
  destruct (obj_get "razonamiento_modelo" (JStr "") o)
    as [| b | z | razonamiento | l | o'] eqn:Er; try discriminate H.
  cbn [py_lower Py.bind] in H.
  set (f := Str.contains "fallback" (Str.lower razonamiento)) in *.
  destruct (raw_flags json_loads (obj_get "raw_response" (JStr "") o))
    as [[v h] | e] eqn:Eraw; [| discriminate H].
  cbn [Py.bind] in H. injection H as <-.
  exists o, razonamiento, f, v, h.
  split; [reflexivity |]. split; [exact Er |]. split; [reflexivity |].
  assert (Hv : v = true <->
               exists text parsed,
                 obj_get "raw_response" (JStr "") o = JStr text
                 /\ text <> EmptyString
                 /\ json_loads text = Ok parsed).
  { unfold raw_flags in Eraw.
    destruct (obj_get "raw_response" (JStr "") o)
      as [| b | z | text | l | o'] eqn:Ew;
      try (destruct (truthy _); [discriminate Eraw |];
           injection Eraw as <- <-;
           split; [discriminate | intros (? & ? & [=] & _)]).
    cbn [truthy] in Eraw.
    destruct (String.eqb text "") eqn:Ee; cbn [negb] in Eraw.
    - injection Eraw as <- <-. apply String.eqb_eq in Ee.
      split; [discriminate |].
      intros (t & p & [= <-] & Hne & _). contradiction.
    - apply String.eqb_neq in Ee. cbn [loads_value] in Eraw.
      destruct (json_loads text) as [parsed | e] eqn:El.
      + apply bind_ok in Eraw. destruct Eraw as (has & _ & Eraw).
        assert (v = true).
        { destruct has; [| now injection Eraw as <- _].
          apply bind_ok in Eraw. destruct Eraw as (c & _ & Eraw).
          now injection Eraw as <- _. }
        subst v. split; [| reflexivity]. intros _.
        exists text, parsed. auto.
      + destruct e; try discriminate Eraw. injection Eraw as <- <-.
        split; [discriminate |].
        intros (t & p & [= <-] & _ & Hl). rewrite El in Hl. discriminate. }
  assert (Hh : h = true <->
               exists text parsed items,
                 obj_get "raw_response" (JStr "") o = JStr text
                 /\ text <> EmptyString
                 /\ json_loads text = Ok (JObj parsed)
                 /\ obj_lookup "clasificaciones" parsed = Some items
                 /\ truthy items = true).
  { unfold raw_flags in Eraw.
    destruct (obj_get "raw_response" (JStr "") o)
      as [| b | z | text | l | o'] eqn:Ew;
      try (destruct (truthy _); [discriminate Eraw |];
           injection Eraw as <- <-;
           split; [discriminate | intros (? & ? & ? & [=] & _)]).
    cbn [truthy] in Eraw.
    destruct (String.eqb text "") eqn:Ee; cbn [negb] in Eraw.
    - injection Eraw as <- <-. apply String.eqb_eq in Ee.
      split; [discriminate |].
      intros (t & p & i & [= <-] & Hne & _). contradiction.
    - apply String.eqb_neq in Ee. cbn [loads_value] in Eraw.
      destruct (json_loads text) as [parsed | e] eqn:El.
      + destruct parsed as [| b | z | s | l | d]; try discriminate Eraw.
        * cbn [py_in Py.bind] in Eraw.
          destruct (Str.contains "clasificaciones" s);
            [discriminate Eraw |].
          injection Eraw as _ <-.
          split; [discriminate |].
          intros (t & p & i & [= <-] & _ & Hl & _).
          rewrite El in Hl. discriminate Hl.
        * cbn [py_in Py.bind] in Eraw.
          destruct (existsb _ l); [discriminate Eraw |].
          injection Eraw as _ <-.
          split; [discriminate |].
          intros (t & p & i & [= <-] & _ & Hl & _).
          rewrite El in Hl. discriminate Hl.
        * cbn [py_in Py.bind py_getitem] in Eraw.
          unfold obj_mem, Dict.mem in Eraw.
          fold (obj_lookup "clasificaciones" d) in Eraw.
          destruct (obj_lookup "clasificaciones" d) as [items |] eqn:Ei.
          -- cbn [Py.bind] in Eraw. injection Eraw as _ <-.
             split.
             ++ intros Ht. exists text, d, items. auto.
             ++ intros (t & p & i & [= <-] & _ & Hl & Hi & Ht).
                rewrite El in Hl. injection Hl as <-. rewrite Ei in Hi.
                now injection Hi as <-.
          -- injection Eraw as _ <-.
             split; [discriminate |].
             intros (t & p & i & [= <-] & _ & Hl & Hi & _).
             rewrite El in Hl. injection Hl as <-. rewrite Ei in Hi.
             discriminate.
      + destruct e; try discriminate Eraw. injection Eraw as _ <-.
        split; [discriminate |].
        intros (t & p & i & [= <-] & _ & Hl & _).
        rewrite El in Hl. discriminate. }
  split; [exact Hv |]. split; [exact Hh |].
  clear Hv Hh Eraw.
  repeat split.
  - intros -> -> ->. reflexivity.
  - intros -> -> ->. reflexivity.
  - intros -> ->. destruct h; reflexivity.
  - intros -> [-> | ->]; [destruct h | destruct v]; reflexivity.
  - intros -> -> ->. reflexivity.
Qed.

Lemma classify_record_truth_table_witness :
  classify_record Json.loads perfect_record = Ok formato_a
  /\ exists (o : list (string * json)) (razonamiento : string),
      perfect_record = JObj o
      /\ obj_get "razonamiento_modelo" (JStr "") o = JStr razonamiento.
Proof.
  assert (H : classify_record Json.loads perfect_record = Ok formato_a)
    by (vm_compute; reflexivity).
  split; [exact H |].
  destruct (classify_record_truth_table Json.loads perfect_record
              formato_a H)
    as (o & razonamiento & f & v & h & Ho & Hr & _).
  exists o, razonamiento. split; [exact Ho | exact Hr].
Defined.

End ErroresProps.

(* ------------------------------------------------------------------ *)
(** ** Binary64 numbers *)

Module F64Props.

Definition zero : spec_float := S754_zero false.

(** [float(n)], when it is in range. *)
Definition float_of (n : Z) : spec_float :=
  binary_normalize F64.prec F64.emax n 0 false.

(** Neither negative nor a negative zero (a NaN has no sign). *)
Definition nonneg (x : spec_float) : Prop :=
  match x with
  | S754_zero s | S754_infinity s | S754_finite s _ _ => s = false
  | S754_nan => True
  end.

Definition in_range (x : spec_float) : bool :=
  match x with
  | S754_infinity _ => false
  | _ => true
  end.

Lemma of_int_in_range (n : Z) :
  in_range (float_of n) = true -> F64.of_int n = Ok (float_of n).
Proof.
  unfold F64.of_int, float_of.
  destruct (binary_normalize F64.prec F64.emax n 0 false);
    [reflexivity | discriminate | reflexivity | reflexivity].
Qed.

Lemma of_int_overflow (n : Z) :
  in_range (float_of n) = false -> F64.of_int n = Raise OverflowError.
Proof.
  unfold F64.of_int, float_of.
  destruct (binary_normalize F64.prec F64.emax n 0 false);
    [discriminate | reflexivity | discriminate | discriminate].
Qed.

(** The powers of two up to [2 ** 1023] and the integers up to 1023 are
    in range. *)
Lemma powers_in_range_table :
  forallb (fun n => in_range (float_of (2 ^ Z.of_nat n))) (seq 0 1024) = true.
Proof. vm_compute. reflexivity. Qed.

Lemma attempts_in_range_table :
  forallb (fun n => in_range (float_of (Z.of_nat n))) (seq 0 1024) = true.
Proof. vm_compute. reflexivity. Qed.

Lemma of_int_power (n : nat) :
  n <= 1023 -> F64.of_int (2 ^ Z.of_nat n) = Ok (float_of (2 ^ Z.of_nat n)).
Proof.
  intros Hn. apply of_int_in_range.
  pose proof powers_in_range_table as H. rewrite forallb_forall in H.
  apply (H n). apply in_seq. lia.
Qed.

Lemma of_int_attempt (n : nat) :
  n <= 1023 -> F64.of_int (Z.of_nat n) = Ok (float_of (Z.of_nat n)).
Proof.
  intros Hn. apply of_int_in_range.
  pose proof attempts_in_range_table as H. rewrite forallb_forall in H.
  apply (H n). apply in_seq. lia.
Qed.

(** Rounding keeps the sign. *)
Lemma round_aux_nonneg (mx ex : Z) (lx : location) :
  nonneg (binary_round_aux F64.prec F64.emax false mx ex lx).
Proof.
  unfold binary_round_aux.
  destruct (shr_fexp F64.prec F64.emax mx ex lx) as [mrs' e'].
  destruct (shr_fexp F64.prec F64.emax _ e' loc_Exact) as [mrs'' e''].
  destruct (shr_m mrs''); [reflexivity | | exact I].
  destruct (Z.leb e'' _); reflexivity.
Qed.

Lemma float_of_nonneg (n : Z) : (0 <= n)%Z -> nonneg (float_of n).
Proof.
  intros Hn. unfold float_of, binary_normalize.
  destruct n as [| p | p]; [reflexivity | | lia].
  unfold binary_round. destruct (shl_align _ _ _). apply round_aux_nonneg.
Qed.

Lemma mul_nonneg (x y : spec_float) :
  nonneg x -> nonneg y -> nonneg (F64.mul x y).
Proof.
  destruct x as [sx | sx | | sx mx ex], y as [sy | sy | | sy my ey];
    simpl; intros Hx Hy; subst; try reflexivity; try exact I.
  apply round_aux_nonneg.
Qed.

(** [0 + x] and [x - 0] for a float without a negative sign. *)
Lemma add_zero_l (x : spec_float) : nonneg x -> F64.add zero x = x.
Proof. destruct x; simpl; intros H; subst; reflexivity. Qed.

Lemma sub_zero_r (x : spec_float) : nonneg x -> F64.sub x zero = x.
Proof. destruct x; simpl; intros H; subst; reflexivity. Qed.

End F64Props.

(* ------------------------------------------------------------------ *)
(** ** The validator *)

Module ValidadorProps.

Import Validador.

Section Batch.
Variable json_loads : string -> result json.
Variable exn_str : exn -> string.
Variable cfg : api_config.

(** The handler's record: no predicted code, the error flag set, the
    identifier of the case. *)
Lemma failed_record_shape (env : task_env) (case_data : obj) (e : exn) :
  let record := failed_record exn_str env case_data e in
  obj_lookup "id" record = Some (obj_get "id" (JStr "unknown") case_data)
  /\ obj_lookup "predicted_codes" record = Some (JList [])
  /\ obj_lookup "error" record = Some (JBool true).
Proof. repeat split. Qed.

(** Every record carries the identifier of its case. *)
Lemma process_single_case_id (env : task_env) (case_data : obj) :
  obj_lookup "id"
    (fst (process_single_case json_loads exn_str cfg env case_data))
  = Some (obj_get "id" (JStr "unknown") case_data).
Proof.
  unfold process_single_case, try_single_case.
  destruct (get_validation_prompt env _) as [[system_prompt user_prompt] | e];
    [| reflexivity].
  destruct (generate_prediction_api cfg _ _) as [[raw_response | e] trace];
    [| reflexivity].
  cbn [Py.bind].
  destruct (parse_response json_loads raw_response) as [[codes r] | e];
    reflexivity.
Qed.

(** The result at each position is the record of the case at that
    position. *)
Lemma gather_from_nth (envs : nat -> task_env) (batch_data : list obj) :
  forall k i case_data,
    nth_error batch_data i = Some case_data ->
    nth_error (gather_from json_loads exn_str cfg envs k batch_data) i
    = Some (fst (process_single_case json_loads exn_str cfg
                   (envs (k + i)) case_data)).
Proof.
  induction batch_data as [| c rest IH]; intros k i case_data H.
  - destruct i; discriminate.
  - destruct i as [| i]; simpl in *.
    + inversion H; subst. now rewrite Nat.add_0_r.
    + rewrite (IH (S k) i case_data H). now rewrite Nat.add_succ_r.
Qed.

Lemma gather_from_length (envs : nat -> task_env) (batch_data : list obj) :
  forall k,
    List.length (gather_from json_loads exn_str cfg envs k batch_data)
    = List.length batch_data.
Proof.
  induction batch_data as [| c rest IH]; intros k; simpl; [| rewrite IH];
    reflexivity.
Qed.
End Batch.

(** C1. The batch file written by [save_batch_results] for the results of
    [process_batch_async] has exactly one line per submitted case, in the
    order of the cases: the line at position [i] is the record of case [i],
    which carries the identifier of the case, and is the record of the
    [try] block when it succeeds and otherwise the failure record, with no
    predicted code and the error flag set.  [process_single_case] is a
    total function into records: no exception leaves it. *)
Theorem batch_file_one_record_per_case
  (json_loads : string -> result json) (exn_str : exn -> string)
  (cfg : api_config) (envs : nat -> task_env) (batch_data : list obj)
  (stamp : string) (batch_id : Z) :
  let results := process_batch_async json_loads exn_str cfg envs batch_data in
  let lines := snd (save_batch_results stamp results batch_id) in
  List.length lines = List.length batch_data
  /\ forall i case_data,
      nth_error batch_data i = Some case_data ->
      exists record,
        nth_error results i = Some record
        /\ nth_error lines i
           = Some (Show.dumps (JObj record) ++ newline)%string
        /\ obj_lookup "id" record
           = Some (obj_get "id" (JStr "unknown") case_data)
        /\ match fst (try_single_case json_loads cfg (envs i) case_data) with
           | Ok r => record = r
           | Raise e =>
               record = failed_record exn_str (envs i) case_data e
               /\ obj_lookup "predicted_codes" record = Some (JList [])
               /\ obj_lookup "error" record = Some (JBool true)
           end.
Proof.
  intros results lines. subst results lines. unfold save_batch_results.
  cbn [snd]. split.
  - rewrite length_map. apply gather_from_length.
  - intros i case_data H.
    exists (fst (process_single_case json_loads exn_str cfg (envs i)
                   case_data)).
    pose proof (gather_from_nth json_loads exn_str cfg envs batch_data
                  0 i case_data H) as Hn.
    rewrite Nat.add_0_l in Hn. unfold process_batch_async.
    repeat split.
    + exact Hn.
    + rewrite nth_error_map, Hn. reflexivity.
    + apply process_single_case_id.
    + unfold process_single_case.
      destruct (try_single_case json_loads cfg (envs i) case_data)
        as [[r | e] trace]; simpl; [reflexivity |].
      repeat split.
Qed.

(** The sentinel of exhausted retries is a JSON object whose reasoning
    starts with ERROR and whose classifications are empty. *)
Lemma max_retries_sentinel_shape :
  exists razonamiento,
    Json.loads max_retries_sentinel
    = Ok (JObj [("razonamiento", JStr razonamiento);
                ("clasificaciones", JList [])])
    /\ String.prefix "ERROR" razonamiento = true.
Proof. eexists. split; vm_compute; reflexivity. Qed.

(** An endpoint that answers every attempt with a rate-limit error. *)
Definition always_rate_limited (endpoint : nat -> api_outcome) : Prop :=
  forall attempt, exists error_type error_text,
    endpoint attempt = Failure error_type error_text
    /\ is_rate_limit error_type (Str.lower error_text) = true.

(** The value of [0 + (attempt * 0.5 - 0) * u], the jitter of an attempt
    for the draw [u]. *)
Definition jitter_value (attempt : nat) (u : spec_float) : spec_float :=
  F64.add F64Props.zero
    (F64.mul
       (F64.sub (F64.mul (F64Props.float_of (Z.of_nat attempt)) F64.half)
          F64Props.zero)
       u).

Lemma jitter_ok (attempt : nat) (u : spec_float) :
  attempt <= 1023 -> jitter attempt u = Ok (jitter_value attempt u).
Proof.
  intros Ha. unfold jitter. rewrite (F64Props.of_int_attempt attempt Ha).
  reflexivity.
Qed.

Lemma backoff_power (attempt : nat) :
  backoff attempt = (2 ^ Z.of_nat (S attempt))%Z
  /\ (backoff attempt * 2 = 2 ^ Z.of_nat (S (S attempt)))%Z.
Proof.
  unfold backoff, base_delay. rewrite !Nat2Z.inj_succ.
  rewrite (Z.pow_succ_r 2 (Z.succ (Z.of_nat attempt))) by lia.
  split; [reflexivity | lia].
Qed.

(** The wait of an attempt up to 1022: past 1021 the doubled backoff of a
    network error no longer converts. *)
Lemma wait_time_value (cfg : api_config) (attempt : nat)
  (error_type error_str : string) (u : spec_float) :
  attempt <= 1022 ->
  wait_time cfg attempt error_type error_str u
  = let wait :=
      F64.add (F64Props.float_of (backoff attempt))
        (jitter_value attempt u) in
    if is_rate_limit error_type error_str then
      Ok (PyInt (retry_delay cfg + Z.of_nat attempt * 15)%Z)
    else if is_timeout error_str then Ok (PyFloat wait)
    else if is_network error_str then
      if Nat.leb attempt 1021
      then Ok (PyFloat (F64.add (F64Props.float_of (backoff attempt * 2))
                          (jitter_value attempt u)))
      else Raise OverflowError
    else Ok (PyFloat wait).
Proof.
  intros Ha. unfold wait_time. rewrite jitter_ok by lia. cbn [Py.bind].
  destruct (backoff_power attempt) as [Hb Hb2]. rewrite Hb2, Hb.
  rewrite (F64Props.of_int_power (S attempt)) by lia. cbn [Py.bind].
  cbv zeta.
  destruct (is_rate_limit error_type error_str); [reflexivity |].
  destruct (is_timeout error_str); [reflexivity |].
  destruct (is_network error_str); [| reflexivity].
  destruct (Nat.leb attempt 1021) eqn:E.
  - apply Nat.leb_le in E.
    now rewrite (F64Props.of_int_power (S (S attempt))) by lia.
  - apply Nat.leb_gt in E. assert (attempt = 1022) by lia. subst attempt.
    now rewrite F64Props.of_int_overflow by (vm_compute; reflexivity).
Qed.

Lemma wait_time_ok (cfg : api_config) (attempt : nat)
  (error_type error_str : string) (u : spec_float) :
  attempt <= 1021 ->
  exists w, wait_time cfg attempt error_type error_str u = Ok w.
Proof.
  intros Ha. rewrite wait_time_value by lia. cbv zeta.
  replace (Nat.leb attempt 1021) with true
    by (symmetry; now apply Nat.leb_le).
  destruct (is_rate_limit _ _); [eauto |].
  destruct (is_timeout _); [eauto |].
  destruct (is_network _); eauto.
Qed.

(** C4. With [max_retries = 3] and an endpoint that raises a rate-limit
    error at every attempt, [generate_prediction_api] makes exactly three
    requests, waits the rate-limit delay after the first two, and returns
    the sentinel text, a JSON object with an ERROR reasoning and no
    classification; it returns a value, no exception leaves it. *)
Theorem retries_exhausted_sentinel
  (cfg : api_config) (endpoint : nat -> api_outcome)
  (random : nat -> spec_float) :
  max_retries cfg = 3%Z ->
  always_rate_limited endpoint ->
  fst (generate_prediction_api cfg endpoint random) = Ok max_retries_sentinel
  /\ snd (generate_prediction_api cfg endpoint random)
     = [Request (current_timeout cfg 0);
        Sleep (PyInt (retry_delay cfg + 0));
        Request (current_timeout cfg 1);
        Sleep (PyInt (retry_delay cfg + 15));
        Request (current_timeout cfg 2)]
  /\ List.length
       (requests (snd (generate_prediction_api cfg endpoint random))) = 3
  /\ exists raw_response razonamiento,
       fst (generate_prediction_api cfg endpoint random) = Ok raw_response
       /\ Json.loads raw_response
          = Ok (JObj [("razonamiento", JStr razonamiento);
                      ("clasificaciones", JList [])])
       /\ String.prefix "ERROR" razonamiento = true.
Proof.
  intros Hmax Hfail.
  destruct (Hfail 0) as (t0 & m0 & E0 & R0).
  destruct (Hfail 1) as (t1 & m1 & E1 & R1).
  destruct (Hfail 2) as (t2 & m2 & E2 & R2).
  assert (Hrun : generate_prediction_api cfg endpoint random
                 = (Ok max_retries_sentinel,
                    [Request (current_timeout cfg 0);
                     Sleep (PyInt (retry_delay cfg + 0));
                     Request (current_timeout cfg 1);
                     Sleep (PyInt (retry_delay cfg + 15));
                     Request (current_timeout cfg 2)])).
  { unfold generate_prediction_api. rewrite Hmax.
    change (Z.to_nat 3) with 3. cbn [seq attempts_loop].
    rewrite E0, E1, E2, Hmax.
    rewrite !wait_time_value by lia. cbv zeta. rewrite R0, R1.
    reflexivity. }
  rewrite Hrun. cbn [fst snd]. repeat split.
  destruct max_retries_sentinel_shape as (razonamiento & Hshape).
  now exists max_retries_sentinel, razonamiento.
Qed.

Lemma retries_exhausted_sentinel_witness :
  fst (generate_prediction_api
         {| max_retries := 3; timeout := 90; retry_delay := 60 |}
         (fun _ => Failure "RateLimitError" "Error code: 429")
         (fun _ => F64Props.zero))
  = Ok max_retries_sentinel.
Proof.
  apply (retries_exhausted_sentinel
           {| max_retries := 3; timeout := 90; retry_delay := 60 |}
           (fun _ => Failure "RateLimitError" "Error code: 429")
           (fun _ => F64Props.zero)).
  - reflexivity.
  - intros attempt. exists "RateLimitError", "Error code: 429".
    split; reflexivity.
Defined.

Section Timing.
Variable cfg : api_config.
Variable endpoint : nat -> api_outcome.
Variable random : nat -> spec_float.

(** The trace of the loop from attempt [k]: when the [i] attempts from [k]
    on fail, the request of attempt [k + i] is made with its timeout, and
    when that attempt fails too and is not the last, the wait that follows
    is the one of [wait_time]. *)
Lemma attempts_loop_trace :
  forall i k n,
    i < n ->
    k + i <= 1022 ->
    (Z.of_nat (k + i) < max_retries cfg)%Z ->
    (forall j, j < i ->
               exists error_type error_text,
                 endpoint (k + j) = Failure error_type error_text) ->
    nth_error
      (requests (snd (attempts_loop cfg endpoint random (seq k n)))) i
    = Some (current_timeout cfg (k + i))
    /\ forall error_type error_text w,
        endpoint (k + i) = Failure error_type error_text ->
        (Z.of_nat (k + i) < max_retries cfg - 1)%Z ->
        wait_time cfg (k + i) error_type (Str.lower error_text)
          (random (k + i)) = Ok w ->
        nth_error
          (sleeps (snd (attempts_loop cfg endpoint random (seq k n)))) i
        = Some w.
Proof.
  induction i as [| i IH]; intros k n Hn Hk Hmax Hfail.
  - destruct n as [| n]; [lia |]. rewrite Nat.add_0_r in *.
    cbn [seq attempts_loop].
    destruct (endpoint k) as [content | ty msg] eqn:E.
    + split; [reflexivity | intros ? ? ? H; discriminate H].
    + destruct (Z.of_nat k <? max_retries cfg - 1)%Z eqn:Hlast.
      * destruct (wait_time cfg k ty (Str.lower msg) (random k))
          as [w | e] eqn:Hw.
        -- destruct (attempts_loop cfg endpoint random (seq (S k) n))
             as [r trace].
           split; [reflexivity |].
           intros ty' msg' w' H _ Hw'. inversion H; subst.
           rewrite Hw in Hw'. now inversion Hw'.
        -- split; [reflexivity |].
           intros ty' msg' w' H _ Hw'. inversion H; subst.
           rewrite Hw in Hw'. discriminate.
      * split; [reflexivity |].
        intros ? ? ? _ H. apply Z.ltb_ge in Hlast. lia.
  - destruct n as [| n]; [lia |]. cbn [seq attempts_loop].
    destruct (Hfail 0) as (ty & msg & E); [lia |].
    rewrite Nat.add_0_r in E. rewrite E.
    assert (Hlast : (Z.of_nat k <? max_retries cfg - 1)%Z = true)
      by (apply Z.ltb_lt; lia).
    rewrite Hlast.
    destruct (wait_time_ok cfg k ty (Str.lower msg) (random k))
      as [w Hw]; [lia |].
    rewrite Hw.
    specialize (IH (S k) n).
    destruct (attempts_loop cfg endpoint random (seq (S k) n))
      as [r trace].
    replace (k + S i) with (S k + i) in * by lia.
    cbn [snd requests sleeps flat_map app nth_error].
    apply IH; [lia | lia | lia |].
    intros j Hj. replace (S k + j) with (k + S j) by lia.
    apply Hfail. lia.
Qed.
End Timing.

(** A value that [random()] can return: not negative and below one. *)
Definition unit_draw (u : spec_float) : Prop :=
  F64Props.nonneg u /\ SFltb u (F64Props.float_of 1) = true.

(** For a draw without a negative sign the jitter is the product of
    [attempt * 0.5] and the draw, and the first attempt has none. *)
Lemma jitter_product (attempt : nat) (u : spec_float) :
  F64Props.nonneg u ->
  jitter_value attempt u
  = F64.mul (F64.mul (F64Props.float_of (Z.of_nat attempt)) F64.half) u.
Proof.
  intros Hu. unfold jitter_value.
  assert (Hs : F64Props.nonneg
                 (F64.mul (F64Props.float_of (Z.of_nat attempt)) F64.half)).
  { apply F64Props.mul_nonneg; [| reflexivity].
    apply F64Props.float_of_nonneg. lia. }
  rewrite F64Props.sub_zero_r by exact Hs.
  apply F64Props.add_zero_l. now apply F64Props.mul_nonneg.
Qed.

Lemma first_attempt_has_no_jitter (u : spec_float) :
  unit_draw u -> jitter_value 0 u = F64Props.zero.
Proof.
  intros [Hn Hlt].
  destruct u as [s | s | | s m e]; simpl in Hn; subst;
    try reflexivity; discriminate Hlt.
Qed.

(** C6, as stated, fails for lack of range: the backoff is an [int] and
    the jitter a [float], and their sum converts the backoff to a [float]
    first.  With a budget of 1025 attempts and an endpoint that always
    times out, the attempt 1023 is not the last, its backoff [2 ** 1024] is
    too large to convert, and [OverflowError] leaves
    [generate_prediction_api] after 1024 requests: that attempt is followed
    by no wait. *)
Lemma wait_overflows_at_attempt_1023 :
  let run :=
    generate_prediction_api
      {| max_retries := 1025; timeout := 90; retry_delay := 60 |}
      (fun _ => Failure "APITimeoutError" "Request timed out.")
      (fun _ => F64.half) in
  fst run = Raise OverflowError
  /\ List.length (requests (snd run)) = 1024
  /\ List.length (sleeps (snd run)) = 1023.
Proof. vm_compute. repeat split. Qed.

(** The sum is a binary64 sum, so the wait is not always the backoff plus
    the jitter: at attempt 1 with the draw [2 ** -53] the jitter is
    [2 ** -54] and the wait is [4.0]. *)
Example wait_is_rounded :
  let u := S754_finite false 4503599627370496 (-105) in
  jitter 1 u = Ok (S754_finite false 4503599627370496 (-106))
  /\ wait_time {| max_retries := 3; timeout := 90; retry_delay := 60 |}
       1 "APITimeoutError" "request timed out." u
     = Ok (PyFloat (S754_finite false 4503599627370496 (-50))).
Proof. vm_compute. split; reflexivity. Qed.

(** C6, amended.  For every attempt [i] up to 1022 that is made (the
    attempts before it failed), the request times out after
    [base_timeout + i * 30] seconds.  When attempt [i] fails and is not the
    last, the wait before the next attempt is: the configured retry delay
    plus [i * 15], an [int], for a rate-limit error; the binary64 sum of
    [base_delay ** (i + 1)] and the jitter for a timeout or an unclassified
    error; the binary64 sum of twice [base_delay ** (i + 1)] and the same
    jitter for a network or connection error, up to attempt 1021.  The
    jitter is [random.uniform(0, i * 0.5)], that is
    [0 + (i * 0.5 - 0) * random()] in binary64: the product of [i * 0.5]
    and the draw when the draw has no negative sign, and zero at the first
    attempt. *)
Theorem retry_timing_policy
  (cfg : api_config) (endpoint : nat -> api_outcome)
  (random : nat -> spec_float) (i : nat) :
  i <= 1022 ->
  (Z.of_nat i < max_retries cfg)%Z ->
  (forall j, j < i ->
             exists error_type error_text,
               endpoint j = Failure error_type error_text) ->
  let trace := snd (generate_prediction_api cfg endpoint random) in
  let float n := binary_normalize 53 1024 n 0 false in
  let half := S754_finite false 4503599627370496 (-53) in
  let zero := S754_zero false in
  let scale := SFmul 53 1024 (float (Z.of_nat i)) half in
  let jit :=
    SFadd 53 1024 zero
      (SFmul 53 1024 (SFsub 53 1024 scale zero) (random i)) in
  let backoff_term := (2 ^ (Z.of_nat i + 1))%Z in
  nth_error (requests trace) i = Some (timeout cfg + Z.of_nat i * 30)%Z
  /\ (F64Props.nonneg (random i) -> jit = SFmul 53 1024 scale (random i))
  /\ (i = 0 -> unit_draw (random i) -> jit = zero)
  /\ forall error_type error_text,
      endpoint i = Failure error_type error_text ->
      (Z.of_nat i < max_retries cfg - 1)%Z ->
      let error_str := Str.lower error_text in
      (is_rate_limit error_type error_str = true ->
       nth_error (sleeps trace) i
       = Some (PyInt (retry_delay cfg + Z.of_nat i * 15)))
      /\ (is_rate_limit error_type error_str = false ->
          is_timeout error_str = true \/ is_network error_str = false ->
          nth_error (sleeps trace) i
          = Some (PyFloat (SFadd 53 1024 (float backoff_term) jit)))
      /\ (is_rate_limit error_type error_str = false ->
          is_timeout error_str = false ->
          is_network error_str = true ->
          i <= 1021 ->
          nth_error (sleeps trace) i
          = Some (PyFloat (SFadd 53 1024 (float (backoff_term * 2)%Z) jit))).
Proof.
  intros Hi Hmax Hfail trace float half zero scale jit backoff_term.
  subst trace. unfold generate_prediction_api.
  destruct (attempts_loop_trace cfg endpoint random i 0
              (Z.to_nat (max_retries cfg))) as [Hreq Hsleep];
    [lia | exact Hi | exact Hmax | exact Hfail |].
  cbn [Nat.add] in Hreq, Hsleep.
  split; [exact Hreq |].
  split; [exact (jitter_product i (random i)) |].
  split; [intros ->; exact (first_attempt_has_no_jitter (random 0)) |].
  intros ty msg E Hlast. set (error_str := Str.lower msg).
  pose proof (wait_time_value cfg i ty error_str (random i) Hi) as Hw.
  cbv zeta in Hw.
  repeat split.
  - intros Hr. apply (Hsleep ty msg _ E Hlast). fold error_str.
    now rewrite Hw, Hr.
  - intros Hr Hor. apply (Hsleep ty msg _ E Hlast). fold error_str.
    rewrite Hw, Hr. destruct Hor as [-> | Hnet]; [reflexivity |].
    rewrite Hnet. destruct (is_timeout error_str); reflexivity.
  - intros Hr Ht Hn Hle. apply (Hsleep ty msg _ E Hlast). fold error_str.
    rewrite Hw, Hr, Ht, Hn.
    replace (Nat.leb i 1021) with true by (symmetry; now apply Nat.leb_le).
    reflexivity.
Qed.

Lemma retry_timing_policy_witness :
  let trace :=
    snd (generate_prediction_api
           {| max_retries := 3; timeout := 90; retry_delay := 60 |}
           (fun _ => Failure "APIConnectionError" "Connection error.")
           (fun _ => F64.half)) in
  nth_error (requests trace) 1 = Some 120%Z
  /\ nth_error (sleeps trace) 1
     = Some (PyFloat (S754_finite false 4644337115725824 (-49))).
Proof.
  pose proof (retry_timing_policy
                {| max_retries := 3; timeout := 90; retry_delay := 60 |}
                (fun _ => Failure "APIConnectionError" "Connection error.")
                (fun _ => F64.half) 1) as H.
  cbv zeta in H.
  destruct H as (Hreq & _ & _ & Hsleep).
  - lia.
  - reflexivity.
  - intros j _. exists "APIConnectionError", "Connection error.".
    reflexivity.
  - split; [exact Hreq |].
    destruct (Hsleep "APIConnectionError" "Connection error." eq_refl
                ltac:(simpl; lia)) as (_ & _ & Hnet).
    exact (Hnet eq_refl eq_refl eq_refl ltac:(lia)).
Defined.

(** The waits of the three attempts of that run: a connection error
    doubles the backoff term, and the first attempt has no jitter: [4.0]
    and [8.25] seconds. *)
Example connection_error_waits :
  sleeps
    (snd (generate_prediction_api
            {| max_retries := 3; timeout := 90; retry_delay := 60 |}
            (fun _ => Failure "APIConnectionError" "Connection error.")
            (fun _ => F64.half)))
  = [PyFloat (S754_finite false 4503599627370496 (-50));
     PyFloat (S754_finite false 4644337115725824 (-49))].
Proof. vm_compute. reflexivity. Qed.

(** *** The status of a run *)

Section RunFacts.
Variable json_loads : string -> result json.
Variable exn_str : exn -> string.
Variable cfg : api_config.

(** The loop stops at the batch during which the operator interrupts. *)
Lemma batches_loop_interrupted (env : run_env) (kb : knowledge_base)
  (data : list obj) (batch_size total_cases : Z) (k : nat) :
  interrupt_at env = Some k ->
  forall batches dir saved,
    In k batches ->
    fst (fst (batches_loop json_loads exn_str cfg env kb data batch_size
                total_cases batches dir saved)) = true.
Proof.
  intros Hk. induction batches as [| b rest IH]; intros dir saved Hin.
  - destruct Hin.
  - cbn [batches_loop]. unfold interrupted_in. rewrite Hk.
    destruct (Nat.eqb k b) eqn:E; [reflexivity |].
    apply IH. destruct Hin as [-> | Hin]; [| exact Hin].
    rewrite Nat.eqb_refl in E. discriminate.
Qed.

(** Without an interrupt the loop runs every batch. *)
Lemma batches_loop_not_interrupted (env : run_env) (kb : knowledge_base)
  (data : list obj) (batch_size total_cases : Z) :
  interrupt_at env = None ->
  forall batches dir saved,
    fst (fst (batches_loop json_loads exn_str cfg env kb data batch_size
                total_cases batches dir saved)) = false.
Proof.
  intros Hk. induction batches as [| b rest IH]; intros dir saved.
  - reflexivity.
  - cbn [batches_loop]. unfold interrupted_in. rewrite Hk. apply IH.
Qed.

(** The run gets as far as the batch loop: the knowledge base loads with
    the expected version, the clean file yields the cases [data], the batch
    size is not zero, the operator does not decline and the validator is
    built. *)
Definition reaches_loop (env : run_env) (batch_size : option Z)
  (auto_confirm : bool) (data : list obj) : Prop :=
  (exists kb, loaded_kb env = Ok kb /\ version_mismatch env kb = false)
  /\ (exists n, load_clean_data json_loads (clean_file env) = Ok (data, n))
  /\ data <> []
  /\ effective_batch_size env batch_size <> 0%Z
  /\ (auto_confirm = true \/ declines (typed env) = false)
  /\ init_error env = None.

Lemma run_no_data (env : run_env) (batch_size : option Z)
  (auto_confirm : bool) (kb : knowledge_base) (n : nat) :
  loaded_kb env = Ok kb ->
  version_mismatch env kb = false ->
  load_clean_data json_loads (clean_file env) = Ok ([], n) ->
  fst (run_validation_async json_loads exn_str cfg env batch_size
         auto_confirm) = NoData.
Proof.
  intros Hkb Hv Hd. unfold run_validation_async.
  rewrite Hkb, Hv, Hd. reflexivity.
Qed.

Lemma run_loop (env : run_env) (batch_size : option Z)
  (auto_confirm : bool) (data : list obj) :
  reaches_loop env batch_size auto_confirm data ->
  exists kb dir,
    let bs := effective_batch_size env batch_size in
    let total := Z.of_nat (List.length data) in
    fst (run_validation_async json_loads exn_str cfg env batch_size
           auto_confirm)
    = match batches_loop json_loads exn_str cfg env kb data bs total
              (seq 0 (Z.to_nat (num_batches total bs))) dir 0 with
      | (true, _, _) => Cancelled
      | (false, _, _) =>
          if Qeq_bool (elapsed_seconds env) 0
          then Failed ZeroDivisionError else Completed
      end.
Proof.
  intros ((kb & Hkb & Hv) & (n & Hd) & Hne & Hbs & Hconf & Hinit).
  exists kb.
  exists (backup_old_files
            (match lotes_dir env with Some d => d | None => [] end)).
  cbv zeta. unfold run_validation_async.
  rewrite Hkb, Hv, Hd, Hinit.
  destruct data as [| c data]; [contradiction |].
  apply Z.eqb_neq in Hbs. rewrite Hbs.
  assert (Hc : negb auto_confirm && declines (typed env) = false)
    by (destruct Hconf as [-> | ->]; [reflexivity | apply andb_false_r]).
  rewrite Hc.
  match goal with
  | |- context [batches_loop ?a ?b ?c ?d ?e ?f ?g ?h ?i ?j ?k] =>
      destruct (batches_loop a b c d e f g h i j k) as [[[|] dir2] saved]
  end; [reflexivity |].
  destruct (Qeq_bool (elapsed_seconds env) 0); reflexivity.
Qed.

(** An interrupt at the [await] of a batch cancels the coroutine: it
    returns no value. *)
Lemma run_interrupted (env : run_env) (batch_size : option Z)
  (auto_confirm : bool) (data : list obj) (k : nat) :
  reaches_loop env batch_size auto_confirm data ->
  interrupt_at env = Some k ->
  k < Z.to_nat (num_batches (Z.of_nat (List.length data))
                  (effective_batch_size env batch_size)) ->
  fst (run_validation_async json_loads exn_str cfg env batch_size
         auto_confirm) = Cancelled.
Proof.
  intros Hreach Hk Hlt.
  destruct (run_loop env batch_size auto_confirm data Hreach)
    as (kb & dir & Hrun).
  cbv zeta in Hrun. rewrite Hrun.
  pose proof (batches_loop_interrupted env kb data
                (effective_batch_size env batch_size)
                (Z.of_nat (List.length data)) k Hk
                (seq 0 (Z.to_nat (num_batches (Z.of_nat (List.length data))
                                    (effective_batch_size env batch_size))))
                dir 0) as Hflag.
  destruct (batches_loop _ _ _ _ _ _ _ _ _ _ _) as [[flag d] sv].
  cbn [fst] in Hflag. rewrite Hflag; [reflexivity |].
  apply in_seq. lia.
Qed.

Lemma run_completed (env : run_env) (batch_size : option Z)
  (auto_confirm : bool) (data : list obj) :
  reaches_loop env batch_size auto_confirm data ->
  interrupt_at env = None ->
  Qeq_bool (elapsed_seconds env) 0 = false ->
  fst (run_validation_async json_loads exn_str cfg env batch_size
         auto_confirm) = Completed.
Proof.
  intros Hreach Hk Hclock.
  destruct (run_loop env batch_size auto_confirm data Hreach)
    as (kb & dir & Hrun).
  cbv zeta in Hrun. rewrite Hrun.
  pose proof (batches_loop_not_interrupted env kb data
                (effective_batch_size env batch_size)
                (Z.of_nat (List.length data)) Hk
                (seq 0 (Z.to_nat (num_batches (Z.of_nat (List.length data))
                                    (effective_batch_size env batch_size))))
                dir 0) as Hflag.
  destruct (batches_loop _ _ _ _ _ _ _ _ _ _ _) as [[flag d] sv].
  cbn [fst] in Hflag. rewrite Hflag, Hclock. reflexivity.
Qed.

(** The run gets as far as the confirmation prompt. *)
Definition reaches_prompt (env : run_env) (batch_size : option Z)
  (data : list obj) : Prop :=
  (exists kb, loaded_kb env = Ok kb /\ version_mismatch env kb = false)
  /\ (exists n, load_clean_data json_loads (clean_file env) = Ok (data, n))
  /\ data <> []
  /\ effective_batch_size env batch_size <> 0%Z.

Lemma run_declined (env : run_env) (batch_size : option Z)
  (data : list obj) :
  reaches_prompt env batch_size data ->
  declines (typed env) = true ->
  run_validation_async json_loads exn_str cfg env batch_size false
  = (Declined, match lotes_dir env with Some d => d | None => [] end).
Proof.
  intros ((kb & Hkb & Hv) & (n & Hd) & Hne & Hbs) Hno.
  unfold run_validation_async. rewrite Hkb, Hv, Hd.
  destruct data as [| c data]; [contradiction |].
  apply Z.eqb_neq in Hbs. rewrite Hbs, Hno. reflexivity.
Qed.
End RunFacts.

(** A clean file of one case, as [1_data_processor.py] writes it. *)
Definition clean_line (id observacion : string) (codigos ids : list string)
  : string :=
  Show.dumps
    (JObj [("id", JStr id);
           ("messages",
            JList [JObj [("role", JStr "system"); ("content", JStr "P0P")];
                   JObj [("role", JStr "user");
                         ("content", JStr observacion)];
                   JObj [("role", JStr "assistant");
                         ("content",
                          JStr (Show.dumps
                                  (JObj [("codigos_delito", strs codigos);
                                         ("ids_delito_originales",
                                          strs ids)])))]])]).

(** A quiet world: the knowledge base loads, the endpoint answers at once
    with one classification, nobody interrupts. *)
Definition quiet_env (clean_lines : list string) : run_env :=
  {| prompt_version := JStr "3";
     loaded_kb :=
       Ok {| kb_version := Some (JStr "3");
             kb_prompt := fun observacion =>
                            Ok ("sistema", Show.py_str observacion) |};
     clean_file := Some clean_lines;
     config_batch_size := 100;
     typed := EmptyString;
     lotes_dir := Some [];
     init_error := None;
     interrupt_at := None;
     endpoint_of := fun _ _ _ _ _ =>
       Response (Json.dq "{'razonamiento': 'Robo.', 'clasificaciones': [{'codigo': '9', 'justificacion': 'Robo de celular.'}]}");
     random_of := fun _ _ _ => F64Props.zero;
     now_of := fun _ _ => "2025-12-29T10:00:00";
     stamp_of := fun _ => "20251229_1000";
     elapsed_seconds := 1%Q |}.

Definition default_cfg : api_config :=
  {| max_retries := 3; timeout := 90; retry_delay := 60 |}.

(** The text of exceptions, for runs in which none is raised. *)
Definition no_text (e : exn) : string := EmptyString.

(** C9, as stated, fails: a run over an empty case list and a run that
    processes its only batch reach different [return] statements, no data
    and completed, and both return [True]. *)
Lemma no_data_and_completed_return_the_same :
  fst (run_validation_async Json.loads no_text default_cfg
         (quiet_env []) None true) = NoData
  /\ fst (run_validation_async Json.loads no_text default_cfg
            (quiet_env [clean_line "A" "me robaron el celular" ["9"] ["d1"]])
            None true) = Completed
  /\ returned NoData = returned Completed.
Proof. repeat split; vm_compute; reflexivity. Qed.

(** C9, amended. [run_validation_async] returns a boolean.  It is [True]
    when the case list is empty and when every batch was processed (the
    time elapsed not being zero), and [False] when the operator declines
    at the confirmation prompt; so the value tells a run that the operator
    cancelled at the prompt from a completed one and from one without work,
    and it is [True] exactly at the two returns completed and no data,
    which it does not tell apart. *)
Theorem run_status_outcomes
  (json_loads : string -> result json) (exn_str : exn -> string)
  (cfg : api_config) (env : run_env) (batch_size : option Z)
  (auto_confirm : bool) :
  let exit := fst (run_validation_async json_loads exn_str cfg env
                     batch_size auto_confirm) in
  ((exists kb n,
       loaded_kb env = Ok kb /\ version_mismatch env kb = false
       /\ load_clean_data json_loads (clean_file env) = Ok ([], n)) ->
   exit = NoData /\ returned exit = Some true)
  /\ (forall data,
        reaches_prompt json_loads env batch_size data ->
        auto_confirm = false ->
        declines (typed env) = true ->
        exit = Declined /\ returned exit = Some false)
  /\ (forall data,
        reaches_loop json_loads env batch_size auto_confirm data ->
        interrupt_at env = None ->
        Qeq_bool (elapsed_seconds env) 0 = false ->
        exit = Completed /\ returned exit = Some true)
  /\ (returned exit = Some true <-> exit = Completed \/ exit = NoData).
Proof.
  intros exit. subst exit. split; [| split; [| split]].
  - intros (kb & n & Hkb & Hv & Hd).
    rewrite (run_no_data json_loads exn_str cfg env batch_size
               auto_confirm kb n Hkb Hv Hd).
    split; reflexivity.
  - intros data Hreach -> Hno.
    rewrite (run_declined json_loads exn_str cfg env batch_size data
               Hreach Hno).
    split; reflexivity.
  - intros data Hreach Hk Hclock.
    rewrite (run_completed json_loads exn_str cfg env batch_size
               auto_confirm data Hreach Hk Hclock).
    split; reflexivity.
  - split.
    + destruct (fst (run_validation_async _ _ _ _ _ _)); simpl;
        intros; auto; discriminate.
    + intros [-> | ->]; reflexivity.
Qed.

End ValidadorProps.

(* ------------------------------------------------------------------ *)
(** ** Dictionaries and orders *)

Module DictProps.

Section Facts.
Context {K V : Type}.
Variable eqb : K -> K -> bool.
Hypothesis eqb_sym : forall a b, eqb a b = eqb b a.
Hypothesis eqb_trans :
  forall a b c, eqb a b = true -> eqb b c = true -> eqb a c = true.

(** A new key goes last. *)
Lemma set_absent (k : K) (v : V) (d : list (K * V)) :
  Dict.lookup eqb k d = None -> Dict.set eqb k v d = d ++ [(k, v)].
Proof.
  induction d as [| [k' v'] d IH]; simpl; intros H; [reflexivity |].
  destruct (eqb k k'); [discriminate |]. now rewrite IH.
Qed.

(** Reading the key just written. *)
Lemma lookup_set_eq (x k : K) (v : V) (d : list (K * V)) :
  eqb x k = true -> Dict.lookup eqb x (Dict.set eqb k v d) = Some v.
Proof.
  intros Hx. induction d as [| [k' v'] d IH]; simpl.
  - now rewrite Hx.
  - destruct (eqb k k') eqn:Hk; simpl.
    + now rewrite (eqb_trans x k k' Hx Hk).
    + destruct (eqb x k') eqn:Hx'; [| exact IH].
      rewrite eqb_sym in Hx. rewrite (eqb_trans k x k' Hx Hx') in Hk.
      discriminate.
Qed.

(** Reading another key. *)
Lemma lookup_set_neq (x k : K) (v : V) (d : list (K * V)) :
  eqb x k = false ->
  Dict.lookup eqb x (Dict.set eqb k v d) = Dict.lookup eqb x d.
Proof.
  intros Hx. induction d as [| [k' v'] d IH]; simpl.
  - now rewrite Hx.
  - destruct (eqb k k') eqn:Hk; simpl.
    + destruct (eqb x k') eqn:Hx'; [| reflexivity].
      rewrite eqb_sym in Hk. rewrite (eqb_trans x k' k Hx' Hk) in Hx.
      discriminate.
    + destruct (eqb x k'); [reflexivity | exact IH].
Qed.

(** Writing a key keeps the number of entries or adds one. *)
Lemma set_length (k : K) (v : V) (d : list (K * V)) :
  List.length (Dict.set eqb k v d)
  = if Dict.mem eqb k d then List.length d else S (List.length d).
Proof.
  unfold Dict.mem. induction d as [| [k' v'] d IH]; simpl; [reflexivity |].
  destruct (eqb k k'); simpl; [reflexivity |]. rewrite IH.
  destruct (Dict.lookup eqb k d); reflexivity.
Qed.
End Facts.

(** The equality of keys is symmetric and transitive. *)
Lemma key_eqb_sym (a b : json) : key_eqb a b = key_eqb b a.
Proof.
  destruct a as [| x | x | x | x | x], b as [| y | y | y | y | y];
    simpl; try reflexivity.
  - destruct x, y; reflexivity.
  - apply Z.eqb_sym.
  - apply Z.eqb_sym.
  - apply Z.eqb_sym.
  - apply String.eqb_sym.
Qed.

Lemma b2z_inj (x y : bool) : Z.b2z x = Z.b2z y -> x = y.
Proof. destruct x, y; simpl; intros H; congruence. Qed.

Lemma key_eqb_trans (a b c : json) :
  key_eqb a b = true -> key_eqb b c = true -> key_eqb a c = true.
Proof.
  destruct a as [| x | x | x | x | x], b as [| y | y | y | y | y],
      c as [| z | z | z | z | z];
    simpl; try discriminate; try reflexivity;
    rewrite ?Bool.eqb_true_iff, ?Z.eqb_eq, ?String.eqb_eq;
    intros; subst; try reflexivity; try congruence.
  all: try (apply b2z_inj; congruence).
Qed.

(** Only hashable values are equal to a key. *)
Lemma key_eqb_hashable (a b : json) :
  key_eqb a b = true -> hashable a = true /\ hashable b = true.
Proof.
  destruct a, b; simpl; intros H; try discriminate; split; reflexivity.
Qed.

End DictProps.

Module OrderProps.

Lemma ascii_compare_cases (x y : ascii) :
  (Ascii.compare x y = Eq /\ x = y)
  \/ (Ascii.compare x y = Lt /\ (N_of_ascii x < N_of_ascii y)%N)
  \/ (Ascii.compare x y = Gt /\ (N_of_ascii y < N_of_ascii x)%N).
Proof.
  destruct (Ascii.compare x y) eqn:E.
  - left. split; [reflexivity |]. now apply Ascii.compare_eq_iff.
  - right. left. split; [reflexivity |].
    unfold Ascii.compare in E. now apply N.compare_lt_iff.
  - right. right. split; [reflexivity |].
    unfold Ascii.compare in E. now apply N.compare_gt_iff.
Qed.

Lemma ascii_compare_lt (x y : ascii) :
  (N_of_ascii x < N_of_ascii y)%N -> Ascii.compare x y = Lt.
Proof. intros H. unfold Ascii.compare. now apply N.compare_lt_iff. Qed.

Lemma ascii_compare_refl (x : ascii) : Ascii.compare x x = Eq.
Proof. unfold Ascii.compare. apply N.compare_refl. Qed.

(** The order of strings is transitive. *)
Lemma leb_trans (a b c : string) :
  String.leb a b = true -> String.leb b c = true -> String.leb a c = true.
Proof.
  unfold String.leb. revert b c.
  induction a as [| x a IH]; intros [| y b] [| z c]; simpl;
    try reflexivity; try discriminate.
  intros Hab Hbc.
  destruct (ascii_compare_cases x y) as [[E1 ->] | [[E1 L1] | [E1 L1]]];
    rewrite E1 in Hab; try discriminate.
  - destruct (Ascii.compare y z); try discriminate;
      [apply (IH b c Hab Hbc) | reflexivity].
  - destruct (ascii_compare_cases y z) as [[E2 ->] | [[E2 L2] | [E2 L2]]];
      rewrite E2 in Hbc; try discriminate.
    + now rewrite E1.
    + rewrite (ascii_compare_lt x z); [reflexivity | lia].
Qed.

Lemma leb_refl (a : string) : String.leb a a = true.
Proof.
  unfold String.leb. induction a as [| x a IH]; simpl; [reflexivity |].
  now rewrite ascii_compare_refl.
Qed.

(** Two different names in order are in strict order. *)
Lemma leb_neq_ltb (a b : string) :
  String.leb a b = true -> a <> b -> String.ltb a b = true.
Proof.
  unfold String.leb, String.ltb. intros H Hne.
  destruct (String.compare a b) eqn:E; try reflexivity; try discriminate.
  apply String.compare_eq_iff in E. contradiction.
Qed.

End OrderProps.

(* ------------------------------------------------------------------ *)
(** ** The consolidator *)

Module LotesProps.

Import Validador Lotes.

(** *** The files found and their order *)

Definition name_le (f g : file) : Prop := String.leb (fst f) (fst g) = true.

Lemma insert_file_perm (f : file) (l : list file) :
  Permutation (f :: l) (insert_file f l).
Proof.
  induction l as [| g l IH]; simpl; [apply Permutation_refl |].
  destruct (String.leb (fst f) (fst g)); [apply Permutation_refl |].
  eapply perm_trans; [apply perm_swap |]. now apply perm_skip.
Qed.

Lemma sort_files_perm (l : list file) : Permutation l (sort_files l).
Proof.
  induction l as [| f l IH]; simpl; [apply perm_nil |].
  eapply perm_trans; [apply perm_skip, IH |]. apply insert_file_perm.
Qed.

Lemma insert_file_sorted (f : file) (l : list file) :
  StronglySorted name_le l -> StronglySorted name_le (insert_file f l).
Proof.
  induction 1 as [| g l Hl IH Hg]; simpl.
  - constructor; constructor.
  - destruct (String.leb (fst f) (fst g)) eqn:E.
    + constructor; [now constructor |].
      constructor; [exact E |].
      eapply Forall_impl; [| exact Hg].
      intros h Hh. unfold name_le in *.
      now apply (OrderProps.leb_trans (fst f) (fst g) (fst h)).
    + constructor; [exact IH |].
      apply (Permutation_Forall (insert_file_perm f l)).
      constructor; [| exact Hg].
      unfold name_le. destruct (String.leb_total (fst f) (fst g)) as [H | H];
        [congruence | exact H].
Qed.

(** The files come out in the order of their names. *)
Lemma sort_files_sorted (l : list file) :
  StronglySorted name_le (sort_files l).
Proof.
  induction l as [| f l IH]; simpl; [constructor |].
  now apply insert_file_sorted.
Qed.

(** The order of the directory listing does not matter: two listings of
    the same entries, with distinct names, sort to the same list. *)
Lemma sorted_unique (l1 l2 : list file) :
  NoDup (map fst l1) ->
  Permutation l1 l2 ->
  StronglySorted name_le l1 -> StronglySorted name_le l2 -> l1 = l2.
Proof.
  revert l2. induction l1 as [| f l1 IH]; intros l2 Hnd Hp H1 H2.
  - now apply Permutation_nil in Hp.
  - destruct l2 as [| g l2];
      [apply Permutation_sym, Permutation_nil in Hp; discriminate |].
    inversion H1 as [| ? ? Hs1 Hf1]; subst.
    inversion H2 as [| ? ? Hs2 Hf2]; subst.
    assert (Hfg : f = g).
    { assert (Hin1 : In f (g :: l2))
        by (eapply Permutation_in; [exact Hp | now left]).
      assert (Hin2 : In g (f :: l1))
        by (eapply Permutation_in;
            [apply Permutation_sym; exact Hp | now left]).
      destruct Hin1 as [-> | Hin1]; [reflexivity |].
      destruct Hin2 as [-> | Hin2]; [reflexivity |].
      rewrite Forall_forall in Hf1, Hf2.
      pose proof (Hf1 g Hin2) as Hle1. pose proof (Hf2 f Hin1) as Hle2.
      unfold name_le in *.
      pose proof (String.leb_antisym _ _ Hle1 Hle2) as Hname.
      inversion Hnd as [| ? ? Hnot _]; subst. exfalso. apply Hnot.
      rewrite Hname. now apply in_map. }
    subst g. f_equal. apply IH; try assumption.
    + now inversion Hnd.
    + now apply Permutation_cons_inv in Hp.
Qed.

Lemma glob_incl (dir : list file) (pattern : string) (f : file) :
  In f (glob dir pattern) <-> In f dir /\ Re.fnmatch (fst f) pattern = true.
Proof. unfold glob. apply filter_In. Qed.

Lemma NoDup_names_filter (p : file -> bool) (dir : list file) :
  NoDup (map fst dir) -> NoDup (map fst (filter p dir)).
Proof.
  induction dir as [| f dir IH]; simpl; intros H; [constructor |].
  inversion H as [| ? ? Hnot Hnd]; subst.
  destruct (p f); simpl; [| now apply IH].
  constructor; [| now apply IH].
  intros Hin. apply Hnot. apply in_map_iff in Hin.
  destruct Hin as (g & Hg & Hin). apply filter_In in Hin.
  apply in_map_iff. exists g. tauto.
Qed.

(** The loop over the patterns stops at the first one that finds a file. *)
Lemma first_found_selects (dir : list file) :
  forall (ps earlier later : list string) (pattern : string),
    ps = earlier ++ pattern :: later ->
    (forall q, In q earlier -> glob dir q = []) ->
    glob dir pattern <> [] ->
    first_found dir ps = glob dir pattern.
Proof.
  intros ps earlier. revert ps.
  induction earlier as [| q earlier IH]; intros ps later pattern -> Hnone Hsome.
  - simpl. destruct (glob dir pattern); [contradiction | reflexivity].
  - simpl. rewrite (Hnone q (or_introl eq_refl)).
    apply (IH _ later pattern eq_refl); [| exact Hsome].
    intros q' Hq'. apply Hnone. now right.
Qed.

(** Conversely, what the loop returns is what one pattern finds, no
    pattern before it finding anything. *)
Lemma first_found_selected (dir : list file) :
  forall ps, first_found dir ps <> [] ->
    exists earlier pattern later,
      ps = earlier ++ pattern :: later
      /\ (forall q, In q earlier -> glob dir q = [])
      /\ glob dir pattern <> []
      /\ first_found dir ps = glob dir pattern.
Proof.
  induction ps as [| p ps IH]; simpl; intros H; [contradiction |].
  destruct (glob dir p) as [| f found] eqn:E.
  - destruct (IH H) as (earlier & pattern & later & -> & Hnone & Hsome & Heq).
    exists (p :: earlier), pattern, later. repeat split; try assumption.
    intros q [<- | Hq]; [exact E | now apply Hnone].
  - exists [], p, ps. rewrite E. repeat split; [intros q [] | discriminate].
Qed.

(** *** Loading: the last record of an identifier wins *)

Section Loading.
Variable json_loads : string -> result json.

(** What a line contributes to [unified_data]: the identifier and the
    record of a line that decodes to a record with a truthy, hashable
    identifier. *)
Definition line_entry (line : string) : option (json * json) :=
  match (record <- json_loads (Str.strip line) ;; normalize_id record) with
  | Ok (record_id, record) =>
      if truthy record_id && hashable record_id
      then Some (record_id, record) else None
  | Raise _ => None
  end.

Lemma load_line_unified (st : load_state) (line : string) :
  unified_data (load_line json_loads st line)
  = match line_entry line with
    | Some (k, r) => Dict.set key_eqb k r (unified_data st)
    | None => unified_data st
    end.
Proof.
  unfold load_line, line_entry.
  destruct (record <- json_loads (Str.strip line) ;; normalize_id record)
    as [[record_id record] | e].
  - destruct (truthy record_id); simpl; [| reflexivity].
    unfold idmap_set. destruct (hashable record_id); reflexivity.
  - destruct e; reflexivity.
Qed.

(** The record that the lines leave for the identifier [x], over what was
    there before them: that of the last line with that identifier. *)
Definition line_step (x : json) (acc : option json) (line : string)
  : option json :=
  match line_entry line with
  | Some (k, r) => if key_eqb x k then Some r else acc
  | None => acc
  end.

Definition overridden (x : json) (base : option json) (lines : list string)
  : option json :=
  fold_left (line_step x) lines base.

(** The payload a file holds for the identifier [x], if any. *)
Definition file_payload (x : json) (f : file) : option json :=
  overridden x None (snd f).

Lemma load_line_lookup (x : json) (st : load_state) (line : string) :
  Dict.lookup key_eqb x (unified_data (load_line json_loads st line))
  = line_step x (Dict.lookup key_eqb x (unified_data st)) line.
Proof.
  rewrite load_line_unified. unfold line_step.
  destruct (line_entry line) as [[k r] |]; [| reflexivity].
  destruct (key_eqb x k) eqn:E.
  - apply DictProps.lookup_set_eq;
      [apply DictProps.key_eqb_sym | apply DictProps.key_eqb_trans | exact E].
  - apply DictProps.lookup_set_neq;
      [apply DictProps.key_eqb_sym | apply DictProps.key_eqb_trans | exact E].
Qed.

Lemma load_file_lookup (x : json) (f : file) (st : load_state) :
  Dict.lookup key_eqb x (unified_data (load_file json_loads st f))
  = overridden x (Dict.lookup key_eqb x (unified_data st)) (snd f).
Proof.
  unfold load_file, overridden. generalize (snd f) as lines. intros lines.
  revert st. induction lines as [| line lines IH]; intros st; simpl;
    [reflexivity |].
  rewrite IH. now rewrite load_line_lookup.
Qed.

Lemma overridden_base (x : json) (lines : list string) :
  forall base,
    overridden x base lines
    = match overridden x None lines with
      | Some r => Some r
      | None => base
      end.
Proof.
  unfold overridden.
  induction lines as [| line lines IH]; intros base; simpl; [reflexivity |].
  rewrite IH. rewrite (IH (line_step x None line)).
  destruct (fold_left (line_step x) lines None); [reflexivity |].
  unfold line_step. destruct (line_entry line) as [[k r] |]; [| reflexivity].
  destruct (key_eqb x k); reflexivity.
Qed.

(** Files that hold nothing for [x] leave its entry as it was. *)
Lemma load_files_without (x : json) (files : list file) :
  (forall f, In f files -> file_payload x f = None) ->
  forall st,
    Dict.lookup key_eqb x
      (unified_data (fold_left (load_file json_loads) files st))
    = Dict.lookup key_eqb x (unified_data st).
Proof.
  induction files as [| f files IH]; intros Hnone st; simpl; [reflexivity |].
  rewrite IH by (intros g Hg; apply Hnone; now right).
  rewrite load_file_lookup, overridden_base.
  unfold file_payload in Hnone. now rewrite (Hnone f (or_introl eq_refl)).
Qed.

(** The entry of [x] after a sequence of files is the payload of the last
    file that holds one. *)
Lemma load_files_last (x : json) (before after : list file) (f : file)
  (payload : json) (st : load_state) :
  file_payload x f = Some payload ->
  (forall g, In g after -> file_payload x g = None) ->
  Dict.lookup key_eqb x
    (unified_data (fold_left (load_file json_loads) (before ++ f :: after) st))
  = Some payload.
Proof.
  intros Hf Hafter. rewrite fold_left_app. simpl.
  rewrite load_files_without by exact Hafter.
  rewrite load_file_lookup, overridden_base.
  unfold file_payload in Hf. now rewrite Hf.
Qed.
(** After a file that holds a payload for [x], the entry of [x] is the
    payload of that file or of a file read after it. *)
Lemma load_files_after (x : json) (after : list file) :
  forall (st : load_state) (f0 : file) (p : json),
    file_payload x f0 = Some p ->
    Dict.lookup key_eqb x (unified_data st) = Some p ->
    exists f3 p3,
      (f3 = f0 \/ In f3 after)
      /\ file_payload x f3 = Some p3
      /\ Dict.lookup key_eqb x
           (unified_data (fold_left (load_file json_loads) after st))
         = Some p3.
Proof.
  induction after as [| g after IH]; intros st f0 p Hf0 Hst.
  - exists f0, p. simpl. auto.
  - simpl.
    assert (Hg : Dict.lookup key_eqb x
                   (unified_data (load_file json_loads st g))
                 = match file_payload x g with
                   | Some r => Some r
                   | None => Some p
                   end)
      by (rewrite load_file_lookup, overridden_base, Hst; reflexivity).
    destruct (file_payload x g) as [r |] eqn:E.
    + destruct (IH _ g r E Hg) as (f3 & p3 & Hin & Hp & Hl).
      exists f3, p3. repeat split; try assumption.
      right. destruct Hin as [-> | Hin]; [now left | now right].
    + destruct (IH _ f0 p Hf0 Hg) as (f3 & p3 & Hin & Hp & Hl).
      exists f3, p3. repeat split; try assumption.
      destruct Hin as [-> | Hin]; [now left | right; now right].
Qed.

(** Among files of which one holds a payload for [x], there is a last one
    that does. *)
Lemma last_holder (x : json) (files : list file) :
  (exists f p, In f files /\ file_payload x f = Some p) ->
  exists before f3 p3 after,
    files = before ++ f3 :: after
    /\ file_payload x f3 = Some p3
    /\ forall g, In g after -> file_payload x g = None.
Proof.
  induction files as [| f files IH]; intros (f0 & p & Hin & Hp);
    [destruct Hin |].
  destruct (existsb (fun g => match file_payload x g with
                              | Some _ => true
                              | None => false
                              end) files) eqn:E.
  - apply existsb_exists in E. destruct E as (g & Hg & Hpg).
    destruct (file_payload x g) as [r |] eqn:Er; [| discriminate].
    destruct IH as (before & f3 & p3 & after & -> & H3 & Hafter);
      [now exists g, r |].
    exists (f :: before), f3, p3, after. auto.
  - assert (Hnone : forall g, In g files -> file_payload x g = None).
    { intros g Hg. destruct (file_payload x g) eqn:Er; [| reflexivity].
      assert (Hex : existsb (fun g => match file_payload x g with
                                      | Some _ => true
                                      | None => false
                                      end) files = true)
        by (apply existsb_exists; exists g; now rewrite Er).
      rewrite E in Hex. discriminate. }
    destruct Hin as [-> | Hin].
    + exists [], f0, p, files. auto.
    + rewrite (Hnone f0 Hin) in Hp. discriminate.
Qed.
End Loading.

(** In a sorted list, a file stands before the files after it. *)
Lemma sorted_before (before after : list file) (f : file) :
  StronglySorted name_le (before ++ f :: after) ->
  (forall g, In g before -> name_le g f)
  /\ (forall g, In g after -> name_le f g).
Proof.
  induction before as [| b before IH]; simpl; intros H.
  - inversion H as [| ? ? _ Hall]; subst. rewrite Forall_forall in Hall.
    split; [intros g [] | exact Hall].
  - inversion H as [| ? ? Hs Hall]; subst. rewrite Forall_forall in Hall.
    destruct (IH Hs) as [Hb Ha]. split; [| exact Ha].
    intros g [<- | Hg]; [| now apply Hb].
    apply Hall. apply in_or_app. right. now left.
Qed.

(** In a sorted list of files with distinct names, the files after a file
    have greater names. *)
Lemma sorted_split (fs : list file) (f : file) :
  StronglySorted name_le fs ->
  NoDup (map fst fs) ->
  In f fs ->
  exists before after,
    fs = before ++ f :: after
    /\ forall g, In g after -> String.ltb (fst f) (fst g) = true.
Proof.
  induction 1 as [| h t Ht IH Hh]; intros Hnd Hin; [destruct Hin |].
  inversion Hnd as [| ? ? Hnot Hnd']; subst.
  destruct Hin as [-> | Hin].
  - exists [], t. split; [reflexivity |].
    intros g Hg. rewrite Forall_forall in Hh.
    apply OrderProps.leb_neq_ltb; [exact (Hh g Hg) |].
    intros Heq. apply Hnot. rewrite Heq. now apply in_map.
  - destruct (IH Hnd' Hin) as (before & after & -> & Hafter).
    exists (h :: before), after. split; [reflexivity | exact Hafter].
Qed.

(** What [find_batch_files] returns: the files of one pattern, sorted by
    name, with distinct names when the directory has distinct names. *)
Lemma find_batch_files_sorted (dir fs : list file) :
  find_batch_files dir = Ok fs ->
  StronglySorted name_le fs
  /\ Permutation (first_found dir patterns) fs
  /\ (NoDup (map fst dir) -> NoDup (map fst fs)).
Proof.
  unfold find_batch_files. intros H.
  destruct (first_found dir patterns) as [| f found] eqn:E; [discriminate |].
  injection H as <-. repeat split.
  - apply (sort_files_sorted (f :: found)).
  - apply (sort_files_perm (f :: found)).
  - intros Hnd.
    apply (Permutation_NoDup
             (Permutation_map fst (sort_files_perm (f :: found)))).
    rewrite <- E.
    assert (Hne : first_found dir patterns <> []) by (rewrite E; discriminate).
    destruct (first_found_selected dir patterns Hne)
      as (earlier & pattern & later & _ & _ & _ & ->).
    now apply NoDup_names_filter.
Qed.

(** C3, amended. Consolidation is last-write-wins over the sorted order
    of the batch files, which are read in the order of their names.  When
    two of the files found, [f1] before [f2] in that order, both hold a
    record for the identifier [x], with different payloads, the dictionary
    returned by [load_batch_files] maps [x] to the payload of the last
    file, in the order of the names, that holds a record for [x]: a file
    [f3] that is [f2] or comes after it, after which no file holds a record
    for [x].  So it maps [x] to the payload of [f2] when no file after
    [f2] holds a record for [x], as when the two files are the only ones,
    and never to a payload that only an earlier file holds. *)
Theorem last_write_wins
  (json_loads : string -> result json) (dir fs : list file) (f1 f2 : file)
  (x p1 p2 : json) :
  NoDup (map fst dir) ->
  find_batch_files dir = Ok fs ->
  In f1 fs -> In f2 fs ->
  String.ltb (fst f1) (fst f2) = true ->
  file_payload json_loads x f1 = Some p1 ->
  file_payload json_loads x f2 = Some p2 ->
  p1 <> p2 ->
  StronglySorted name_le fs
  /\ exists st,
      load_batch_files json_loads dir = Ok st
      /\ (exists f3 p3,
            In f3 fs
            /\ String.leb (fst f2) (fst f3) = true
            /\ file_payload json_loads x f3 = Some p3
            /\ (forall g, In g fs -> String.ltb (fst f3) (fst g) = true ->
                          file_payload json_loads x g = None)
            /\ Dict.lookup key_eqb x (unified_data st) = Some p3)
      /\ ((forall f3, In f3 fs -> String.ltb (fst f2) (fst f3) = true ->
                      file_payload json_loads x f3 = None) ->
          Dict.lookup key_eqb x (unified_data st) = Some p2).
Proof.
  intros Hnd Hfind _ Hin2 _ _ Hp2 _.
  destruct (find_batch_files_sorted dir fs Hfind) as (Hsorted & _ & Hnames).
  split; [exact Hsorted |].
  unfold load_batch_files. rewrite Hfind. simpl. eexists.
  split; [reflexivity |]. split.
  - destruct (last_holder json_loads x fs) as
      (before & f3 & p3 & after & Hfs & Hp3 & Hafter);
      [now exists f2, p2 |].
    exists f3, p3.
    assert (Hin3 : In f3 fs)
      by (rewrite Hfs; apply in_or_app; right; now left).
    rewrite Hfs in Hsorted.
    destruct (sorted_before before after f3 Hsorted) as [Hb Ha].
    assert (Hnd' : NoDup (map fst (before ++ f3 :: after)))
      by (rewrite <- Hfs; exact (Hnames Hnd)).
    split; [exact Hin3 |]. split; [| split; [exact Hp3 | split]].
    + rewrite Hfs in Hin2. apply in_app_or in Hin2.
      destruct Hin2 as [Hin2 | [<- | Hin2]].
      * exact (Hb f2 Hin2).
      * apply OrderProps.leb_refl.
      * rewrite (Hafter f2 Hin2) in Hp2. discriminate.
    + intros g Hg Hlt. rewrite Hfs in Hg. apply in_app_or in Hg.
      destruct Hg as [Hg | [<- | Hg]].
      * pose proof (Hb g Hg) as Hle. unfold name_le, String.leb in Hle.
        unfold String.ltb in Hlt.
        rewrite String.compare_antisym in Hlt.
        destruct (String.compare (fst g) (fst f3)); simpl in Hle, Hlt;
          discriminate Hlt || discriminate Hle.
      * pose proof (String.compare_antisym (fst f3) (fst f3)) as Hle.
        unfold String.ltb in Hlt.
        destruct (String.compare (fst f3) (fst f3)); simpl in Hle, Hlt;
          discriminate Hlt || discriminate Hle.
      * exact (Hafter g Hg).
    + rewrite Hfs. now apply load_files_last.
  - intros Hlater.
    destruct (sorted_split fs f2 Hsorted (Hnames Hnd) Hin2)
      as (before & after & Hfs & Hafter).
    rewrite Hfs. apply load_files_last; [exact Hp2 |].
    intros g Hg. apply Hlater; [| now apply Hafter].
    rewrite Hfs. apply in_or_app. right. now right.
Qed.

(** Two batch files of a rerun: the record of case X was rewritten. *)
Definition result_line (id raw : string) : string :=
  (Show.dumps (JObj [("id", JStr id);
                     ("predicted_codes", JList []);
                     ("razonamiento_modelo", JStr "r");
                     ("raw_response", JStr raw)]) ++ newline)%string.

Definition rerun_dir : list file :=
  [("resultados_lote_1_20251230_0900.jsonl", [result_line "X" "segundo"]);
   ("resultados_lote_1_20251229_1000.jsonl", [result_line "X" "primero"])].

Definition record_of (id raw : string) : json :=
  JObj [("id", JStr id);
        ("predicted_codes", JList []);
        ("razonamiento_modelo", JStr "r");
        ("raw_response", JStr raw)].

(** Three runs over the same case: each wrote its own file. *)
Definition three_runs_dir : list file :=
  [("resultados_lote_1_20251229_1000.jsonl", [result_line "X" "primero"]);
   ("resultados_lote_1_20251230_0900.jsonl", [result_line "X" "segundo"]);
   ("resultados_lote_1_20251231_0800.jsonl", [result_line "X" "tercero"])].

(** C3, as stated, fails: of these three files the first two, in the order
    of their names, both hold a record for X with different payloads, and
    the dictionary maps X to the payload of neither of them but to the one
    of the third file, which is read last. *)
Lemma third_file_overrides_second :
  let f1 := ("resultados_lote_1_20251229_1000.jsonl",
             [result_line "X" "primero"]) in
  let f2 := ("resultados_lote_1_20251230_0900.jsonl",
             [result_line "X" "segundo"]) in
  find_batch_files three_runs_dir = Ok three_runs_dir
  /\ String.ltb (fst f1) (fst f2) = true
  /\ file_payload Json.loads (JStr "X") f1 = Some (record_of "X" "primero")
  /\ file_payload Json.loads (JStr "X") f2 = Some (record_of "X" "segundo")
  /\ exists st,
      load_batch_files Json.loads three_runs_dir = Ok st
      /\ Dict.lookup key_eqb (JStr "X") (unified_data st)
         = Some (record_of "X" "tercero").
Proof.
  repeat split; try (vm_compute; reflexivity).
  eexists. split; vm_compute; reflexivity.
Qed.

Lemma last_write_wins_witness :
  exists st,
    load_batch_files Json.loads rerun_dir = Ok st
    /\ Dict.lookup key_eqb (JStr "X") (unified_data st)
       = Some (record_of "X" "segundo").
Proof.
  destruct (last_write_wins Json.loads rerun_dir
              [("resultados_lote_1_20251229_1000.jsonl",
                [result_line "X" "primero"]);
               ("resultados_lote_1_20251230_0900.jsonl",
                [result_line "X" "segundo"])]
              ("resultados_lote_1_20251229_1000.jsonl",
               [result_line "X" "primero"])
              ("resultados_lote_1_20251230_0900.jsonl",
               [result_line "X" "segundo"])
              (JStr "X") (record_of "X" "primero") (record_of "X" "segundo"))
    as (_ & st & Hload & _ & Hlast).
  - repeat constructor; simpl; intuition discriminate.
  - vm_compute. reflexivity.
  - simpl. auto.
  - simpl. auto.
  - vm_compute. reflexivity.
  - vm_compute. reflexivity.
  - vm_compute. reflexivity.
  - discriminate.
  - exists st. split; [exact Hload |]. apply Hlast.
    intros f3 [<- | [<- | []]]; vm_compute; intros H; discriminate H.
Defined.

(** *** The order of the listing does not matter *)

Lemma glob_perm (dir dir' : list file) (pattern : string) :
  Permutation dir dir' -> Permutation (glob dir pattern) (glob dir' pattern).
Proof.
  unfold glob. induction 1 as [| f l l' _ IH | f g l | l l' l'' _ IH1 _ IH2];
    simpl.
  - apply perm_nil.
  - destruct (Re.fnmatch (fst f) pattern); [now apply perm_skip | exact IH].
  - destruct (Re.fnmatch (fst f) pattern), (Re.fnmatch (fst g) pattern);
      try apply Permutation_refl. apply perm_swap.
  - eapply perm_trans; eassumption.
Qed.

Lemma first_found_perm (dir dir' : list file) :
  Permutation dir dir' ->
  forall ps, Permutation (first_found dir ps) (first_found dir' ps).
Proof.
  intros Hp. induction ps as [| p ps IH]; simpl; [apply perm_nil |].
  pose proof (glob_perm dir dir' p Hp) as Hg.
  destruct (glob dir p) as [| f found], (glob dir' p) as [| f' found'].
  - exact IH.
  - apply Permutation_nil in Hg. discriminate.
  - apply Permutation_sym, Permutation_nil in Hg. discriminate.
  - exact Hg.
Qed.

(** Two listings of the same directory give the same batch files in the
    same order. *)
Lemma find_batch_files_deterministic (dir dir' : list file) :
  NoDup (map fst dir) ->
  Permutation dir dir' ->
  find_batch_files dir = find_batch_files dir'.
Proof.
  intros Hnd Hp. unfold find_batch_files.
  pose proof (first_found_perm dir dir' Hp patterns) as Hf.
  destruct (first_found dir patterns) as [| f found] eqn:E,
           (first_found dir' patterns) as [| f' found'] eqn:E'.
  - reflexivity.
  - apply Permutation_nil in Hf. discriminate.
  - apply Permutation_sym, Permutation_nil in Hf. discriminate.
  - f_equal. apply sorted_unique.
    + apply (Permutation_NoDup
               (Permutation_map fst (sort_files_perm (f :: found)))).
      rewrite <- E.
      assert (Hne : first_found dir patterns <> [])
        by (rewrite E; discriminate).
      destruct (first_found_selected dir patterns Hne)
        as (earlier & pattern & later & _ & _ & _ & ->).
      now apply NoDup_names_filter.
    + eapply perm_trans;
        [apply Permutation_sym, (sort_files_perm (f :: found)) |].
      eapply perm_trans; [exact Hf |]. apply (sort_files_perm (f' :: found')).
    + apply (sort_files_sorted (f :: found)).
    + apply (sort_files_sorted (f' :: found')).
Qed.

(** *** Which files are read *)

Lemma glob_glob (dir : list file) (pattern : string) :
  glob (glob dir pattern) pattern = glob dir pattern.
Proof.
  unfold glob. induction dir as [| f dir IH]; simpl; [reflexivity |].
  destruct (Re.fnmatch (fst f) pattern) eqn:E; simpl; [| exact IH].
  now rewrite E, IH.
Qed.

Lemma glob_none_sub (dir : list file) (pattern q : string) :
  glob dir q = [] -> glob (glob dir pattern) q = [].
Proof.
  unfold glob. induction dir as [| f dir IH]; simpl; [reflexivity |].
  destruct (Re.fnmatch (fst f) q) eqn:E; [discriminate |].
  intros H. destruct (Re.fnmatch (fst f) pattern); simpl;
    [rewrite E |]; now apply IH.
Qed.

Lemma key_eqb_refl (k : json) : hashable k = true -> key_eqb k k = true.
Proof.
  destruct k as [| b | z | s | l | o]; simpl; intros H;
    try reflexivity; try discriminate.
  - now destruct b.
  - apply Z.eqb_refl.
  - apply String.eqb_refl.
Qed.

Section Reading.
Variable json_loads : string -> result json.

Lemma line_entry_hashable (line : string) (k r : json) :
  line_entry json_loads line = Some (k, r) -> hashable k = true.
Proof.
  unfold line_entry.
  destruct (record <- json_loads (Str.strip line) ;; normalize_id record)
    as [[record_id record] | e]; [| discriminate].
  destruct (truthy record_id), (hashable record_id) eqn:E; simpl;
    intros H; inversion H; subst; exact E.
Qed.

(** A line never removes an identifier. *)
Lemma load_line_keeps (k : json) (st : load_state) (line : string) :
  has_key k (unified_data st) = true ->
  has_key k (unified_data (load_line json_loads st line)) = true.
Proof.
  unfold has_key, Dict.mem. rewrite load_line_lookup. unfold line_step.
  destruct (line_entry json_loads line) as [[k' r] |]; [| auto].
  destruct (key_eqb k k'); auto.
Qed.

Lemma load_lines_keep (k : json) (lines : list string) :
  forall st,
    has_key k (unified_data st) = true ->
    has_key k (unified_data (fold_left (load_line json_loads) lines st))
    = true.
Proof.
  induction lines as [| line lines IH]; intros st H; simpl; [exact H |].
  apply IH. now apply load_line_keeps.
Qed.

(** The identifier of each usable line of a file is in the dictionary
    after the file. *)
Lemma load_file_has_key (f : file) (line : string) (k r : json)
  (st : load_state) :
  In line (snd f) ->
  line_entry json_loads line = Some (k, r) ->
  has_key k (unified_data (load_file json_loads st f)) = true.
Proof.
  unfold load_file. generalize (snd f) as lines. intros lines. revert st.
  induction lines as [| l lines IH]; intros st Hin He; [destruct Hin |].
  simpl. destruct Hin as [-> | Hin]; [| now apply IH].
  apply load_lines_keep. unfold has_key, Dict.mem.
  rewrite load_line_lookup. unfold line_step. rewrite He.
  now rewrite (key_eqb_refl k (line_entry_hashable line k r He)).
Qed.

Lemma load_files_has_key (files : list file) (f : file) (line : string)
  (k r : json) :
  In f files ->
  In line (snd f) ->
  line_entry json_loads line = Some (k, r) ->
  forall st,
    has_key k (unified_data (fold_left (load_file json_loads) files st))
    = true.
Proof.
  induction files as [| g files IH]; intros Hf Hl He st; [destruct Hf |].
  simpl. destruct Hf as [-> | Hf]; [| now apply IH].
  assert (Hkeep : forall fs st',
             has_key k (unified_data st') = true ->
             has_key k (unified_data
                          (fold_left (load_file json_loads) fs st')) = true).
  { induction fs as [| h fs IHfs]; intros st' H; simpl; [exact H |].
    apply IHfs. unfold load_file. now apply load_lines_keep. }
  apply Hkeep. now apply (load_file_has_key f line k r).
Qed.
End Reading.

(** A directory with result files of two naming patterns. *)
Definition mixed_dir : list file :=
  [("resultados_lote_1_20251229_1000.jsonl", [result_line "A" "uno"]);
   ("lote_2.jsonl", [result_line "B" "dos"])].

(** C7, as stated, fails: [lote_2.jsonl] matches the known pattern
    [lote_*.jsonl] and carries a usable record for the identifier B, but
    the directory also has a file of the first pattern, so the loop over
    the patterns stops there and B is not in the unified dictionary. *)
Lemma later_pattern_file_is_not_read :
  In "lote_*.jsonl" patterns
  /\ Re.fnmatch "lote_2.jsonl" "lote_*.jsonl" = true
  /\ line_entry Json.loads (result_line "B" "dos")
     = Some (JStr "B", record_of "B" "dos")
  /\ exists st,
      load_batch_files Json.loads mixed_dir = Ok st
      /\ unified_data st = [(JStr "A", record_of "A" "uno")]
      /\ has_key (JStr "B") (unified_data st) = false.
Proof.
  split; [simpl; auto |]. split; [vm_compute; reflexivity |].
  split; [vm_compute; reflexivity |].
  eexists. split; [vm_compute; reflexivity |].
  split; reflexivity.
Qed.

(** C7, amended. [load_batch_files] reads the files of one naming pattern
    only: the first pattern of the list, in the order
    [resultados_lote_*.jsonl], [resultados_*_lote_*.jsonl], [lote_*.jsonl],
    [batch_*.jsonl], that matches a file of the directory.  Every usable
    record carried by a file matching that pattern is considered (its
    identifier is in the unified dictionary), and the result is the one of
    a directory holding those files alone: a file that matches only a later
    pattern is not read. *)
Theorem first_matching_pattern_is_read
  (json_loads : string -> result json) (dir : list file)
  (earlier later : list string) (pattern : string) :
  patterns = earlier ++ pattern :: later ->
  (forall q, In q earlier -> glob dir q = []) ->
  glob dir pattern <> [] ->
  exists st,
    load_batch_files json_loads dir = Ok st
    /\ load_batch_files json_loads (glob dir pattern) = Ok st
    /\ forall f line k r,
        In f dir ->
        Re.fnmatch (fst f) pattern = true ->
        In line (snd f) ->
        line_entry json_loads line = Some (k, r) ->
        has_key k (unified_data st) = true.
Proof.
  intros Hps Hnone Hsome.
  pose proof (first_found_selects dir patterns earlier later pattern
                Hps Hnone Hsome) as Hdir.
  assert (Hsub : first_found (glob dir pattern) patterns = glob dir pattern).
  { rewrite (first_found_selects (glob dir pattern) patterns earlier later
               pattern Hps).
    - apply glob_glob.
    - intros q Hq. apply glob_none_sub. now apply Hnone.
    - now rewrite glob_glob. }
  unfold load_batch_files, find_batch_files. rewrite Hdir, Hsub.
  destruct (glob dir pattern) as [| g found] eqn:E; [contradiction |].
  cbn [Py.bind]. eexists. split; [reflexivity |]. split; [reflexivity |].
  intros f line k r Hf Hm Hl He.
  apply (load_files_has_key json_loads _ f line k r); try assumption.
  apply (Permutation_in f (sort_files_perm (g :: found))).
  rewrite <- E. apply glob_incl. now split.
Qed.

Lemma first_matching_pattern_is_read_witness :
  exists st,
    load_batch_files Json.loads mixed_dir = Ok st
    /\ load_batch_files Json.loads
         (glob mixed_dir "resultados_lote_*.jsonl") = Ok st
    /\ forall f line k r,
        In f mixed_dir ->
        Re.fnmatch (fst f) "resultados_lote_*.jsonl" = true ->
        In line (snd f) ->
        line_entry Json.loads line = Some (k, r) ->
        has_key k (unified_data st) = true.
Proof.
  apply (first_matching_pattern_is_read Json.loads mixed_dir []
           ["resultados_*_lote_*.jsonl"; "lote_*.jsonl"; "batch_*.jsonl"]
           "resultados_lote_*.jsonl").
  - reflexivity.
  - intros q [].
  - vm_compute. discriminate.
Defined.

(** *** The tiered parser *)

(** The truncated response of the specification: no closing quote, no
    closing brace. *)
Definition truncated_vector : string :=
  Json.dq "{'codigo': '9', 'justificacion': 'robo de celu".

(** C5. For the raw text [truncated_vector] (an object opened with the
    code 9 whose justification stops after robo de celu, with no closing
    quote and no closing brace), which a decoder of JSON rejects,
    [parse_detailed_predictions] returns
    a mapping with exactly one entry, for the code 9, whose justification
    is the partial text followed by the truncation marker. *)
Theorem truncated_tier_vector (json_loads : string -> result json) :
  json_loads truncated_vector = Raise JSONDecodeError ->
  parse_detailed_predictions json_loads (JStr truncated_vector)
  = Ok [("9", JStr ("robo de celu" ++ truncation_marker)%string)].
Proof.
  intros H. unfold parse_detailed_predictions.
  replace (negb (truthy (JStr truncated_vector))) with false
    by (vm_compute; reflexivity).
  rewrite H. vm_compute. reflexivity.
Qed.

Lemma truncated_tier_vector_witness :
  parse_detailed_predictions Json.loads (JStr truncated_vector)
  = Ok [("9", JStr "robo de celu [TRUNCADO]")].
Proof.
  apply (truncated_tier_vector Json.loads). vm_compute. reflexivity.
Defined.





(** The cases left: an exception that the first tier raises on a text
    that decodes, or one of the decoder other than [JSONDecodeError], is
    not caught by [except json.JSONDecodeError] and leaves the function. *)
Lemma parser_exceptions_pass (json_loads : string -> result json)
  (text : string) :
  text <> EmptyString ->
  (forall parsed e,
      json_loads text = Ok parsed ->
      tier1 parsed = Raise e ->
      parse_detailed_predictions json_loads (JStr text) = Raise e)
  /\ (forall e,
        json_loads text = Raise e ->
        e <> JSONDecodeError ->
        parse_detailed_predictions json_loads (JStr text) = Raise e).
Proof.
  intros Hne.
  assert (Ht : negb (truthy (JStr text)) = false).
  { simpl. destruct text; [contradiction | reflexivity]. }
  unfold parse_detailed_predictions. rewrite Ht. split.
  - intros parsed e Hl H1. rewrite Hl, H1. reflexivity.
  - intros e Hl He. rewrite Hl. destruct e; try reflexivity. contradiction.
Qed.

(** A response that decodes and on which the first tier raises: the list
    of classifications holds a [null]. *)
Example first_tier_raises :
  Json.loads (Json.dq "{'clasificaciones': [null]}")
  = Ok (JObj [("clasificaciones", JList [JNull])])
  /\ tier1 (JObj [("clasificaciones", JList [JNull])]) = Raise TypeError
  /\ parse_detailed_predictions Json.loads
       (JStr (Json.dq "{'clasificaciones': [null]}")) = Raise TypeError.
Proof. repeat split; vm_compute; reflexivity. Qed.


(** *** The flattened view *)

Section Unnesting.
Variable json_loads : string -> result json.
Variable complex : bool.

(** A record whose identifier has no reference entry appends nothing and
    does not raise. *)
Lemma unnest_record_no_reference (reference_data : list (json * json))
  (obs_id unified_record : json) :
  has_key obs_id reference_data = false ->
  unnest_record json_loads complex reference_data obs_id unified_record
  = Ok ([], []).
Proof.
  unfold has_key, Dict.mem, unnest_record.
  destruct (Dict.lookup key_eqb obs_id reference_data);
    [discriminate | reflexivity].
Qed.

(** The loop over the unified records is the loop over those that have a
    reference entry. *)
Lemma unnest_loop_skips (reference_data : list (json * json)) :
  forall items final_rows parsing_issues,
    unnest_loop json_loads complex reference_data items final_rows
      parsing_issues
    = unnest_loop json_loads complex reference_data
        (filter (fun kv => has_key (fst kv) reference_data) items)
        final_rows parsing_issues.
Proof.
  induction items as [| [obs_id record] items IH]; intros rows issues;
    [reflexivity |].
  cbn [filter fst]. destruct (has_key obs_id reference_data) eqn:E.
  - cbn [unnest_loop].
    destruct (unnest_record json_loads complex reference_data obs_id record)
      as [[rows' issues'] | e]; simpl; [apply IH | reflexivity].
  - cbn [unnest_loop].
    rewrite (unnest_record_no_reference _ _ _ E). simpl.
    rewrite !app_nil_r. apply IH.
Qed.
End Unnesting.

Section Simple.
Variable json_loads : string -> result json.

(** Without expansion a record appends at most one row. *)
Lemma unnest_record_simple (reference_data : list (json * json))
  (obs_id unified_record : json) (rows : list row) (issues : list issue) :
  unnest_record json_loads false reference_data obs_id unified_record
  = Ok (rows, issues) ->
  List.length rows <= 1.
Proof.
  unfold unnest_record.
  destruct (Dict.lookup key_eqb obs_id reference_data) as [ref_record |];
    [| intros H; inv_ok; simpl; lia].
  destruct (negb (truthy ref_record)); [intros H; inv_ok; simpl; lia |].
  intros H.
  repeat (apply bind_ok in H; destruct H as [? [_ H]]).
  inv_ok. simpl. lia.
Qed.

Lemma unnest_loop_simple (reference_data : list (json * json)) :
  forall items rows0 issues0 rows issues,
    unnest_loop json_loads false reference_data items rows0 issues0
    = Ok (rows, issues) ->
    List.length rows
    + List.length
        (filter (fun kv => negb (has_key (fst kv) reference_data)) items)
    <= List.length rows0 + List.length items.
Proof.
  induction items as [| [obs_id record] items IH];
    intros rows0 issues0 rows issues H.
  - simpl in H. inv_ok. simpl. lia.
  - cbn [unnest_loop] in H. apply bind_ok in H.
    destruct H as [[rows' issues'] [Hrec H]].
    apply IH in H. rewrite length_app in H. cbn [filter fst List.length].
    destruct (has_key obs_id reference_data) eqn:E; cbn [negb List.length].
    + apply unnest_record_simple in Hrec. lia.
    + rewrite (unnest_record_no_reference json_loads false _ _ _ E) in Hrec.
      inv_ok. simpl in H. lia.
Qed.
End Simple.

Lemma filter_map_length {A B : Type} (f : A -> B) (p : B -> bool)
  (l : list A) :
  List.length (filter p (map f l))
  = List.length (filter (fun a => p (f a)) l).
Proof.
  induction l as [| a l IH]; simpl; [reflexivity |].
  destruct (p (f a)); simpl; now rewrite IH.
Qed.

(** C10. A unified record whose identifier has no entry in the reference
    map produces no row of the flattened output and does not raise: the
    flattened view is the one of the records that have a reference entry.
    Whenever the consistency report lists extra identifiers, the records
    that contribute rows are strictly fewer than the unified records; in
    the mode without expansion, where a record gives at most one row, the
    number of rows is then strictly smaller than the number of unified
    records. *)
Theorem records_without_reference_are_skipped
  (json_loads : string -> result json) (complex : bool)
  (unified_data reference_data : list (json * json)) :
  (forall obs_id unified_record,
      has_key obs_id reference_data = false ->
      unnest_record json_loads complex reference_data obs_id unified_record
      = Ok ([], []))
  /\ create_unnested_format json_loads complex unified_data reference_data
     = create_unnested_format json_loads complex
         (filter (fun kv => has_key (fst kv) reference_data) unified_data)
         reference_data
  /\ (forall missing extra,
        validate_consistency unified_data reference_data
        = Some (missing, extra) ->
        extra <> [] ->
        List.length
          (filter (fun kv => has_key (fst kv) reference_data) unified_data)
        < List.length unified_data)
  /\ (complex = false ->
      forall rows issues missing extra,
        create_unnested_format json_loads complex unified_data reference_data
        = Ok (rows, issues) ->
        validate_consistency unified_data reference_data
        = Some (missing, extra) ->
        extra <> [] ->
        List.length rows < List.length unified_data).
Proof.
  split; [| split; [| split]].
  - intros obs_id record. apply unnest_record_no_reference.
  - apply unnest_loop_skips.
  - intros missing extra Hreport Hextra.
    unfold validate_consistency in Hreport.
    destruct (Nat.eqb _ _); [discriminate |].
    inversion Hreport; subst. unfold keys_minus in Hextra.
    assert (Hpos : 1 <= List.length
                          (filter (fun kv => negb (has_key (fst kv)
                                                     reference_data))
                             unified_data)).
    { rewrite <- (filter_map_length fst
                    (fun k => negb (has_key k reference_data))).
      destruct (filter _ (map fst unified_data));
        [contradiction | simpl; lia]. }
    pose proof (filter_length (fun kv => has_key (fst kv) reference_data)
                  unified_data) as Hlen.
    lia.
  - intros -> rows issues missing extra Hrows Hreport Hextra.
    unfold validate_consistency in Hreport.
    destruct (Nat.eqb _ _); [discriminate |].
    inversion Hreport; subst. unfold keys_minus in Hextra.
    apply unnest_loop_simple in Hrows.
    rewrite <- (filter_map_length fst
                  (fun k => negb (has_key k reference_data))) in Hrows.
    destruct (filter _ (map fst unified_data)); [contradiction |].
    simpl in Hrows. lia.
Qed.

End LotesProps.

(* ------------------------------------------------------------------ *)
(** ** The request executor, for every retry budget and every endpoint *)

Module ExecutorProps.

Import Validador.

(** A trace in which a wait separates each request from the next: the
    requests of the attempts [k], [k + 1], ... with their timeouts, the
    waits [waits] between them in order, and a request last. *)
Fixpoint spaced (cfg : api_config) (k : nat) (waits : list number)
  : list event :=
  match waits with
  | [] => [Request (current_timeout cfg k)]
  | w :: waits' =>
      Request (current_timeout cfg k) :: Sleep w :: spaced cfg (S k) waits'
  end.

Lemma spaced_requests (cfg : api_config) (waits : list number) :
  forall k,
    requests (spaced cfg k waits)
    = map (current_timeout cfg) (seq k (S (List.length waits))).
Proof.
  induction waits as [| w waits IH]; intros k; [reflexivity |].
  cbn [spaced requests flat_map app].
  change (flat_map _ ?tr) with (requests tr). rewrite IH. reflexivity.
Qed.

Lemma spaced_sleeps (cfg : api_config) (waits : list number) :
  forall k, sleeps (spaced cfg k waits) = waits.
Proof.
  induction waits as [| w waits IH]; intros k; [reflexivity |].
  cbn [spaced sleeps flat_map app].
  change (flat_map _ ?tr) with (sleeps tr). now rewrite IH.
Qed.

Section Attempts.
Variable cfg : api_config.
Variable endpoint : nat -> api_outcome.
Variable random : nat -> spec_float.

Definition fails (attempt : nat) : Prop :=
  exists error_type error_text,
    endpoint attempt = Failure error_type error_text.

(** The trace of the loop over the attempts [k] to [max_retries - 1],
    however it ends: the attempts made are the first ones, each with its
    request, and a wait separates each request from the next. *)
Lemma attempts_loop_shape :
  forall n k,
    Z.of_nat (k + S n) = max_retries cfg ->
    exists waits,
      List.length waits <= n
      /\ snd (attempts_loop cfg endpoint random (seq k (S n)))
         = spaced cfg k waits.
Proof.
  induction n as [| n IH]; intros k Hn.
  - exists []. split; [simpl; lia |]. cbn [seq attempts_loop].
    destruct (endpoint k) as [content | error_type error_text];
      [reflexivity |].
    replace (Z.of_nat k <? max_retries cfg - 1)%Z with false
      by (symmetry; apply Z.ltb_ge; lia).
    reflexivity.
  - change (seq k (S (S n))) with (k :: seq (S k) (S n)).
    cbn [attempts_loop].
    destruct (endpoint k) as [content | error_type error_text].
    + exists []. split; [simpl; lia | reflexivity].
    + replace (Z.of_nat k <? max_retries cfg - 1)%Z with true
        by (symmetry; apply Z.ltb_lt; lia).
      destruct (wait_time cfg k error_type (Str.lower error_text)
                  (random k)) as [w | e].
      * destruct (IH (S k)) as (waits & Hlen & Htrace); [lia |].
        destruct (attempts_loop cfg endpoint random (seq (S k) (S n)))
          as [r trace].
        cbn [snd] in *. subst trace.
        exists (w :: waits). split; [simpl; lia | reflexivity].
      * exists []. split; [simpl; lia | reflexivity].
Qed.

Lemma attempts_loop_retry (attempt : nat) (rest : list nat)
  (error_type error_text : string) (w : number) :
  endpoint attempt = Failure error_type error_text ->
  (Z.of_nat attempt < max_retries cfg - 1)%Z ->
  wait_time cfg attempt error_type (Str.lower error_text) (random attempt)
  = Ok w ->
  attempts_loop cfg endpoint random (attempt :: rest)
  = (fst (attempts_loop cfg endpoint random rest),
     Request (current_timeout cfg attempt)
     :: Sleep w :: snd (attempts_loop cfg endpoint random rest)).
Proof.
  intros Hf Hlt Hw. cbn [attempts_loop]. rewrite Hf.
  replace (Z.of_nat attempt <? max_retries cfg - 1)%Z with true
    by (symmetry; apply Z.ltb_lt; exact Hlt).
  rewrite Hw.
  destruct (attempts_loop cfg endpoint random rest); reflexivity.
Qed.

(** The loop from the attempt [k] when the attempt [k + i] is the first to
    get a response. *)
Lemma attempts_loop_success (content : string) :
  forall i k n,
    i < n ->
    k + i <= 1022 ->
    (Z.of_nat (k + i) < max_retries cfg)%Z ->
    (forall j, j < i -> fails (k + j)) ->
    endpoint (k + i) = Response content ->
    fst (attempts_loop cfg endpoint random (seq k n))
    = Ok (Str.strip content)
    /\ requests (snd (attempts_loop cfg endpoint random (seq k n)))
       = map (current_timeout cfg) (seq k (S i))
    /\ List.length (sleeps (snd (attempts_loop cfg endpoint random (seq k n))))
       = i.
Proof.
  induction i as [| i IH]; intros k n Hin Hb Hk Hfail Hresp.
  - destruct n as [| n]; [lia |]. simpl.
    rewrite Nat.add_0_r in Hresp. rewrite Hresp. simpl. auto.
  - destruct n as [| n]; [lia |].
    destruct (Hfail 0 ltac:(lia)) as (t & x & Hf).
    rewrite Nat.add_0_r in Hf.
    destruct (ValidadorProps.wait_time_ok cfg k t (Str.lower x) (random k))
      as [w Hw]; [lia |].
    change (seq k (S n)) with (k :: seq (S k) n).
    rewrite (attempts_loop_retry k _ t x w Hf) by (lia || exact Hw).
    destruct (IH (S k) n) as (H1 & H2 & H3).
    + lia.
    + lia.
    + replace (S k + i) with (k + S i) by lia. exact Hk.
    + intros j Hj. replace (S k + j) with (k + S j) by lia.
      apply Hfail. lia.
    + replace (S k + i) with (k + S i) by lia. exact Hresp.
    + cbn [fst snd]. split; [exact H1 |]. split.
      * cbn [requests flat_map app].
        change (flat_map _ ?tr) with (requests tr). rewrite H2. reflexivity.
      * cbn [sleeps flat_map app List.length].
        change (flat_map _ ?tr) with (sleeps tr). rewrite H3. reflexivity.
Qed.

(** The loop from the attempt [k] when every attempt left fails. *)
Lemma attempts_loop_failure :
  forall n k,
    Z.of_nat (k + S n) = max_retries cfg ->
    k + n <= 1022 ->
    (forall j, j <= n -> fails (k + j)) ->
    fst (attempts_loop cfg endpoint random (seq k (S n)))
    = Ok max_retries_sentinel
    /\ requests (snd (attempts_loop cfg endpoint random (seq k (S n))))
       = map (current_timeout cfg) (seq k (S n))
    /\ List.length
         (sleeps (snd (attempts_loop cfg endpoint random (seq k (S n)))))
       = n.
Proof.
  induction n as [| n IH]; intros k Hk Hb Hfail.
  - simpl. destruct (Hfail 0 ltac:(lia)) as (t & x & Hf).
    rewrite Nat.add_0_r in Hf. rewrite Hf.
    replace (Z.of_nat k <? max_retries cfg - 1)%Z with false
      by (symmetry; apply Z.ltb_ge; lia).
    simpl. auto.
  - destruct (Hfail 0 ltac:(lia)) as (t & x & Hf).
    rewrite Nat.add_0_r in Hf.
    destruct (ValidadorProps.wait_time_ok cfg k t (Str.lower x) (random k))
      as [w Hw]; [lia |].
    change (seq k (S (S n))) with (k :: seq (S k) (S n)).
    rewrite (attempts_loop_retry k _ t x w Hf) by (lia || exact Hw).
    destruct (IH (S k)) as (H1 & H2 & H3).
    + lia.
    + lia.
    + intros j Hj. replace (S k + j) with (k + S j) by lia.
      apply Hfail. lia.
    + cbn [fst snd]. rewrite H1.
      split; [reflexivity |]. split.
      * cbn [requests flat_map app].
        change (flat_map _ ?tr) with (requests tr). rewrite H2. reflexivity.
      * cbn [sleeps flat_map app List.length].
        change (flat_map _ ?tr) with (sleeps tr). rewrite H3. reflexivity.
Qed.

End Attempts.

(** X1. Whatever the endpoint does and however the call ends,
    [generate_prediction_api] makes the requests of the first attempts, at
    most [max_retries] of them, each with the timeout of its attempt, and
    waits exactly once between two consecutive requests and never before
    the first or after the last; with a retry budget of zero or less, and
    only then, it makes no request at all, and it returns the no-attempt
    sentinel. *)
Theorem requests_are_bounded
  (cfg : api_config) (endpoint : nat -> api_outcome)
  (random : nat -> spec_float) :
  let run := generate_prediction_api cfg endpoint random in
  ((max_retries cfg <= 0)%Z /\ run = (Ok no_attempt_sentinel, []))
  \/ ((1 <= max_retries cfg)%Z
      /\ exists waits,
          (Z.of_nat (List.length waits) < max_retries cfg)%Z
          /\ snd run = spaced cfg 0 waits
          /\ requests (snd run)
             = map (current_timeout cfg) (seq 0 (S (List.length waits)))
          /\ sleeps (snd run) = waits).
Proof.
  intros run. unfold run, generate_prediction_api.
  destruct (Z.to_nat (max_retries cfg)) as [| n] eqn:En.
  - left. split; [lia | reflexivity].
  - right. split; [lia |].
    destruct (attempts_loop_shape cfg endpoint random n 0)
      as (waits & Hlen & Htrace); [lia |].
    exists waits. rewrite Htrace.
    split; [lia |]. split; [reflexivity |].
    split; [apply spaced_requests | apply spaced_sleeps].
Qed.

(** X2. When the attempt [k], at most the attempt 1022, is within the
    retry budget, every attempt before it fails and it gets a response,
    [generate_prediction_api] returns the content of that response,
    stripped; it has made [k + 1] requests, with the timeouts of the
    attempts 0 to [k], and [k] waits. *)
Theorem first_response_is_returned
  (cfg : api_config) (endpoint : nat -> api_outcome)
  (random : nat -> spec_float) (k : nat) (content : string) :
  k <= 1022 ->
  (Z.of_nat k < max_retries cfg)%Z ->
  (forall j, j < k -> fails endpoint j) ->
  endpoint k = Response content ->
  let run := generate_prediction_api cfg endpoint random in
  fst run = Ok (Str.strip content)
  /\ requests (snd run) = map (current_timeout cfg) (seq 0 (S k))
  /\ List.length (sleeps (snd run)) = k.
Proof.
  intros Hb Hk Hfail Hresp run. unfold run, generate_prediction_api.
  apply (attempts_loop_success cfg endpoint random content k 0); auto.
  lia.
Qed.

Lemma first_response_is_returned_witness :
  let run :=
    generate_prediction_api
      {| max_retries := 3; timeout := 90; retry_delay := 60 |}
      (fun attempt =>
         match attempt with
         | 0 => Failure "APITimeoutError" "Request timed out."
         | _ => Response " {} "
         end)
      (fun _ => F64.half) in
  fst run = Ok (Str.strip " {} ")
  /\ requests (snd run)
     = map (current_timeout
              {| max_retries := 3; timeout := 90; retry_delay := 60 |})
           (seq 0 2)
  /\ List.length (sleeps (snd run)) = 1.
Proof.
  apply (first_response_is_returned
           {| max_retries := 3; timeout := 90; retry_delay := 60 |}
           (fun attempt =>
              match attempt with
              | 0 => Failure "APITimeoutError" "Request timed out."
              | _ => Response " {} "
              end)
           (fun _ => F64.half) 1 " {} ").
  - lia.
  - simpl. lia.
  - intros j Hj. assert (j = 0) by lia. subst j.
    exists "APITimeoutError", "Request timed out.". reflexivity.
  - reflexivity.
Defined.

(** X3. With a retry budget of at least one, and at most 1023, and an
    endpoint that fails at every attempt of the budget, whatever the class
    of the failures, [generate_prediction_api] returns the
    retries-exhausted sentinel after exactly [max_retries] requests, with
    the timeouts of the attempts in order, and [max_retries - 1] waits. *)
Theorem exhausted_budget_gives_sentinel
  (cfg : api_config) (endpoint : nat -> api_outcome)
  (random : nat -> spec_float) :
  (1 <= max_retries cfg <= 1023)%Z ->
  (forall j, (Z.of_nat j < max_retries cfg)%Z -> fails endpoint j) ->
  let run := generate_prediction_api cfg endpoint random in
  fst run = Ok max_retries_sentinel
  /\ requests (snd run)
     = map (current_timeout cfg) (seq 0 (Z.to_nat (max_retries cfg)))
  /\ S (List.length (sleeps (snd run))) = Z.to_nat (max_retries cfg).
Proof.
  intros Hm Hfail run. unfold run, generate_prediction_api.
  destruct (Z.to_nat (max_retries cfg)) as [| n] eqn:En; [lia |].
  destruct (attempts_loop_failure cfg endpoint random n 0) as (H1 & H2 & H3).
  - lia.
  - lia.
  - intros j Hj. apply Hfail. lia.
  - rewrite H1, H2, H3. auto.
Qed.

Lemma exhausted_budget_gives_sentinel_witness :
  let run :=
    generate_prediction_api
      {| max_retries := 2; timeout := 30; retry_delay := 30 |}
      (fun _ => Failure "InternalServerError" "Error code: 500")
      (fun _ => F64Props.zero) in
  fst run = Ok max_retries_sentinel
  /\ requests (snd run)
     = map (current_timeout
              {| max_retries := 2; timeout := 30; retry_delay := 30 |})
           (seq 0 (Z.to_nat 2))
  /\ S (List.length (sleeps (snd run))) = Z.to_nat 2.
Proof.
  apply (exhausted_budget_gives_sentinel
           {| max_retries := 2; timeout := 30; retry_delay := 30 |}
           (fun _ => Failure "InternalServerError" "Error code: 500")
           (fun _ => F64Props.zero)).
  - simpl. lia.
  - intros j _. exists "InternalServerError", "Error code: 500". reflexivity.
Defined.

End ExecutorProps.

(* ------------------------------------------------------------------ *)
(** ** Reading the response, for every response *)

Module ResponseProps.

Import Validador.

(** The order of [sorted] on codes: the one of the texts, not of the
    numbers they may spell. *)
Definition code_le (a b : string) : Prop := String.leb a b = true.

Lemma insert_sorted_perm (x : string) (l : list string) :
  Permutation (x :: l) (Str.insert_sorted x l).
Proof.
  induction l as [| y l IH]; simpl; [reflexivity |].
  destruct (String.leb x y); [reflexivity |].
  rewrite perm_swap. now constructor.
Qed.

Lemma sorted_perm (l : list string) : Permutation l (Str.sorted l).
Proof.
  induction l as [| x l IH]; simpl; [constructor |].
  rewrite <- insert_sorted_perm. now constructor.
Qed.

Lemma insert_sorted_sorted (x : string) (l : list string) :
  StronglySorted code_le l -> StronglySorted code_le (Str.insert_sorted x l).
Proof.
  induction 1 as [| y l Hl IH Hy]; simpl.
  - constructor; constructor.
  - destruct (String.leb x y) eqn:E.
    + constructor; [now constructor |].
      constructor; [exact E |].
      eapply Forall_impl; [| exact Hy].
      intros z Hz. unfold code_le in *.
      now apply (OrderProps.leb_trans x y z).
    + constructor; [exact IH |].
      apply (Permutation_Forall (insert_sorted_perm x l)).
      constructor; [| exact Hy].
      unfold code_le. destruct (String.leb_total x y) as [H | H];
        [congruence | exact H].
Qed.

Lemma sorted_sorted (l : list string) : StronglySorted code_le (Str.sorted l).
Proof.
  induction l as [| x l IH]; simpl; [constructor |].
  now apply insert_sorted_sorted.
Qed.

Lemma sorted_set_NoDup (l : list string) : NoDup (Str.sorted_set l).
Proof.
  unfold Str.sorted_set.
  apply (Permutation_NoDup (sorted_perm _)). apply NoDup_nodup.
Qed.

Lemma sorted_set_In (l : list string) (x : string) :
  In x (Str.sorted_set l) <-> In x l.
Proof.
  unfold Str.sorted_set. rewrite <- (nodup_In string_dec l x).
  split; intros H.
  - apply (Permutation_in x (Permutation_sym (sorted_perm _)) H).
  - apply (Permutation_in x (sorted_perm _) H).
Qed.

Lemma read_payload_sorted (data : json) (default : string)
  (codes : list string) (razonamiento : json) :
  read_payload data default = Ok (codes, razonamiento) ->
  StronglySorted code_le codes.
Proof.
  unfold read_payload. intros H.
  apply bind_ok in H. destruct H as (r & _ & H).
  apply bind_ok in H. destruct H as (c & _ & H).
  apply bind_ok in H. destruct H as (items & _ & H).
  inv_ok. apply sorted_sorted.
Qed.

(** What [read_payload] does with each decoded value. *)
Lemma read_payload_cases (data : json) (default : string) :
  match data with
  | JObj o =>
      match obj_get "clasificaciones" (JList []) o with
      | JNull | JBool _ | JInt _ =>
          read_payload data default = Raise TypeError
      | _ => exists r, read_payload data default = Ok r
      end
  | _ => read_payload data default = Raise AttributeError
  end.
Proof.
  destruct data as [| b | z | s | l | o]; try reflexivity.
  unfold read_payload. simpl.
  destruct (obj_get "clasificaciones" (JList []) o); simpl;
    try reflexivity; eauto.
Qed.

Section Response.
Variable json_loads : string -> result json.

(** X4. The codes that [parse_response] returns are in ascending order of
    their texts, in every tier; and when neither the whole response nor an
    embedded object decodes, so that the codes come from the pattern of
    single codes, no code is listed twice. *)
Theorem parsed_codes_are_sorted (response : string) (codes : list string)
  (razonamiento : json) :
  parse_response json_loads response = Ok (codes, razonamiento) ->
  StronglySorted code_le codes
  /\ (json_loads (Str.strip response) = Raise JSONDecodeError ->
      parse_embedded json_loads response = None ->
      NoDup codes
      /\ forall code,
          In code codes
          <-> In code (map (Re.group "1")
                         (Re.finditer pattern_codigo response))).
Proof.
  unfold parse_response. intros H.
  destruct (json_loads (Str.strip response)) as [data | e] eqn:Hloads.
  - split; [| discriminate].
    now apply (read_payload_sorted _ _ _ _ H).
  - destruct e; try discriminate.
    destruct (parse_embedded json_loads response) as [r |] eqn:Hemb.
    + split; [| discriminate]. inv_ok.
      unfold parse_embedded in Hemb.
      destruct (Re.search pattern_json response) as [[[caps from] rest] |];
        [| discriminate].
      destruct (json_loads (Re.group0 from rest)) as [data | e];
        [| discriminate].
      simpl in Hemb.
      destruct (read_payload data "Razonamiento extraído parcialmente.")
        as [r |] eqn:Hr; [| discriminate].
      inv_ok. now apply (read_payload_sorted _ _ _ _ Hr).
    + injection H as H. unfold parse_codes_only in H.
      destruct (map (Re.group "1") (Re.finditer pattern_codigo response))
        as [| c cs] eqn:Hm.
      * inv_ok. split; [constructor |]. intros _ _.
        split; [constructor | tauto].
      * inv_ok. split; [apply sorted_sorted |]. intros _ _.
        split; [apply sorted_set_NoDup | intros code; apply sorted_set_In].
Qed.

(** X5. [parse_response] raises in three situations only.  The decoder
    raises something other than [JSONDecodeError] on the stripped
    response, which [except json.JSONDecodeError] lets through as it is.
    Or the text decodes and the decoded value is not an object
    ([AttributeError]), or it is an object whose [clasificaciones] is
    [null], a boolean or a number ([TypeError]).  A text that the decoder
    rejects with [JSONDecodeError] always gets a result, from the embedded
    object or from the pattern of codes. *)
Theorem parse_response_raises (response : string) :
  (json_loads (Str.strip response) = Raise JSONDecodeError ->
   exists r, parse_response json_loads response = Ok r)
  /\ (forall e,
        json_loads (Str.strip response) = Raise e ->
        e <> JSONDecodeError ->
        parse_response json_loads response = Raise e)
  /\ (forall data,
        json_loads (Str.strip response) = Ok data ->
        match data with
        | JObj o =>
            match obj_get "clasificaciones" (JList []) o with
            | JNull | JBool _ | JInt _ =>
                parse_response json_loads response = Raise TypeError
            | _ => exists r, parse_response json_loads response = Ok r
            end
        | _ => parse_response json_loads response = Raise AttributeError
        end).
Proof.
  unfold parse_response. split; [| split].
  - intros ->. destruct (parse_embedded json_loads response); eauto.
  - intros e -> He. destruct e; try reflexivity. contradiction.
  - intros data ->.
    apply (read_payload_cases data "No se encontró razonamiento.").
Qed.

End Response.

Lemma parsed_codes_are_sorted_witness :
  StronglySorted code_le ["10"; "9"]
  /\ (Json.loads (Str.strip (Json.dq "'codigo': '9' y 'codigo': '10' y 'codigo': '9'"))
      = Raise JSONDecodeError ->
      parse_embedded Json.loads
        (Json.dq "'codigo': '9' y 'codigo': '10' y 'codigo': '9'") = None ->
      NoDup ["10"; "9"]
      /\ forall code,
          In code ["10"; "9"]
          <-> In code
                (map (Re.group "1")
                   (Re.finditer pattern_codigo
                      (Json.dq "'codigo': '9' y 'codigo': '10' y 'codigo': '9'")))).
Proof.
  apply (parsed_codes_are_sorted Json.loads
           (Json.dq "'codigo': '9' y 'codigo': '10' y 'codigo': '9'")
           ["10"; "9"] (JStr "Códigos extraídos con regex.")).
  vm_compute. reflexivity.
Defined.

End ResponseProps.

(* ------------------------------------------------------------------ *)
(** ** What a pattern with one star matches *)

Module GlobProps.













End GlobProps.

(* ------------------------------------------------------------------ *)
(** ** The batches of a run *)

Module BatchProps.

Import Validador.

(** Consecutive pieces of [n] elements: [m] of them cover a list of at most
    [m * n] elements. *)
Lemma chunks_concat {A : Type} (n : nat) :
  forall (m : nat) (l : list A),
    List.length l <= m * n ->
    concat (map (fun i => firstn n (skipn (i * n) l)) (seq 0 m)) = l.
Proof.
  induction m as [| m IH]; intros l Hl.
  - destruct l; [reflexivity | simpl in Hl; lia].
  - cbn [seq map concat]. rewrite <- seq_shift, map_map.
    cbn [Nat.mul skipn].
    rewrite (map_ext (fun i => firstn n (skipn (S i * n) l))
               (fun i => firstn n (skipn (i * n) (skipn n l)))).
    + rewrite IH; [apply firstn_skipn |].
      rewrite length_skipn. simpl in Hl. lia.
    + intros i. rewrite skipn_skipn. f_equal. f_equal. simpl. lia.
Qed.

(** [l[start:stop]] between two indices that are not negative. *)
Lemma slice_nonneg {A : Type} (start stop : Z) (l : list A) :
  (0 <= start)%Z -> (0 <= stop)%Z ->
  slice start stop l
  = firstn (Nat.min (Z.to_nat stop) (List.length l)
            - Nat.min (Z.to_nat start) (List.length l))
      (skipn (Nat.min (Z.to_nat start) (List.length l)) l).
Proof.
  intros Hs He. unfold slice, slice_index.
  replace (start <? 0)%Z with false by (symmetry; apply Z.ltb_ge; lia).
  replace (stop <? 0)%Z with false by (symmetry; apply Z.ltb_ge; lia).
  replace (Z.to_nat (Z.min start (Z.of_nat (List.length l))))
    with (Nat.min (Z.to_nat start) (List.length l)) by lia.
  replace (Z.to_nat (Z.min stop (Z.of_nat (List.length l))))
    with (Nat.min (Z.to_nat stop) (List.length l)) by lia.
  reflexivity.
Qed.

Lemma firstn_min_length {A : Type} (n : nat) (l : list A) :
  firstn (Nat.min n (List.length l)) l = firstn n l.
Proof.
  destruct (Nat.le_ge_cases n (List.length l)) as [H | H].
  - now rewrite Nat.min_l.
  - rewrite Nat.min_r by exact H.
    now rewrite firstn_all, firstn_all2.
Qed.

Section Slices.
Variable A : Type.
Variable data : list A.
Variable batch_size : Z.
Hypothesis batch_size_positive : (0 < batch_size)%Z.

(** Lines 355 to 357: the cases of the batch [batch_idx]. *)
Definition batch_slice (batch_idx : nat) : list A :=
  let start_idx := (Z.of_nat batch_idx * batch_size)%Z in
  let end_idx :=
    Z.min (start_idx + batch_size) (Z.of_nat (List.length data)) in
  slice start_idx end_idx data.

Lemma batch_slice_chunk (batch_idx : nat) :
  batch_slice batch_idx
  = firstn (Z.to_nat batch_size)
      (skipn (batch_idx * Z.to_nat batch_size) data).
Proof.
  unfold batch_slice. cbv zeta.
  rewrite slice_nonneg by lia.
  set (n := Z.to_nat batch_size).
  set (len := List.length data).
  replace (Z.to_nat (Z.of_nat batch_idx * batch_size)) with (batch_idx * n)
    by (unfold n; nia).
  replace (Z.to_nat (Z.min (Z.of_nat batch_idx * batch_size + batch_size)
                       (Z.of_nat len)))
    with (Nat.min (batch_idx * n + n) len) by (unfold n; nia).
  destruct (Nat.le_ge_cases (batch_idx * n) len) as [H | H].
  - rewrite (Nat.min_l (batch_idx * n) len) by exact H.
    replace (Nat.min (Nat.min (batch_idx * n + n) len) len - batch_idx * n)
      with (Nat.min n (List.length (skipn (batch_idx * n) data)))
      by (rewrite length_skipn; fold len; lia).
    apply firstn_min_length.
  - rewrite (Nat.min_r (batch_idx * n) len) by exact H.
    rewrite (skipn_all2 data) by (fold len; lia).
    rewrite (skipn_all2 data) by (fold len; lia).
    now rewrite !firstn_nil.
Qed.

Lemma num_batches_covers :
  List.length data
  <= Z.to_nat (num_batches (Z.of_nat (List.length data)) batch_size)
     * Z.to_nat batch_size.
Proof.
  unfold num_batches.
  set (len := Z.of_nat (List.length data)).
  assert (Hq : (len <= (len + batch_size - 1) / batch_size * batch_size)%Z).
  { pose proof (Z.div_mod (len + batch_size - 1) batch_size ltac:(lia)) as Hd.
    pose proof (Z.mod_pos_bound (len + batch_size - 1) batch_size ltac:(lia)).
    nia. }
  assert (Hnn : (0 <= (len + batch_size - 1) / batch_size)%Z)
    by (apply Z.div_pos; lia).
  nia.
Qed.

Lemma num_batches_tight (batch_idx : nat) :
  batch_idx < Z.to_nat (num_batches (Z.of_nat (List.length data)) batch_size) ->
  batch_idx * Z.to_nat batch_size < List.length data.
Proof.
  unfold num_batches.
  set (len := Z.of_nat (List.length data)).
  intros Hi.
  assert (Hq : ((len + batch_size - 1) / batch_size * batch_size
                <= len + batch_size - 1)%Z).
  { rewrite Z.mul_comm. apply Z.mul_div_le. lia. }
  assert (Hnn : (0 <= (len + batch_size - 1) / batch_size)%Z)
    by (apply Z.div_pos; lia).
  nia.
Qed.

Lemma batch_slices_concat :
  concat (map batch_slice
            (seq 0 (Z.to_nat (num_batches (Z.of_nat (List.length data))
                                batch_size))))
  = data.
Proof.
  rewrite (map_ext batch_slice _ batch_slice_chunk).
  apply chunks_concat. apply num_batches_covers.
Qed.

(** X6. With a positive batch size the batches cut the list of cases into
    consecutive pieces: taken in order they give back the list, every case
    in exactly one batch; no batch is empty and none has more than
    [batch_size] cases. *)
Theorem batches_partition_the_cases :
  let total_cases := Z.of_nat (List.length data) in
  let batches := seq 0 (Z.to_nat (num_batches total_cases batch_size)) in
  concat (map batch_slice batches) = data
  /\ forall batch_idx,
      In batch_idx batches ->
      1 <= List.length (batch_slice batch_idx)
      /\ (Z.of_nat (List.length (batch_slice batch_idx)) <= batch_size)%Z.
Proof.
  intros total_cases batches. subst total_cases batches. split.
  - apply batch_slices_concat.
  - intros batch_idx Hin. apply in_seq in Hin.
    rewrite batch_slice_chunk.
    pose proof (num_batches_tight batch_idx ltac:(lia)) as Ht.
    rewrite length_firstn, length_skipn. lia.
Qed.

End Slices.

Arguments batch_slice {A} data batch_size batch_idx.

Lemma batches_partition_the_cases_witness :
  concat (map (batch_slice ["a"; "b"; "c"; "d"; "e"] 2)
            (seq 0 (Z.to_nat (num_batches (Z.of_nat 5) 2))))
  = ["a"; "b"; "c"; "d"; "e"]
  /\ forall batch_idx,
      In batch_idx (seq 0 (Z.to_nat (num_batches (Z.of_nat 5) 2))) ->
      1 <= List.length (batch_slice ["a"; "b"; "c"; "d"; "e"] 2 batch_idx)
      /\ (Z.of_nat
            (List.length (batch_slice ["a"; "b"; "c"; "d"; "e"] 2 batch_idx))
          <= 2)%Z.
Proof.
  exact (batches_partition_the_cases string ["a"; "b"; "c"; "d"; "e"] 2
           eq_refl).
Defined.

Section Loop.
Variable json_loads : string -> result json.
Variable exn_str : exn -> string.
Variable cfg : api_config.
Variable env : run_env.
Variable kb : knowledge_base.
Variable data : list obj.
Variable batch_size : Z.

(** Lines 364 and 365 for the batch [batch_idx]: its records and the file
    they are written to. *)
Definition batch_results (batch_idx : nat) : list obj :=
  process_batch_async json_loads exn_str cfg (task_of env kb batch_idx)
    (batch_slice data batch_size batch_idx).

Definition batch_file (batch_idx : nat) : string * list string :=
  save_batch_results (stamp_of env batch_idx) (batch_results batch_idx)
    (Z.of_nat batch_idx + 1).

(** [open(filepath, 'w')] and the writes that follow. *)
Definition write (dir : list (string * list string))
  (f : string * list string) : list (string * list string) :=
  Dict.set String.eqb (fst f) (snd f) dir.

Lemma batches_loop_runs :
  forall batches dir saved,
    (forall b, In b batches -> interrupted_in env b = false) ->
    batches_loop json_loads exn_str cfg env kb data batch_size
      (Z.of_nat (List.length data)) batches dir saved
    = (false,
       fold_left write (map batch_file batches) dir,
       saved + List.length (flat_map batch_results batches)).
Proof.
  induction batches as [| b batches IH]; intros dir saved Hno.
  - simpl. now rewrite Nat.add_0_r.
  - cbn [batches_loop]. rewrite (Hno b) by now left.
    rewrite IH by (intros; apply Hno; now right).
    cbn [map fold_left flat_map]. rewrite length_app.
    unfold write at 2, batch_file, batch_results, batch_slice.
    now rewrite Nat.add_assoc.
Qed.

Lemma batches_loop_stops :
  forall before k after dir saved,
    (forall b, In b before -> interrupted_in env b = false) ->
    interrupted_in env k = true ->
    batches_loop json_loads exn_str cfg env kb data batch_size
      (Z.of_nat (List.length data)) (before ++ k :: after) dir saved
    = (true,
       fold_left write (map batch_file before) dir,
       saved + List.length (flat_map batch_results before)).
Proof.
  induction before as [| b before IH]; intros k after dir saved Hno Hk.
  - simpl. rewrite Hk. now rewrite Nat.add_0_r.
  - cbn [app batches_loop]. rewrite (Hno b) by now left.
    rewrite IH by (auto; intros; apply Hno; now right).
    cbn [map fold_left flat_map]. rewrite length_app.
    unfold write at 2, batch_file, batch_results, batch_slice.
    now rewrite Nat.add_assoc.
Qed.

(** The identifiers of the records of a batch are those of its cases. *)
Lemma batch_results_ids (batch_idx : nat) :
  map (obj_lookup "id") (batch_results batch_idx)
  = map (fun case_data => Some (obj_get "id" (JStr "unknown") case_data))
        (batch_slice data batch_size batch_idx).
Proof.
  unfold batch_results, process_batch_async.
  generalize 0 as i.
  induction (batch_slice data batch_size batch_idx) as [| c l IH];
    intros i; simpl; [reflexivity |].
  rewrite IH. f_equal.
  apply ValidadorProps.process_single_case_id.
Qed.

(** X7. A loop over the batches that is not interrupted, with a positive
    batch size, writes the files of the batches in order, ends with
    [results_saved] increased by the number of cases, and the records it
    wrote, read batch after batch, are one per case, in the order of the
    cases and with their identifiers. *)
Theorem uninterrupted_loop_saves_every_case
  (dir : list (string * list string)) (saved : nat) :
  (0 < batch_size)%Z ->
  interrupt_at env = None ->
  let total_cases := Z.of_nat (List.length data) in
  let batches := seq 0 (Z.to_nat (num_batches total_cases batch_size)) in
  batches_loop json_loads exn_str cfg env kb data batch_size total_cases
    batches dir saved
  = (false,
     fold_left write (map batch_file batches) dir,
     saved + List.length data)
  /\ map (obj_lookup "id") (flat_map batch_results batches)
     = map (fun case_data => Some (obj_get "id" (JStr "unknown") case_data))
         data
  /\ flat_map (fun batch_idx => snd (batch_file batch_idx)) batches
     = map (fun record => (Show.dumps (JObj record) ++ newline)%string)
         (flat_map batch_results batches).
Proof.
  intros Hpos Hint total_cases batches.
  assert (Hids :
    map (obj_lookup "id") (flat_map batch_results batches)
    = map (fun case_data => Some (obj_get "id" (JStr "unknown") case_data))
        data).
  { rewrite flat_map_concat_map, concat_map, map_map.
    rewrite (map_ext _ _ batch_results_ids).
    rewrite <- (map_map (batch_slice data batch_size)), <- concat_map.
    f_equal.
    apply batch_slices_concat. exact Hpos. }
  split; [| split; [exact Hids |]].
  - rewrite batches_loop_runs.
    + f_equal. f_equal.
      rewrite <- (length_map (obj_lookup "id")), Hids. apply length_map.
    + intros b _. unfold interrupted_in. now rewrite Hint.
  - rewrite !flat_map_concat_map, concat_map, map_map. reflexivity.
Qed.

End Loop.

Lemma uninterrupted_loop_saves_every_case_witness :
  batches_loop Json.loads ValidadorProps.no_text ValidadorProps.default_cfg
    (ValidadorProps.quiet_env [])
    {| kb_version := None; kb_prompt := fun _ => Ok ("s", "u") |}
    [[("id", JStr "A")]; [("id", JStr "B")]; [("id", JStr "C")]] 2
    (Z.of_nat 3) (seq 0 (Z.to_nat (num_batches (Z.of_nat 3) 2))) [] 0
  = (false,
     fold_left write
       (map (batch_file Json.loads ValidadorProps.no_text
               ValidadorProps.default_cfg (ValidadorProps.quiet_env [])
               {| kb_version := None; kb_prompt := fun _ => Ok ("s", "u") |}
               [[("id", JStr "A")]; [("id", JStr "B")]; [("id", JStr "C")]] 2)
          (seq 0 (Z.to_nat (num_batches (Z.of_nat 3) 2)))) [],
     0 + 3).
Proof.
  exact (proj1 (uninterrupted_loop_saves_every_case Json.loads
                  ValidadorProps.no_text ValidadorProps.default_cfg
                  (ValidadorProps.quiet_env [])
                  {| kb_version := None; kb_prompt := fun _ => Ok ("s", "u") |}
                  [[("id", JStr "A")]; [("id", JStr "B")]; [("id", JStr "C")]]
                  2 [] 0 eq_refl eq_refl)).
Defined.

Section Run.
Variable json_loads : string -> result json.
Variable exn_str : exn -> string.
Variable cfg : api_config.
Variable env : run_env.
Variable batch_size : option Z.
Variable auto_confirm : bool.
Variable data : list obj.
Variable kb : knowledge_base.

Hypothesis reaches :
  ValidadorProps.reaches_loop json_loads env batch_size auto_confirm data.
Hypothesis loaded : loaded_kb env = Ok kb.

(** A run that reaches the loop returns what the loop leaves. *)
Lemma run_from_loop :
  run_validation_async json_loads exn_str cfg env batch_size auto_confirm
  = let bs := effective_batch_size env batch_size in
    let total := Z.of_nat (List.length data) in
    match batches_loop json_loads exn_str cfg env kb data bs total
            (seq 0 (Z.to_nat (num_batches total bs)))
            (backup_old_files
               (match lotes_dir env with Some d => d | None => [] end)) 0
    with
    | (true, dir2, _) => (Cancelled, dir2)
    | (false, dir2, _) =>
        if Qeq_bool (elapsed_seconds env) 0
        then (Failed ZeroDivisionError, dir2)
        else (Completed, dir2)
    end.
Proof.
  destruct reaches as ((kb' & Hkb & Hv) & (n & Hd) & Hne & Hbs & Hconf & Hinit).
  rewrite loaded in Hkb. injection Hkb as <-.
  cbv zeta. unfold run_validation_async.
  rewrite loaded, Hv, Hd, Hinit.
  destruct data as [| c data']; [contradiction |].
  apply Z.eqb_neq in Hbs. rewrite Hbs.
  assert (Hc : negb auto_confirm && declines (typed env) = false)
    by (destruct Hconf as [-> | ->]; [reflexivity | apply andb_false_r]).
  rewrite Hc. reflexivity.
Qed.

(** X8. What a run that reaches the loop leaves in the batch directory:
    the old result files are gone and the files of the batches have been
    written in order.  When nobody interrupts and the time elapsed is not
    zero, they are the files of all the batches and the run returns at
    Completed.  When the operator interrupts at the [await] of the batch
    [k], they are the files of the batches before [k]: the work done is
    kept, but the coroutine is cancelled and returns no value, and
    [run_validation] raises [KeyboardInterrupt] instead of returning
    [False]. *)
Theorem run_keeps_the_finished_batches :
  let bs := effective_batch_size env batch_size in
  let m := Z.to_nat (num_batches (Z.of_nat (List.length data)) bs) in
  let dir1 :=
    backup_old_files
      (match lotes_dir env with Some d => d | None => [] end) in
  let files j :=
    map (batch_file json_loads exn_str cfg env kb data bs) (seq 0 j) in
  (interrupt_at env = None ->
   Qeq_bool (elapsed_seconds env) 0 = false ->
   run_validation_async json_loads exn_str cfg env batch_size auto_confirm
   = (Completed, fold_left write (files m) dir1))
  /\ (forall k,
        interrupt_at env = Some k ->
        k < m ->
        run_validation_async json_loads exn_str cfg env batch_size
          auto_confirm
        = (Cancelled, fold_left write (files k) dir1)
        /\ returned Cancelled = None
        /\ (batch_size = None ->
            run_validation json_loads exn_str cfg env auto_confirm
            = (KeyboardInterrupt, fold_left write (files k) dir1))).
Proof.
  intros bs m dir1 files. split.
  - intros Hint Hel. rewrite run_from_loop. cbv zeta.
    rewrite batches_loop_runs.
    + fold bs. fold m. rewrite Hel. reflexivity.
    + intros b _. unfold interrupted_in. now rewrite Hint.
  - intros k Hint Hk.
    assert (Hrun : run_validation_async json_loads exn_str cfg env
                     batch_size auto_confirm
                   = (Cancelled, fold_left write (files k) dir1)).
    { rewrite run_from_loop. cbv zeta. fold bs. fold m.
      replace (seq 0 m) with (seq 0 k ++ k :: seq (S k) (m - S k)).
      - rewrite batches_loop_stops; [reflexivity | |].
        + intros b Hb. apply in_seq in Hb.
          unfold interrupted_in. rewrite Hint.
          apply Nat.eqb_neq. lia.
        + unfold interrupted_in. rewrite Hint. apply Nat.eqb_refl.
      - change (k :: seq (S k) (m - S k)) with (seq k (S (m - S k))).
        rewrite <- seq_app. f_equal. lia. }
    split; [exact Hrun |]. split; [reflexivity |].
    intros Hnone. unfold run_validation. rewrite <- Hnone, Hrun.
    reflexivity.
Qed.

End Run.

(** A run over one case, in a directory that holds a result file of an
    earlier run and a file of notes. *)
Definition sample_lines : list string :=
  [ValidadorProps.clean_line "A" "me robaron el celular" ["9"] ["d1"]].

Definition sample_kb : knowledge_base :=
  {| kb_version := Some (JStr "3");
     kb_prompt := fun observacion => Ok ("sistema", Show.py_str observacion) |}.

Definition sample_env : run_env :=
  {| prompt_version := JStr "3";
     loaded_kb := Ok sample_kb;
     clean_file := Some sample_lines;
     config_batch_size := 100;
     typed := EmptyString;
     lotes_dir :=
       Some [("resultados_lote_1_20240101_0000.jsonl", ["viejo"]);
             ("notas.txt", [])];
     init_error := None;
     interrupt_at := None;
     endpoint_of :=
       endpoint_of (ValidadorProps.quiet_env sample_lines);
     random_of := fun _ _ _ => F64Props.zero;
     now_of := fun _ _ => "2025-12-29T10:00:00";
     stamp_of := fun _ => "20251229_1000";
     elapsed_seconds := 1%Q |}.

Definition sample_data : list obj :=
  fst (load_clean_lines Json.loads sample_lines).

Lemma sample_reaches_loop :
  ValidadorProps.reaches_loop Json.loads sample_env None true sample_data.
Proof.
  unfold ValidadorProps.reaches_loop. repeat split.
  - exists sample_kb. split; reflexivity.
  - exists (snd (load_clean_lines Json.loads sample_lines)).
    vm_compute. reflexivity.
  - vm_compute. discriminate.
  - vm_compute. discriminate.
  - now left.
Defined.

(** A run over two cases in batches of one, which the operator interrupts
    at the second batch. *)
Definition two_lines : list string :=
  [ValidadorProps.clean_line "A" "me robaron el celular" ["9"] ["d1"];
   ValidadorProps.clean_line "B" "me estafaron" ["23"] ["d2"]].

Definition interrupted_env : run_env :=
  {| prompt_version := JStr "3";
     loaded_kb := Ok sample_kb;
     clean_file := Some two_lines;
     config_batch_size := 1;
     typed := EmptyString;
     lotes_dir := lotes_dir sample_env;
     init_error := None;
     interrupt_at := Some 1;
     endpoint_of := endpoint_of sample_env;
     random_of := fun _ _ _ => F64Props.zero;
     now_of := fun _ _ => "2025-12-29T10:00:00";
     stamp_of := fun _ => "20251229_1000";
     elapsed_seconds := 1%Q |}.

Definition two_cases : list obj :=
  fst (load_clean_lines Json.loads two_lines).

Lemma interrupted_reaches_loop :
  ValidadorProps.reaches_loop Json.loads interrupted_env None true two_cases.
Proof.
  unfold ValidadorProps.reaches_loop. repeat split.
  - exists sample_kb. split; reflexivity.
  - exists (snd (load_clean_lines Json.loads two_lines)).
    vm_compute. reflexivity.
  - vm_compute. discriminate.
  - vm_compute. discriminate.
  - now left.
Defined.

Lemma run_keeps_the_finished_batches_witness :
  run_validation_async Json.loads ValidadorProps.no_text
    ValidadorProps.default_cfg sample_env None true
  = (Completed,
     fold_left write
       (map (batch_file Json.loads ValidadorProps.no_text
               ValidadorProps.default_cfg sample_env sample_kb sample_data
               (effective_batch_size sample_env None))
            (seq 0 (Z.to_nat
                      (num_batches (Z.of_nat (List.length sample_data))
                         (effective_batch_size sample_env None)))))
       (backup_old_files
          (match lotes_dir sample_env with Some d => d | None => [] end)))
  /\ run_validation Json.loads ValidadorProps.no_text
       ValidadorProps.default_cfg interrupted_env true
     = (KeyboardInterrupt,
        fold_left write
          (map (batch_file Json.loads ValidadorProps.no_text
                  ValidadorProps.default_cfg interrupted_env sample_kb
                  two_cases (effective_batch_size interrupted_env None))
               (seq 0 1))
          (backup_old_files
             (match lotes_dir interrupted_env with
              | Some d => d
              | None => []
              end))).
Proof.
  split.
  - exact (proj1 (run_keeps_the_finished_batches Json.loads
                    ValidadorProps.no_text ValidadorProps.default_cfg
                    sample_env None true sample_data sample_kb
                    sample_reaches_loop eq_refl)
             eq_refl eq_refl).
  - refine (proj2 (proj2 (proj2 (run_keeps_the_finished_batches Json.loads
                    ValidadorProps.no_text ValidadorProps.default_cfg
                    interrupted_env None true two_cases sample_kb
                    interrupted_reaches_loop eq_refl)
             1 eq_refl _)) eq_refl).
    vm_compute. lia.
Defined.

End BatchProps.

(* ------------------------------------------------------------------ *)
(** ** From the validator to the consolidator: the batch directory *)

Module HandoffProps.

Import Validador Lotes GlobProps BatchProps.











Lemma filter_none {A : Type} (p : A -> bool) (l : list A) :
  (forall x, In x l -> p x = false) -> filter p l = [].
Proof.
  induction l as [| x l IH]; intros H; simpl; [reflexivity |].
  rewrite (H x) by now left. apply IH. intros y Hy. apply H. now right.
Qed.



Section Run.
Variable json_loads : string -> result json.
Variable exn_str : exn -> string.
Variable cfg : api_config.
Variable env : run_env.
Variable batch_size : option Z.
Variable auto_confirm : bool.
Variable data : list obj.
Variable kb : knowledge_base.

Hypothesis reaches :
  ValidadorProps.reaches_loop json_loads env batch_size auto_confirm data.
Hypothesis loaded : loaded_kb env = Ok kb.









End Run.


End HandoffProps.

(* ------------------------------------------------------------------ *)
(** ** The consolidator, for every batch directory *)

Module ConsolidatorProps.

Import Validador Lotes LotesProps.

Section Loading.
Variable json_loads : string -> result json.

(** The sum of the three counters of the processor. *)
Definition set_aside (st : load_state) : nat :=
  json_decode_errors st + general_parse_errors st + skipped_no_id st.

(** The lines that reach [unified_data[record_id] = record]. *)
Definition stored (line : string) : bool :=
  match line_entry json_loads line with Some _ => true | None => false end.

Lemma load_line_counts (st : load_state) (line : string) :
  set_aside (load_line json_loads st line)
  + (if stored line then 1 else 0)
  = S (set_aside st)
  /\ List.length (unified_data (load_line json_loads st line))
     <= List.length (unified_data st) + (if stored line then 1 else 0).
Proof.
  rewrite load_line_unified.
  unfold stored, line_entry, load_line, set_aside.
  destruct (record <- json_loads (Str.strip line) ;; normalize_id record)
    as [[record_id record] | e].
  - destruct (truthy record_id); simpl.
    + unfold idmap_set. destruct (hashable record_id); simpl.
      * split; [lia |]. rewrite DictProps.set_length.
        destruct (Dict.mem key_eqb record_id (unified_data st)); lia.
      * split; lia.
    + split; lia.
  - destruct e; simpl; split; lia.
Qed.

Lemma load_lines_count (lines : list string) :
  forall st,
    set_aside (fold_left (load_line json_loads) lines st)
    + List.length (filter stored lines)
    = set_aside st + List.length lines
    /\ List.length (unified_data (fold_left (load_line json_loads) lines st))
       <= List.length (unified_data st) + List.length (filter stored lines).
Proof.
  induction lines as [| line lines IH]; intros st; simpl; [lia |].
  destruct (IH (load_line json_loads st line)) as [H1 H2].
  destruct (load_line_counts st line) as [H3 H4].
  destruct (stored line); simpl; lia.
Qed.

Lemma load_files_count (files : list (string * list string)) :
  forall st,
    set_aside (fold_left (load_file json_loads) files st)
    + List.length (filter stored (concat (map snd files)))
    = set_aside st + List.length (concat (map snd files))
    /\ List.length (unified_data (fold_left (load_file json_loads) files st))
       <= List.length (unified_data st)
          + List.length (filter stored (concat (map snd files))).
Proof.
  induction files as [| f files IH]; intros st; simpl; [lia |].
  destruct (IH (load_file json_loads st f)) as [H1 H2].
  destruct (load_lines_count (snd f) st) as [H3 H4].
  unfold load_file in *. rewrite filter_app, !length_app. lia.
Qed.

(** X10. Every line of the batch files read is accounted for once: it is
    counted as invalid JSON, as a parse error, as a record without
    identifier, or it is stored.  So the three counters and the number of
    stored lines add up to the number of lines, and the unified dictionary
    has at most one record per stored line (fewer when a later line
    overwrites an earlier one). *)
Theorem every_line_is_accounted_for
  (dir fs : list (string * list string)) (st : load_state) :
  find_batch_files dir = Ok fs ->
  load_batch_files json_loads dir = Ok st ->
  let lines := concat (map snd fs) in
  json_decode_errors st + general_parse_errors st + skipped_no_id st
  + List.length (filter stored lines)
  = List.length lines
  /\ List.length (unified_data st) <= List.length (filter stored lines).
Proof.
  unfold load_batch_files. cbv zeta. intros Hfs Hst.
  rewrite Hfs in Hst. simpl in Hst. injection Hst as <-.
  destruct (load_files_count fs initial_state) as [H1 H2].
  unfold set_aside in H1. simpl in H1, H2. split; [exact H1 | exact H2].
Qed.

(** The unified dictionary is keyed by usable identifiers, all different,
    and every record carries, under [id], an identifier equal to its
    key. *)
Definition keyed (kv : json * json) : Prop :=
  truthy (fst kv) = true
  /\ hashable (fst kv) = true
  /\ exists o id,
      snd kv = JObj o
      /\ obj_lookup "id" o = Some id
      /\ key_eqb id (fst kv) = true.

Definition different (a b : json * json) : Prop :=
  key_eqb (fst a) (fst b) = false.

Definition well_keyed (d : list (json * json)) : Prop :=
  Forall keyed d /\ ForallOrdPairs different d.

Lemma obj_lookup_set (k : string) (v : json) (o : list (string * json)) :
  obj_lookup k (obj_set k v o) = Some v.
Proof.
  unfold obj_lookup, obj_set.
  induction o as [| [k' v'] o IH]; simpl.
  - now rewrite String.eqb_refl.
  - destruct (String.eqb k k') eqn:E; simpl; rewrite E; auto.
Qed.

(** A record that [normalize_id] accepts is an object that carries the
    identifier returned. *)
Lemma normalize_id_carries (record record' record_id : json) :
  normalize_id record = Ok (record_id, record') ->
  truthy record_id = true ->
  exists o, record' = JObj o /\ obj_lookup "id" o = Some record_id.
Proof.
  unfold normalize_id. intros H Ht.
  destruct record as [| b | z | s | l | o]; try discriminate.
  - (* a text *)
    simpl in H. destruct (Str.contains "id" s); [discriminate |].
    destruct (Str.contains "case_id" s); [discriminate |].
    destruct (Str.contains "id_observacion" s); [discriminate |].
    inv_ok. discriminate.
  - (* a list *)
    simpl in H.
    repeat match type of H with
           | context [if ?c then _ else _] => destruct c; try discriminate
           end.
    inv_ok. discriminate.
  - (* an object *)
    simpl in H. unfold obj_mem, Dict.mem in H. fold (obj_lookup "id" o) in H.
    destruct (obj_lookup "id" o) as [v |] eqn:Hid.
    + simpl in H. inv_ok. eauto.
    + fold (obj_lookup "case_id" o) in H.
      destruct (obj_lookup "case_id" o) as [v |] eqn:Hcase.
      * simpl in H. inv_ok. eexists. split; [reflexivity |].
        apply obj_lookup_set.
      * fold (obj_lookup "id_observacion" o) in H.
        destruct (obj_lookup "id_observacion" o) as [v |] eqn:Hobs.
        -- simpl in H. inv_ok. eexists. split; [reflexivity |].
           apply obj_lookup_set.
        -- inv_ok. discriminate.
Qed.

Lemma line_entry_keyed (line : string) (k r : json) :
  line_entry json_loads line = Some (k, r) -> keyed (k, r).
Proof.
  unfold line_entry. intros H.
  destruct (record <- json_loads (Str.strip line) ;; normalize_id record)
    as [[record_id record'] | e] eqn:E; [| discriminate].
  destruct (truthy record_id) eqn:Ht; [| discriminate].
  destruct (hashable record_id) eqn:Hh; [| discriminate].
  simpl in H. inv_ok.
  apply bind_ok in E. destruct E as (record & _ & E).
  destruct (normalize_id_carries _ _ _ E Ht) as (o & -> & Hid).
  repeat split; auto. exists o, k. repeat split; auto.
  now apply key_eqb_refl.
Qed.

Lemma lookup_none_different (k : json) (d : list (json * json)) :
  Dict.lookup key_eqb k d = None ->
  Forall (fun kv => key_eqb k (fst kv) = false) d.
Proof.
  induction d as [| [k' v] d IH]; simpl; intros H; constructor.
  - simpl. destruct (key_eqb k k'); [discriminate | reflexivity].
  - destruct (key_eqb k k'); [discriminate | auto].
Qed.

Lemma ForallOrdPairs_snoc {A : Type} (R : A -> A -> Prop) (l : list A)
  (x : A) :
  ForallOrdPairs R l -> Forall (fun a => R a x) l ->
  ForallOrdPairs R (l ++ [x]).
Proof.
  induction 1 as [| a l Ha Hl IH]; intros Hx; simpl.
  - constructor; constructor.
  - inversion Hx; subst. constructor.
    + apply Forall_app. split; [exact Ha | now constructor].
    + now apply IH.
Qed.

Lemma set_well_keyed (k r : json) (d : list (json * json)) :
  keyed (k, r) -> well_keyed d -> well_keyed (Dict.set key_eqb k r d).
Proof.
  intros Hk [Hd Hp].
  destruct (Dict.lookup key_eqb k d) as [old |] eqn:Hl.
  - (* the key is there: its record is replaced *)
    clear Hl. induction d as [| [k' v] d IH]; simpl.
    + split; [constructor; [exact Hk | constructor] | constructor; constructor].
    + inversion Hd as [| ? ? Hkv Hd']; subst.
      inversion Hp as [| ? ? Hall Hp']; subst.
      destruct (key_eqb k k') eqn:E.
      * split; [constructor; [| exact Hd'] | constructor; assumption].
        destruct Hk as (Ht & Hh & o & id & Hr & Hid & Heq).
        destruct Hkv as (Ht' & Hh' & _).
        repeat split; auto. exists o, id. repeat split; auto.
        simpl in *. now apply (DictProps.key_eqb_trans id k k').
      * destruct (IH Hd' Hp') as [H1 H2].
        split; [constructor; assumption |].
        constructor; [| exact H2].
        clear - Hall E. unfold different in *. simpl in *.
        induction d as [| [k2 v2] d IHd]; simpl.
        -- constructor; [| constructor]. simpl.
           rewrite DictProps.key_eqb_sym. exact E.
        -- inversion Hall; subst.
           destruct (key_eqb k k2); constructor; auto.
  - rewrite DictProps.set_absent by exact Hl. split.
    + apply Forall_app. split; [exact Hd | constructor; [exact Hk | constructor]].
    + apply ForallOrdPairs_snoc; [exact Hp |].
      apply lookup_none_different in Hl.
      eapply Forall_impl; [| exact Hl].
      intros [k' v] H. unfold different. simpl in *.
      rewrite DictProps.key_eqb_sym. exact H.
Qed.

Lemma load_line_well_keyed (st : load_state) (line : string) :
  well_keyed (unified_data st) ->
  well_keyed (unified_data (load_line json_loads st line)).
Proof.
  intros H. rewrite load_line_unified.
  destruct (line_entry json_loads line) as [[k r] |] eqn:E; [| exact H].
  apply set_well_keyed; [| exact H]. exact (line_entry_keyed line k r E).
Qed.

Lemma load_files_well_keyed (files : list (string * list string)) :
  forall st,
    well_keyed (unified_data st) ->
    well_keyed (unified_data (fold_left (load_file json_loads) files st)).
Proof.
  induction files as [| f files IH]; intros st H; simpl; [exact H |].
  apply IH. unfold load_file. generalize dependent st.
  induction (snd f) as [| line lines IHl]; intros st H; simpl; [exact H |].
  apply IHl. now apply load_line_well_keyed.
Qed.

(** X11. In the dictionary that [load_batch_files] returns every key is a
    usable identifier (truthy and hashable), no two keys are equal, and
    every record is an object that carries under [id] an identifier equal
    to its key, also when the batch file named it [case_id] or
    [id_observacion]. *)
Theorem unified_records_carry_their_key
  (dir : list (string * list string)) (st : load_state) :
  load_batch_files json_loads dir = Ok st ->
  Forall keyed (unified_data st)
  /\ ForallOrdPairs different (unified_data st).
Proof.
  unfold load_batch_files. intros H.
  apply bind_ok in H. destruct H as (fs & _ & H). inv_ok.
  apply load_files_well_keyed. split; constructor.
Qed.

(** X12. The order in which the directory lists its entries does not reach
    the result: two listings of the same entries, with distinct names, give
    the same unified dictionary and the same counters. *)
Theorem listing_order_is_irrelevant (dir dir' : list (string * list string)) :
  NoDup (map fst dir) ->
  Permutation dir dir' ->
  load_batch_files json_loads dir = load_batch_files json_loads dir'.
Proof.
  intros Hnd Hp. unfold load_batch_files.
  now rewrite (find_batch_files_deterministic dir dir' Hnd Hp).
Qed.

End Loading.

Lemma every_line_is_accounted_for_witness :
  exists st,
    load_batch_files Json.loads rerun_dir = Ok st
    /\ json_decode_errors st + general_parse_errors st + skipped_no_id st
       + List.length
           (filter (stored Json.loads)
              (concat (map snd (sort_files rerun_dir))))
       = List.length (concat (map snd (sort_files rerun_dir)))
    /\ List.length (unified_data st)
       <= List.length
            (filter (stored Json.loads)
               (concat (map snd (sort_files rerun_dir)))).
Proof.
  eexists. split; [reflexivity |].
  exact (every_line_is_accounted_for Json.loads rerun_dir
           (sort_files rerun_dir) _ eq_refl eq_refl).
Defined.

Lemma unified_records_carry_their_key_witness :
  exists st,
    load_batch_files Json.loads rerun_dir = Ok st
    /\ Forall keyed (unified_data st)
    /\ ForallOrdPairs different (unified_data st).
Proof.
  eexists. split; [reflexivity |].
  exact (unified_records_carry_their_key Json.loads rerun_dir _ eq_refl).
Defined.

Lemma listing_order_is_irrelevant_witness :
  load_batch_files Json.loads rerun_dir
  = load_batch_files Json.loads (rev rerun_dir).
Proof.
  apply listing_order_is_irrelevant.
  - vm_compute. repeat constructor; simpl; intuition discriminate.
  - apply Permutation_rev.
Defined.

End ConsolidatorProps.

(* ------------------------------------------------------------------ *)
(** ** The flattened view, for every unified dictionary *)

Module FlattenProps.

Import Validador Lotes LotesProps.

(** A unified record whose identifier has a truthy reference entry: the
    test of lines 230 to 232. *)
Definition referenced (reference_data : list (json * json))
  (kv : json * json) : bool :=
  match Dict.lookup key_eqb (fst kv) reference_data with
  | Some ref_record => truthy ref_record
  | None => false
  end.

Lemma truthy_iter (v : json) (items : list json) :
  truthy v = true -> py_iter v = Ok items -> items <> [].
Proof.
  destruct v as [| b | z | s | l | o]; simpl; intros Ht H;
    try discriminate; inv_ok.
  - destruct s as [| c s]; [discriminate |]. unfold chars.
    cbn [Str.codepoints].
    destruct (Str.codepoints s) as [| cp rest];
      [| destruct (Str.starts_inside cp)]; discriminate.
  - destruct items; [discriminate | discriminate].
  - destruct o; [discriminate | simpl; discriminate].
Qed.

Section Rows.
Variable json_loads : string -> result json.
Variable complex : bool.
Variable reference_data : list (json * json).

Lemma crime_ids_of_truthy (ref_record crime_ids : json) :
  crime_ids_of json_loads ref_record = Ok crime_ids ->
  truthy crime_ids = true.
Proof.
  unfold crime_ids_of. intros H.
  apply bind_ok in H. destruct H as (c & _ & H). inv_ok.
  destruct (truthy c) eqn:E; simpl; [exact E | reflexivity].
Qed.

Lemma make_row_ids (crime_id obs_id unified_record : json)
  (predicted_details : list (string * json)) (r : row) :
  make_row crime_id obs_id unified_record predicted_details = Ok r ->
  id_delito_ia r = crime_id /\ id_observacion r = obs_id.
Proof.
  unfold make_row. intros H.
  repeat (apply bind_ok in H; destruct H as (? & _ & H)).
  inv_ok. split; reflexivity.
Qed.

Lemma expand_rows (obs_id unified_record : json)
  (predicted_details : list (string * json)) :
  forall ids rows0 rows,
    foldM (fun rows crime_id =>
             r <- make_row crime_id obs_id unified_record predicted_details ;;
             Ok (rows ++ [r])) ids rows0 = Ok rows ->
    exists new,
      rows = rows0 ++ new
      /\ map id_delito_ia new = ids
      /\ Forall (fun r => id_observacion r = obs_id) new.
Proof.
  induction ids as [| crime_id ids IH]; intros rows0 rows H; simpl in H.
  - inv_ok. exists []. rewrite app_nil_r. repeat split; constructor.
  - apply bind_ok in H. destruct H as (rows1 & H1 & H).
    apply bind_ok in H1. destruct H1 as (r & Hr & H1). inv_ok.
    destruct (IH _ _ H) as (new & -> & Hids & Hobs).
    destruct (make_row_ids _ _ _ _ _ Hr) as [Hc Ho].
    exists (r :: new). rewrite <- app_assoc. repeat split.
    + simpl. now rewrite Hc, Hids.
    + now constructor.
Qed.

(** The rows and the issues that one unified record contributes. *)
Lemma unnest_record_rows (obs_id unified_record : json) (rows : list row)
  (issues : list issue) :
  unnest_record json_loads complex reference_data obs_id unified_record
  = Ok (rows, issues) ->
  Forall (fun r => id_observacion r = obs_id) rows
  /\ if referenced reference_data (obs_id, unified_record)
     then 1 <= List.length rows
          /\ List.length issues <= 1
          /\ (complex = false ->
              map id_delito_ia rows = [obs_id])
     else rows = [] /\ issues = [].
Proof.
  unfold unnest_record, referenced. cbn [fst].
  destruct (Dict.lookup key_eqb obs_id reference_data) as [ref_record |];
    [| intros H; inv_ok; split; [constructor | auto]].
  destruct (truthy ref_record); cbn [negb];
    [| intros H; inv_ok; split; [constructor | auto]].
  intros H.
  apply bind_ok in H. destruct H as (raw & _ & H).
  apply bind_ok in H. destruct H as (details & _ & H).
  apply bind_ok in H. destruct H as (predicted & _ & H).
  apply bind_ok in H. destruct H as (codes & _ & H).
  cbv zeta in H.
  match type of H with
  | context [if same_set ?a ?b then _ else _] =>
      set (found := if same_set a b then [] else _) in H
  end.
  assert (Hfound : List.length found <= 1)
    by (unfold found; destruct (same_set _ _); simpl; lia).
  destruct complex.
  - apply bind_ok in H. destruct H as (crime_ids & Hc & H).
    apply bind_ok in H. destruct H as (ids & Hi & H).
    apply bind_ok in H. destruct H as (rows' & Hr & H). inv_ok.
    destruct (expand_rows _ _ _ _ _ _ Hr) as (new & -> & Hids & Hobs).
    simpl. split; [exact Hobs |]. split; [| split; [exact Hfound |]].
    + pose proof (truthy_iter _ _ (crime_ids_of_truthy _ _ Hc) Hi) as Hne.
      rewrite <- (length_map id_delito_ia), Hids.
      destruct ids; [contradiction | simpl; lia].
    + discriminate.
  - apply bind_ok in H. destruct H as (r & Hr & H). inv_ok.
    destruct (make_row_ids _ _ _ _ _ Hr) as [Hc Ho].
    split; [constructor; [exact Ho | constructor] |].
    split; [simpl; lia |]. split; [exact Hfound |].
    intros _. simpl. now rewrite Hc.
Qed.

Lemma unnest_loop_rows :
  forall items rows0 issues0 rows issues,
    unnest_loop json_loads complex reference_data items rows0 issues0
    = Ok (rows, issues) ->
    let matched := filter (referenced reference_data) items in
    exists new,
      rows = rows0 ++ new
      /\ List.length matched <= List.length new
      /\ Forall (fun r => In (id_observacion r) (map fst matched)) new
      /\ List.length issues <= List.length issues0 + List.length matched
      /\ (complex = false ->
          map id_observacion new = map fst matched
          /\ map id_delito_ia new = map fst matched).
Proof.
  induction items as [| [obs_id unified_record] items IH];
    intros rows0 issues0 rows issues H; simpl in H.
  - inv_ok. exists []. rewrite app_nil_r. simpl.
    repeat split; auto; try constructor; lia.
  - apply bind_ok in H. destruct H as ([rows1 issues1] & H1 & H).
    cbv zeta in H.
    destruct (IH _ _ _ _ H) as (new & -> & Hlen & Hobs & Hiss & Hsimple).
    destruct (unnest_record_rows _ _ _ _ H1) as [Hid Hcase].
    exists (rows1 ++ new). rewrite app_assoc. split; [reflexivity |].
    cbn [filter].
    destruct (referenced reference_data (obs_id, unified_record)).
    + destruct Hcase as (Hone & Hi1 & Hs1).
      cbn [List.length map fst].
      split; [rewrite length_app; lia |]. split; [| split].
      * apply Forall_app. split.
        -- eapply Forall_impl; [| exact Hid].
           intros r ->. now left.
        -- eapply Forall_impl; [| exact Hobs].
           intros r Hr. now right.
      * rewrite length_app in Hiss. lia.
      * intros Hc. destruct (Hsimple Hc) as [Ha Hb].
        specialize (Hs1 Hc). rewrite !map_app, Ha, Hb, Hs1.
        split; [| reflexivity]. f_equal.
        destruct rows1 as [| r [| r' rows1]]; try discriminate.
        inversion Hid; subst. simpl. now f_equal.
    + destruct Hcase as [-> ->]. simpl.
      split; [exact Hlen |]. split; [exact Hobs |].
      split; [simpl in Hiss; rewrite app_nil_r in Hiss; exact Hiss |].
      exact Hsimple.
Qed.

(** The parsing issue of a record carries its identifier. *)
Lemma unnest_record_issues (obs_id unified_record : json) (rows : list row)
  (issues : list issue) :
  unnest_record json_loads complex reference_data obs_id unified_record
  = Ok (rows, issues) ->
  Forall (fun i => issue_id i = obs_id) issues.
Proof.
  unfold unnest_record.
  destruct (Dict.lookup key_eqb obs_id reference_data) as [ref_record |];
    [| intros H; inv_ok; constructor].
  destruct (truthy ref_record); cbn [negb];
    [| intros H; inv_ok; constructor].
  intros H.
  apply bind_ok in H. destruct H as (raw & _ & H).
  apply bind_ok in H. destruct H as (details & _ & H).
  apply bind_ok in H. destruct H as (predicted & _ & H).
  apply bind_ok in H. destruct H as (codes & _ & H).
  cbv zeta in H.
  match type of H with
  | context [if same_set ?a ?b then _ else _] =>
      set (found := if same_set a b then [] else _) in H
  end.
  assert (Hfound : Forall (fun i => issue_id i = obs_id) found)
    by (unfold found; destruct (same_set _ _); repeat constructor).
  destruct complex.
  - apply bind_ok in H. destruct H as (crime_ids & _ & H).
    apply bind_ok in H. destruct H as (ids & _ & H).
    apply bind_ok in H. destruct H as (rows' & _ & H). now inv_ok.
  - apply bind_ok in H. destruct H as (r & _ & H). now inv_ok.
Qed.

(** What a unified record with a truthy reference entry contributes: at
    least one row, every row with the identifier of the record, and at
    most one parsing issue, with that identifier; without expansion, one
    row, with the identifier in both columns. *)
Definition contributes (kv : json * json) (part : list row * list issue)
  : Prop :=
  fst part <> []
  /\ Forall (fun r => id_observacion r = fst kv) (fst part)
  /\ List.length (snd part) <= 1
  /\ Forall (fun i => issue_id i = fst kv) (snd part)
  /\ (complex = false ->
      exists r, fst part = [r] /\ id_delito_ia r = fst kv).

Lemma unnest_loop_parts :
  forall items rows0 issues0 rows issues,
    unnest_loop json_loads complex reference_data items rows0 issues0
    = Ok (rows, issues) ->
    exists parts,
      rows = rows0 ++ concat (map fst parts)
      /\ issues = issues0 ++ concat (map snd parts)
      /\ Forall2 contributes (filter (referenced reference_data) items)
           parts.
Proof.
  induction items as [| [obs_id unified_record] items IH];
    intros rows0 issues0 rows issues H; simpl in H.
  - inv_ok. exists []. simpl. rewrite !app_nil_r.
    repeat split. constructor.
  - apply bind_ok in H. destruct H as ([rows1 issues1] & H1 & H).
    cbv zeta in H.
    destruct (IH _ _ _ _ H) as (parts & -> & -> & Hparts).
    destruct (unnest_record_rows _ _ _ _ H1) as [Hid Hcase].
    pose proof (unnest_record_issues _ _ _ _ H1) as Hiss.
    cbn [filter].
    destruct (referenced reference_data (obs_id, unified_record)).
    + destruct Hcase as (Hone & Hi1 & Hs1).
      exists ((rows1, issues1) :: parts). cbn [map concat fst snd].
      rewrite !app_assoc. split; [reflexivity |]. split; [reflexivity |].
      constructor; [| exact Hparts].
      unfold contributes. cbn [fst snd].
      split; [destruct rows1; [simpl in Hone; lia | discriminate] |].
      split; [exact Hid |]. split; [exact Hi1 |]. split; [exact Hiss |].
      intros Hc. specialize (Hs1 Hc).
      destruct rows1 as [| r [| r' rows1]]; try discriminate.
      exists r. split; [reflexivity |]. now injection Hs1.
    + destruct Hcase as [-> ->]. exists parts.
      rewrite !app_nil_r. auto.
Qed.

(** X13. When [create_unnested_format] returns, its rows and its parsing
    issues follow the unified records that have a truthy reference entry,
    record by record and in the order of the unified dictionary: each such
    record contributes at least one row and at most one parsing issue, all
    with its identifier, the rows and the issues are those contributions
    one after the other, and the other records contribute nothing.  In the
    mode without expansion each contribution is one row, with the
    identifier of the record in both identifier columns. *)
Theorem rows_follow_the_referenced_records
  (unified_data : list (json * json)) (rows : list row)
  (issues : list issue) :
  create_unnested_format json_loads complex unified_data reference_data
  = Ok (rows, issues) ->
  let matched := filter (referenced reference_data) unified_data in
  (exists parts,
      rows = concat (map fst parts)
      /\ issues = concat (map snd parts)
      /\ Forall2 contributes matched parts)
  /\ (complex = false ->
      map id_observacion rows = map fst matched
      /\ map id_delito_ia rows = map fst matched).
Proof.
  unfold create_unnested_format. cbv zeta. intros H. split.
  - destruct (unnest_loop_parts _ _ _ _ _ H) as (parts & -> & -> & Hparts).
    exists parts. auto.
  - destruct (unnest_loop_rows _ _ _ _ _ H)
      as (new & -> & _ & _ & _ & Hsimple).
    exact Hsimple.
Qed.

(** The row [r] with another crime identifier. *)
Definition with_crime_id (crime_id : json) (r : row) : row :=
  {| id_delito_ia := crime_id;
     id_observacion := id_observacion r;
     observacion := observacion r;
     expected_codes_obs := expected_codes_obs r;
     predicted_codes_obs := predicted_codes_obs r;
     razonamiento_general_modelo := razonamiento_general_modelo r;
     predicciones_detalladas_modelo := predicciones_detalladas_modelo r;
     timestamp := timestamp r;
     processing_error := processing_error r |}.

Lemma make_row_with (crime_id crime_id' obs_id unified_record : json)
  (predicted_details : list (string * json)) (r : row) :
  make_row crime_id obs_id unified_record predicted_details = Ok r ->
  make_row crime_id' obs_id unified_record predicted_details
  = Ok (with_crime_id crime_id' r).
Proof.
  unfold make_row. intros H.
  apply bind_ok in H. destruct H as (a & -> & H).
  apply bind_ok in H. destruct H as (b & -> & H).
  apply bind_ok in H. destruct H as (c & -> & H).
  apply bind_ok in H. destruct H as (d & -> & H).
  apply bind_ok in H. destruct H as (e & -> & H).
  apply bind_ok in H. destruct H as (f & -> & H).
  inv_ok. reflexivity.
Qed.

Lemma expand_rows_base (obs_id unified_record : json)
  (predicted_details : list (string * json)) (crime_id0 : json) (base : row) :
  make_row crime_id0 obs_id unified_record predicted_details = Ok base ->
  forall ids rows0 rows,
    foldM (fun rows crime_id =>
             r <- make_row crime_id obs_id unified_record predicted_details ;;
             Ok (rows ++ [r])) ids rows0 = Ok rows ->
    rows = rows0 ++ map (fun crime_id => with_crime_id crime_id base) ids.
Proof.
  intros Hbase.
  induction ids as [| crime_id ids IH]; intros rows0 rows H; simpl in H.
  - inv_ok. now rewrite app_nil_r.
  - rewrite (make_row_with _ crime_id _ _ _ _ Hbase) in H. simpl in H.
    rewrite (IH _ _ H). now rewrite <- app_assoc.
Qed.

(** X14. In the mode with expansion a unified record that has a truthy
    reference entry gives one row for each original crime identifier of
    the reference record, in their order, and at least one; the rows of a
    record differ in the crime identifier only.  When the reference record
    has no [messages] the list is the single identifier [None]. *)
Theorem expansion_follows_the_crime_ids
  (obs_id unified_record ref_record : json) (rows : list row)
  (issues : list issue) :
  complex = true ->
  Dict.lookup key_eqb obs_id reference_data = Some ref_record ->
  truthy ref_record = true ->
  unnest_record json_loads complex reference_data obs_id unified_record
  = Ok (rows, issues) ->
  exists crime_ids ids base,
    crime_ids_of json_loads ref_record = Ok crime_ids
    /\ py_iter crime_ids = Ok ids
    /\ ids <> []
    /\ rows = map (fun crime_id => with_crime_id crime_id base) ids
    /\ (py_getitem ref_record "messages" = Raise KeyError ->
        ids = [JNull]).
Proof.
  intros -> Hlook Htruthy. unfold unnest_record. rewrite Hlook, Htruthy.
  cbn [negb]. intros H.
  apply bind_ok in H. destruct H as (raw & _ & H).
  apply bind_ok in H. destruct H as (details & _ & H).
  apply bind_ok in H. destruct H as (predicted & _ & H).
  apply bind_ok in H. destruct H as (codes & _ & H).
  cbv zeta in H.
  apply bind_ok in H. destruct H as (crime_ids & Hc & H).
  apply bind_ok in H. destruct H as (ids & Hi & H).
  apply bind_ok in H. destruct H as (rows' & Hr & H). inv_ok.
  pose proof (truthy_iter _ _ (crime_ids_of_truthy _ _ Hc) Hi) as Hne.
  destruct ids as [| crime_id0 ids]; [contradiction |].
  assert (Hbase : exists base,
             make_row crime_id0 obs_id unified_record details = Ok base).
  { simpl in Hr. apply bind_ok in Hr. destruct Hr as (rows1 & H1 & _).
    apply bind_ok in H1. destruct H1 as (r & Hrow & _). eauto. }
  destruct Hbase as (base & Hbase).
  exists crime_ids, (crime_id0 :: ids), base.
  split; [exact Hc |]. split; [exact Hi |]. split; [discriminate |].
  split; [exact (expand_rows_base _ _ _ _ _ Hbase _ _ _ Hr) |].
  intros Hkey. unfold crime_ids_of in Hc. rewrite Hkey in Hc.
  simpl in Hc. inv_ok. simpl in Hi. now inv_ok.
Qed.

End Rows.

Lemma rows_follow_the_referenced_records_witness :
  exists rows issues,
    create_unnested_format Json.loads false
      [(JStr "A", record_of "A" "uno"); (JStr "Z", record_of "Z" "dos")]
      [(JStr "A", JObj [("id", JStr "A")])]
    = Ok (rows, issues)
    /\ map id_observacion rows = [JStr "A"]
    /\ map id_delito_ia rows = [JStr "A"].
Proof.
  eexists. eexists. split; [vm_compute; reflexivity |].
  refine (proj2
            (rows_follow_the_referenced_records Json.loads false
               [(JStr "A", JObj [("id", JStr "A")])]
               [(JStr "A", record_of "A" "uno");
                (JStr "Z", record_of "Z" "dos")]
               _ [] _) eq_refl).
  vm_compute. reflexivity.
Defined.

(** A reference record with two original crime identifiers. *)
Definition two_crimes : json :=
  JObj [("id", JStr "A");
        ("messages",
         JList [JObj [("role", JStr "system"); ("content", JStr "P0P")];
                JObj [("role", JStr "user"); ("content", JStr "texto")];
                JObj [("role", JStr "assistant");
                      ("content",
                       JStr (Show.dumps
                               (JObj [("codigos_delito", strs ["9"]);
                                      ("ids_delito_originales",
                                       strs ["d1"; "d2"])])))]])].

Lemma expansion_follows_the_crime_ids_witness :
  exists rows issues crime_ids ids base,
    unnest_record Json.loads true [(JStr "A", two_crimes)]
      (JStr "A") (record_of "A" "uno")
    = Ok (rows, issues)
    /\ crime_ids_of Json.loads two_crimes = Ok crime_ids
    /\ py_iter crime_ids = Ok ids
    /\ ids <> []
    /\ rows = map (fun crime_id => with_crime_id crime_id base) ids.
Proof.
  eexists. eexists.
  assert (H : unnest_record Json.loads true [(JStr "A", two_crimes)]
                (JStr "A") (record_of "A" "uno")
              = Ok (_, _))
    by (vm_compute; reflexivity).
  destruct (expansion_follows_the_crime_ids Json.loads true
              [(JStr "A", two_crimes)] (JStr "A") (record_of "A" "uno")
              two_crimes _ _ eq_refl eq_refl eq_refl H)
    as (crime_ids & ids & base & Hc & Hi & Hne & Hrows & _).
  exists crime_ids, ids, base. repeat split; assumption.
Defined.

End FlattenProps.

(* ------------------------------------------------------------------ *)
(** ** The clean file, as the validator and the consolidator read it *)

Module CleanProps.

Import Validador Lotes LotesProps.

Section Clean.
Variable json_loads : string -> result json.

(** [len(case_data["ids_delito_originales"])] of a case. *)
Definition original_ids (case_data : obj) : nat :=
  match py_len (obj_get "ids_delito_originales" (JList []) case_data) with
  | Ok n => n
  | Raise _ => 0
  end.

(** What [clean_case] appends: a case with the four keys, in this order,
    built from a line that decodes to an object. *)
Lemma clean_case_shape (line : string) (case_data : obj) (n_ids : nat) :
  clean_case json_loads line = Ok (Some (case_data, n_ids)) ->
  exists record id observacion codigos ids,
    json_loads (Str.strip line) = Ok (JObj record)
    /\ id = obj_get "id" JNull record
    /\ case_data = [("id", id);
                    ("observacion", observacion);
                    ("codigos_esperados", codigos);
                    ("ids_delito_originales", ids)]
    /\ py_len ids = Ok n_ids.
Proof.
  unfold clean_case. intros H.
  apply bind_ok in H. destruct H as (record & Hrec & H).
  apply bind_ok in H. destruct H as (has & _ & H).
  destruct has; [| discriminate].
  apply bind_ok in H. destruct H as (messages & Hm & H).
  apply bind_ok in H. destruct H as (n & _ & H).
  destruct (Nat.leb 3 n); [| discriminate].
  apply bind_ok in H. destruct H as (user & _ & H).
  apply bind_ok in H. destruct H as (observacion & _ & H).
  apply bind_ok in H. destruct H as (assistant & _ & H).
  apply bind_ok in H. destruct H as (content & _ & H).
  apply bind_ok in H. destruct H as (assistant_content & _ & H).
  apply bind_ok in H. destruct H as (ids & _ & H).
  apply bind_ok in H. destruct H as (n' & Hlen & H).
  apply bind_ok in H. destruct H as (id & Hid & H).
  apply bind_ok in H. destruct H as (codigos & _ & H).
  inv_ok.
  destruct record as [| b | z | s | l | o]; try discriminate.
  simpl in Hid. inv_ok.
  exists o, (obj_get "id" JNull o), observacion, codigos, ids.
  repeat split; auto.
Qed.

(** X15. [load_clean_data] never returns more cases than the file has
    lines, every case has the four keys [id], [observacion],
    [codigos_esperados] and [ids_delito_originales], and the number of
    original records it returns is the sum over the cases of the number of
    their original crime identifiers: the lines passed over add nothing. *)
Theorem original_records_are_those_of_the_cases (lines : list string)
  (data : list obj) (total_records_original : nat) :
  load_clean_data json_loads (Some lines)
  = Ok (data, total_records_original) ->
  total_records_original = list_sum (map original_ids data)
  /\ List.length data <= List.length lines
  /\ Forall (fun case_data =>
               map fst case_data
               = ["id"; "observacion"; "codigos_esperados";
                  "ids_delito_originales"]) data.
Proof.
  unfold load_clean_data. intros H. injection H as H.
  revert data total_records_original H.
  induction lines as [| line lines IH]; intros data total H; simpl in H.
  - injection H as <- <-. repeat split; constructor.
  - destruct (load_clean_lines json_loads lines) as [data' total'].
    destruct (IH data' total' eq_refl) as (Ht & Hl & Hk).
    destruct (clean_case json_loads line) as [[[case_data n_ids] |] | e] eqn:E;
      injection H as <- <-; simpl; try (repeat split; auto; lia).
    destruct (clean_case_shape _ _ _ E)
      as (record & id & observacion & codigos & ids & _ & _ & -> & Hlen).
    assert (Ho : original_ids
                   [("id", id); ("observacion", observacion);
                    ("codigos_esperados", codigos);
                    ("ids_delito_originales", ids)] = n_ids).
    { unfold original_ids.
      change (obj_get "ids_delito_originales" (JList []) _) with ids.
      now rewrite Hlen. }
    repeat split.
    + change (list_sum (map original_ids (?c :: data')))
        with (original_ids c + list_sum (map original_ids data')).
      rewrite Ho. lia.
    + lia.
    + constructor; [reflexivity | exact Hk].
Qed.

(** A key of the reference dictionary stays in it. *)
Lemma reference_line_keeps (k : json) (d : list (json * json))
  (line : string) :
  has_key k d = true -> has_key k (reference_line json_loads d line) = true.
Proof.
  unfold reference_line. intros H.
  destruct (json_loads (Str.strip line)) as [record |]; simpl; [| exact H].
  destruct (py_get record "id" JNull) as [record_id |]; simpl; [| exact H].
  destruct (truthy record_id); simpl; [| exact H].
  unfold idmap_set. destruct (hashable record_id); [| exact H].
  unfold has_key, Dict.mem in *.
  destruct (key_eqb k record_id) eqn:E.
  - now rewrite (DictProps.lookup_set_eq key_eqb DictProps.key_eqb_sym
                   DictProps.key_eqb_trans k record_id record d E).
  - now rewrite (DictProps.lookup_set_neq key_eqb DictProps.key_eqb_sym
                   DictProps.key_eqb_trans k record_id record d E).
Qed.

Lemma reference_lines_keep (k : json) (lines : list string) :
  forall d,
    has_key k d = true ->
    has_key k (fold_left (reference_line json_loads) lines d) = true.
Proof.
  induction lines as [| line lines IH]; intros d H; simpl; [exact H |].
  apply IH. now apply reference_line_keeps.
Qed.

Lemma reference_lines_cover (lines : list string) :
  forall d case_data,
    In case_data (fst (load_clean_lines json_loads lines)) ->
    truthy (obj_get "id" JNull case_data) = true ->
    hashable (obj_get "id" JNull case_data) = true ->
    has_key (obj_get "id" JNull case_data)
      (fold_left (reference_line json_loads) lines d) = true.
Proof.
  induction lines as [| line lines IH]; intros d case_data Hin Ht Hh;
    simpl in Hin; [contradiction |].
  destruct (load_clean_lines json_loads lines) as [data total] eqn:El.
  cbn [fold_left].
  destruct (clean_case json_loads line) as [[[c n_ids] |] | e] eqn:E;
    cbn [fst] in Hin; try (apply IH; assumption).
  destruct Hin as [<- | Hin]; [| apply IH; assumption].
  destruct (clean_case_shape _ _ _ E)
    as (record & id & observacion & codigos & ids & Hrec & -> & -> & _).
  change (obj_get "id" JNull
            [("id", obj_get "id" JNull record); ("observacion", observacion);
             ("codigos_esperados", codigos); ("ids_delito_originales", ids)])
    with (obj_get "id" JNull record) in *.
  apply reference_lines_keep.
  unfold reference_line. rewrite Hrec. simpl. rewrite Ht. simpl.
  unfold idmap_set. rewrite Hh.
  unfold has_key, Dict.mem.
  rewrite (DictProps.lookup_set_eq key_eqb DictProps.key_eqb_sym
             DictProps.key_eqb_trans); [reflexivity |].
  now apply key_eqb_refl.
Qed.

Lemma set_values {K V : Type} (eqb : K -> K -> bool) (P : V -> Prop)
  (k : K) (v : V) (d : list (K * V)) :
  P v -> Forall (fun kv => P (snd kv)) d ->
  Forall (fun kv => P (snd kv)) (Dict.set eqb k v d).
Proof.
  intros Hv. induction 1 as [| [k' v'] d Hx Hd IH]; simpl.
  - constructor; [exact Hv | constructor].
  - destruct (eqb k k'); constructor; auto.
Qed.

Lemma lookup_value {K V : Type} (eqb : K -> K -> bool) (P : V -> Prop)
  (k : K) (v : V) (d : list (K * V)) :
  Forall (fun kv => P (snd kv)) d -> Dict.lookup eqb k d = Some v -> P v.
Proof.
  induction 1 as [| [k' v'] d Hx Hd IH]; simpl; [discriminate |].
  destruct (eqb k k'); [intros H; injection H as <-; exact Hx | exact IH].
Qed.

(** Every reference record is truthy: it is an object with an [id]. *)
Lemma reference_values_truthy (lines : list string) :
  forall d,
    Forall (fun kv => truthy (snd kv) = true) d ->
    Forall (fun kv => truthy (snd kv) = true)
      (fold_left (reference_line json_loads) lines d).
Proof.
  induction lines as [| line lines IH]; intros d H; simpl; [exact H |].
  apply IH. unfold reference_line.
  destruct (json_loads (Str.strip line)) as [record |]; simpl; [| exact H].
  destruct (py_get record "id" JNull) as [record_id |] eqn:Hid; simpl;
    [| exact H].
  destruct (truthy record_id) eqn:Ht; simpl; [| exact H].
  unfold idmap_set. destruct (hashable record_id); [| exact H].
  apply (set_values key_eqb (fun v => truthy v = true)); [| exact H].
  destruct record as [| b | z | s | l | o]; try discriminate.
  simpl in Hid. injection Hid as <-. unfold obj_get, obj_lookup in Ht.
  destruct o; [discriminate Ht | reflexivity].
Qed.

(** X16. The validator and the consolidator read the same clean file, and
    they agree: every case that [load_clean_data] hands to the validator
    with a usable identifier (truthy and hashable) has a truthy entry in
    the reference dictionary that [load_reference_data] builds from that
    file, so a unified record with that identifier passes the test of the
    flattened view and is not skipped for lack of a reference. *)
Theorem validated_cases_have_a_reference (lines : list string)
  (data : list obj) (total_records_original : nat) (case_data : obj)
  (unified_record : json) :
  load_clean_data json_loads (Some lines)
  = Ok (data, total_records_original) ->
  In case_data data ->
  truthy (obj_get "id" JNull case_data) = true ->
  hashable (obj_get "id" JNull case_data) = true ->
  has_key (obj_get "id" JNull case_data)
    (load_reference_data json_loads lines) = true
  /\ FlattenProps.referenced (load_reference_data json_loads lines)
       (obj_get "id" JNull case_data, unified_record) = true.
Proof.
  unfold load_clean_data, load_reference_data. intros H Hin Ht Hh.
  injection H as H.
  assert (Hkey : has_key (obj_get "id" JNull case_data)
                   (fold_left (reference_line json_loads) lines []) = true)
    by (apply reference_lines_cover; auto; now rewrite H).
  split; [exact Hkey |].
  unfold FlattenProps.referenced. cbn [fst].
  unfold has_key, Dict.mem in Hkey.
  destruct (Dict.lookup key_eqb (obj_get "id" JNull case_data)
              (fold_left (reference_line json_loads) lines []))
    as [ref_record |] eqn:E; [| discriminate].
  apply (lookup_value key_eqb (fun v => truthy v = true) _ _ _
           (reference_values_truthy lines [] (Forall_nil _)) E).
Qed.

End Clean.

Lemma original_records_are_those_of_the_cases_witness :
  exists data,
    load_clean_data Json.loads
      (Some [ValidadorProps.clean_line "A" "texto" ["9"] ["d1"; "d2"];
             "no es json"])
    = Ok (data, 2)
    /\ 2 = list_sum (map original_ids data).
Proof.
  eexists.
  assert (H : load_clean_data Json.loads
                (Some [ValidadorProps.clean_line "A" "texto" ["9"] ["d1"; "d2"];
                       "no es json"])
              = Ok (_, 2))
    by (vm_compute; reflexivity).
  split; [exact H |].
  exact (proj1 (original_records_are_those_of_the_cases Json.loads _ _ _ H)).
Defined.

Lemma validated_cases_have_a_reference_witness :
  has_key (JStr "A")
    (load_reference_data Json.loads
       [ValidadorProps.clean_line "A" "texto" ["9"] ["d1"; "d2"]]) = true
  /\ FlattenProps.referenced
       (load_reference_data Json.loads
          [ValidadorProps.clean_line "A" "texto" ["9"] ["d1"; "d2"]])
       (JStr "A", JNull) = true.
Proof.
  assert (H : load_clean_data Json.loads
                (Some [ValidadorProps.clean_line "A" "texto" ["9"]
                         ["d1"; "d2"]])
              = Ok ([[("id", JStr "A"); ("observacion", JStr "texto");
                      ("codigos_esperados", JList [JStr "9"]);
                      ("ids_delito_originales",
                       JList [JStr "d1"; JStr "d2"])]], 2))
    by (vm_compute; reflexivity).
  exact (validated_cases_have_a_reference Json.loads _ _ _ _ JNull H
           (or_introl eq_refl) eq_refl eq_refl).
Defined.

End CleanProps.

(* ------------------------------------------------------------------ *)
(** ** The error analyser, for every nested file *)

Module AnalyzerProps.

Import Validador Errores.

Lemma string_eqb_trans (a b c : string) :
  String.eqb a b = true -> String.eqb b c = true -> String.eqb a c = true.
Proof. rewrite !String.eqb_eq. congruence. Qed.

Lemma class_get_append (l label : string) (record : json)
  (c : list (string * list json)) :
  class_get l (class_append label record c)
  = if String.eqb l label then class_get label c ++ [record]
    else class_get l c.
Proof.
  unfold class_get at 1, class_append.
  destruct (String.eqb l label) eqn:E.
  - now rewrite (DictProps.lookup_set_eq String.eqb String.eqb_sym
                   string_eqb_trans l label _ c E).
  - now rewrite (DictProps.lookup_set_neq String.eqb String.eqb_sym
                   string_eqb_trans l label _ c E).
Qed.

(** Entries of a dictionary after an assignment. *)
Lemma set_entries {V : Type} (k : string) (v : V) (d : list (string * V)) :
  NoDup (map fst d) ->
  NoDup (map fst (Dict.set String.eqb k v d))
  /\ forall x, In x (Dict.set String.eqb k v d)
               <-> x = (k, v) \/ (In x d /\ fst x <> k).
Proof.
  induction d as [| [k' v'] d IH]; simpl; intros Hnd.
  - split; [constructor; [intros [] | constructor] |].
    intros x. split; [intros [<- | []]; now left |].
    intros [-> | [[] _]]. now left.
  - inversion Hnd as [| ? ? Hk Hnd']; subst.
    destruct (IH Hnd') as [IH1 IH2].
    destruct (String.eqb k k') eqn:E.
    + apply String.eqb_eq in E. subst k'. split; [exact Hnd |].
      intros x. split.
      * intros [<- | Hx]; [now left |]. right. split; [now right |].
        intros Hf. apply Hk. rewrite <- Hf. now apply in_map.
      * intros [-> | [[<- | Hx] Hne]]; [now left | | now right].
        simpl in Hne. contradiction.
    + apply String.eqb_neq in E. split.
      * simpl. constructor; [| exact IH1].
        intros Hin. apply in_map_iff in Hin.
        destruct Hin as ([k2 v2] & Hf & Hin). simpl in Hf. subst k2.
        apply IH2 in Hin. destruct Hin as [Hin | [Hin _]].
        -- injection Hin as -> _. contradiction.
        -- apply Hk. change k' with (fst (k', v2)). now apply in_map.
      * intros x. split.
        -- intros [<- | Hx]; [right; split; [now left | simpl; congruence] |].
           apply IH2 in Hx. destruct Hx as [-> | [Hx Hne]];
             [now left | right; split; [now right | exact Hne]].
        -- intros [-> | [[<- | Hx] Hne]].
           ++ right. apply IH2. now left.
           ++ now left.
           ++ right. apply IH2. right. split; assumption.
Qed.

Lemma lookup_entry {V : Type} (k : string) (v : V) (d : list (string * V)) :
  NoDup (map fst d) -> In (k, v) d -> Dict.lookup String.eqb k d = Some v.
Proof.
  induction d as [| [k' v'] d IH]; simpl; intros Hnd Hin; [contradiction |].
  inversion Hnd as [| ? ? Hk Hnd']; subst.
  destruct Hin as [Hin | Hin].
  - injection Hin as -> ->. now rewrite String.eqb_refl.
  - destruct (String.eqb k k') eqn:E.
    + apply String.eqb_eq in E. subst k'. exfalso. apply Hk.
      change k with (fst (k, v)). now apply in_map.
    + now apply IH.
Qed.

Lemma Forall_firstn {A : Type} (P : A -> Prop) (n : nat) (l : list A) :
  Forall P l -> Forall P (firstn n l).
Proof.
  intros H. revert n. induction H as [| x l Hx Hl IH]; intros [| n]; simpl;
    constructor; auto.
Qed.

Lemma forallb_map {A B : Type} (f : A -> B) (p : B -> bool) (l : list A) :
  forallb p (map f l) = forallb (fun x => p (f x)) l.
Proof.
  induction l as [| x l IH]; simpl; [reflexivity | now rewrite IH].
Qed.

Definition format_labels : list string :=
  [formato_a; formato_b; formato_c; formato_d; formato_e].

Lemma label_in_labels (f v h : bool) : In (label f v h) format_labels.
Proof. destruct f, v, h; vm_compute; tauto. Qed.

Section Analysis.
Variable json_loads : string -> result json.
Variable decode_error_str : string -> string.

(** [classify_record] never lets a [JSONDecodeError] out, and what it
    labels is an object. *)
Lemma classify_record_raises (record : json) :
  classify_record json_loads record <> Raise JSONDecodeError.
Proof.
  unfold classify_record, flags, raw_flags, py_lower, loads_value.
  destruct record as [| b | z | s | l | o]; try discriminate. simpl.
  destruct (obj_get "razonamiento_modelo" (JStr "") o); try discriminate.
  simpl.
  destruct (truthy (obj_get "raw_response" (JStr "") o)); [| discriminate].
  destruct (obj_get "raw_response" (JStr "") o); try discriminate.
  destruct (json_loads s0) as [parsed | e].
  - destruct parsed as [| b | z | s1 | l | o1]; simpl; try discriminate.
    + destruct (Str.contains "clasificaciones" s1); discriminate.
    + destruct (existsb _ l); discriminate.
    + unfold obj_mem, Dict.mem. fold (obj_lookup "clasificaciones" o1).
      destruct (obj_lookup "clasificaciones" o1); discriminate.
  - destruct e; discriminate.
Qed.

Lemma classify_record_label (record : json) (format_name : string) :
  classify_record json_loads record = Ok format_name ->
  In format_name format_labels /\ exists o, record = JObj o.
Proof.
  unfold classify_record. intros H.
  apply bind_ok in H. destruct H as ([[f v] h] & Hf & H).
  simpl in H. inv_ok. split; [apply label_in_labels |].
  unfold flags in Hf. destruct record; try discriminate. eauto.
Qed.

(** The outcome of a line: its record and label, a read error, or a parse
    error. *)
Inductive outcome : Type :=
| Classified (format_name : string) (record : json)
| Unreadable
| Unexpected.

Definition outcome_of (line : string) : outcome :=
  match json_loads line with
  | Ok record =>
      match classify_record json_loads record with
      | Ok format_name => Classified format_name record
      | Raise _ => Unexpected
      end
  | Raise JSONDecodeError => Unreadable
  | Raise _ => Unexpected
  end.

(** The records of the lines, in order, that [classify_record] labels
    [format_name]. *)
Definition labelled (format_name : string) (lines : list string)
  : list json :=
  flat_map (fun line =>
              match outcome_of line with
              | Classified l record =>
                  if String.eqb format_name l then [record] else []
              | _ => []
              end) lines.

(** The error records of the lines the decoder rejects, numbered from
    [line_num]. *)
Fixpoint read_errors (line_num : nat) (lines : list string) : list json :=
  match lines with
  | [] => []
  | line :: rest =>
      match outcome_of line with
      | Unreadable => [error_record decode_error_str line_num line]
      | _ => []
      end ++ read_errors (S line_num) rest
  end.

Definition count (p : outcome -> bool) (lines : list string) : nat :=
  List.length (filter (fun line => p (outcome_of line)) lines).

Definition is_classified (o : outcome) : bool :=
  match o with Classified _ _ => true | _ => false end.
Definition is_unreadable (o : outcome) : bool :=
  match o with Unreadable => true | _ => false end.
Definition is_unexpected (o : outcome) : bool :=
  match o with Unexpected => true | _ => false end.

Lemma labelled_cons (l line : string) (lines : list string) :
  labelled l (line :: lines)
  = match outcome_of line with
    | Classified format_name record =>
        if String.eqb l format_name then [record] else []
    | _ => []
    end ++ labelled l lines.
Proof. reflexivity. Qed.

Lemma read_errors_cons (line_num : nat) (line : string)
  (lines : list string) :
  read_errors line_num (line :: lines)
  = match outcome_of line with
    | Unreadable => [error_record decode_error_str line_num line]
    | _ => []
    end ++ read_errors (S line_num) lines.
Proof. reflexivity. Qed.

Lemma analyze_line_outcome (st : analysis) (line_num : nat) (line : string) :
  analyze_line json_loads decode_error_str st line_num line
  = match outcome_of line with
    | Classified format_name record =>
        {| classified_records :=
             class_append format_name record (classified_records st);
           total_records := S (total_records st);
           json_decode_errors := json_decode_errors st;
           parse_errors := parse_errors st |}
    | Unreadable =>
        {| classified_records :=
             class_append error_de_lectura
               (error_record decode_error_str line_num line)
               (classified_records st);
           total_records := total_records st;
           json_decode_errors := S (json_decode_errors st);
           parse_errors := parse_errors st |}
    | Unexpected =>
        {| classified_records := classified_records st;
           total_records := total_records st;
           json_decode_errors := json_decode_errors st;
           parse_errors := S (parse_errors st) |}
    end.
Proof.
  unfold analyze_line, outcome_of.
  destruct (json_loads line) as [record | e]; simpl.
  - pose proof (classify_record_raises record) as Hno.
    destruct (classify_record json_loads record) as [format_name | e];
      simpl; [reflexivity |].
    destruct e; try reflexivity. contradiction.
  - destruct e; reflexivity.
Qed.

(** What the classes hold: under each of the five labels the records it
    labels, in the order of the lines; under the label of read errors the
    error records; no other label; every label once. *)
Definition holds (c : list (string * list json)) (line_num : nat)
  (lines : list string) (c' : list (string * list json)) : Prop :=
  (forall l, In l format_labels ->
             class_get l c' = class_get l c ++ labelled l lines)
  /\ class_get error_de_lectura c'
     = class_get error_de_lectura c ++ read_errors line_num lines
  /\ NoDup (map fst c')
  /\ (forall l, In l (map fst c') -> In l format_labels \/ l = error_de_lectura).

Lemma labels_not_read_error (l : string) :
  In l format_labels -> String.eqb l error_de_lectura = false.
Proof.
  intros H. repeat (destruct H as [<- | H]; [reflexivity |]). contradiction.
Qed.

Lemma analyze_lines_holds (lines : list string) :
  forall line_num st,
    NoDup (map fst (classified_records st)) ->
    (forall l, In l (map fst (classified_records st)) ->
               In l format_labels \/ l = error_de_lectura) ->
    let st' := analyze_lines json_loads decode_error_str line_num lines st in
    holds (classified_records st) line_num lines (classified_records st')
    /\ total_records st' = total_records st + count is_classified lines
    /\ json_decode_errors st'
       = json_decode_errors st + count is_unreadable lines
    /\ parse_errors st' = parse_errors st + count is_unexpected lines.
Proof.
  unfold count.
  induction lines as [| line lines IH]; intros line_num st Hnd Hkeys;
    cbn [analyze_lines filter read_errors].
  - unfold holds. simpl. repeat split; auto.
    + intros l _. now rewrite app_nil_r.
    + now rewrite app_nil_r.
  - rewrite analyze_line_outcome.
    destruct (outcome_of line) as [format_name record | |] eqn:Ho.
    + (* a classified record *)
      assert (Hl : In format_name format_labels).
      { unfold outcome_of in Ho.
        destruct (json_loads line) as [r | e]; [| destruct e; discriminate].
        destruct (classify_record json_loads r) as [f |] eqn:Hc;
          [| discriminate].
        injection Ho as <- <-. now apply (classify_record_label r). }
      destruct (set_entries format_name
                  (class_get format_name (classified_records st) ++ [record])
                  (classified_records st) Hnd) as [Hnd' Hin'].
      match goal with
      | |- context [analyze_lines _ _ _ _ ?s] =>
          destruct (IH (S line_num) s) as ((H1 & H2 & H3 & H4) & Ht & Hj & Hp)
      end.
      * exact Hnd'.
      * cbn [classified_records]. intros l Hin.
        apply in_map_iff in Hin. destruct Hin as ([l' rs] & <- & Hin).
        apply Hin' in Hin. destruct Hin as [Hin | [Hin _]].
        -- injection Hin as -> _. now left.
        -- apply Hkeys. now apply (in_map fst) in Hin.
      * cbn [classified_records total_records json_decode_errors
               parse_errors] in *.
        repeat split; auto; try (simpl; lia).
        -- intros l Hlab.
           rewrite (H1 l Hlab), class_get_append, labelled_cons, Ho.
           destruct (String.eqb l format_name) eqn:E.
           ++ apply String.eqb_eq in E. subst l.
              now rewrite <- app_assoc.
           ++ reflexivity.
        -- rewrite H2, class_get_append, read_errors_cons, Ho.
           rewrite String.eqb_sym, (labels_not_read_error _ Hl).
           reflexivity.
    + (* a line the decoder rejects *)
      destruct (set_entries error_de_lectura
                  (class_get error_de_lectura (classified_records st)
                   ++ [error_record decode_error_str line_num line])
                  (classified_records st) Hnd) as [Hnd' Hin'].
      match goal with
      | |- context [analyze_lines _ _ _ _ ?s] =>
          destruct (IH (S line_num) s) as ((H1 & H2 & H3 & H4) & Ht & Hj & Hp)
      end.
      * exact Hnd'.
      * cbn [classified_records]. intros l Hin.
        apply in_map_iff in Hin. destruct Hin as ([l' rs] & <- & Hin).
        apply Hin' in Hin. destruct Hin as [Hin | [Hin _]].
        -- injection Hin as -> _. now right.
        -- apply Hkeys. now apply (in_map fst) in Hin.
      * cbn [classified_records total_records json_decode_errors
               parse_errors] in *.
        repeat split; auto; try (simpl; lia).
        -- intros l Hlab.
           rewrite (H1 l Hlab), class_get_append, labelled_cons, Ho.
           now rewrite (labels_not_read_error _ Hlab).
        -- rewrite H2, class_get_append, String.eqb_refl.
           rewrite read_errors_cons, Ho. now rewrite <- app_assoc.
    + (* a line that raises anything else *)
      match goal with
      | |- context [analyze_lines _ _ _ _ ?s] =>
          destruct (IH (S line_num) s) as ((H1 & H2 & H3 & H4) & Ht & Hj & Hp)
      end; [exact Hnd | exact Hkeys |].
      cbn [classified_records total_records json_decode_errors
             parse_errors] in *.
      repeat split; auto; try (simpl; lia).
      * intros l Hlab. now rewrite (H1 l Hlab), labelled_cons, Ho.
      * now rewrite H2, read_errors_cons, Ho.
Qed.

Lemma count_partition (lines : list string) :
  count is_classified lines + count is_unreadable lines
  + count is_unexpected lines = List.length lines.
Proof.
  unfold count. induction lines as [| line lines IH]; simpl; [reflexivity |].
  destruct (outcome_of line); simpl; lia.
Qed.

(** What [analyze_errors] returns. *)
Lemma analyze_errors_holds (lines : list string)
  (st : analysis) :
  analyze_errors json_loads decode_error_str (Some lines) = Ok st ->
  total_records st + json_decode_errors st + parse_errors st
  = List.length lines
  /\ 1 <= total_records st
  /\ (forall l, In l format_labels ->
                class_get l (classified_records st) = labelled l lines)
  /\ class_get error_de_lectura (classified_records st)
     = read_errors 1 lines
  /\ List.length (read_errors 1 lines) = json_decode_errors st
  /\ NoDup (map fst (classified_records st))
  /\ (forall l, In l (map fst (classified_records st)) ->
                In l format_labels \/ l = error_de_lectura).
Proof.
  unfold analyze_errors. intros H.
  destruct (analyze_lines_holds lines 1 initial_analysis)
    as ((H1 & H2 & H3 & H4) & Ht & Hj & Hp);
    [constructor | intros l [] |].
  destruct (Nat.eqb (total_records _) 0) eqn:E; [discriminate |].
  apply Nat.eqb_neq in E. injection H as <-.
  pose proof (count_partition lines) as Hc.
  simpl in Ht, Hj, Hp.
  repeat split; auto; try lia.
  rewrite Hj. unfold count. clear.
  generalize 1 as n. induction lines as [| line lines IH]; intros n; simpl;
    [reflexivity |].
  rewrite length_app, IH. destruct (outcome_of line); reflexivity.
Qed.

(** X17. When [analyze_errors] returns, every line of the nested file is
    counted once: as a record ([total_records], at least one), as a read
    error or as a parse error.  Under each of the five format labels the
    classes hold the records that [classify_record] gives that label, in
    the order of the lines; under the label of read errors they hold one
    error record per rejected line, with its line number counted from 1;
    no label appears twice and there is no other label. *)
Theorem analysis_accounts_for_every_line (lines : list string)
  (st : analysis) :
  analyze_errors json_loads decode_error_str (Some lines) = Ok st ->
  total_records st + json_decode_errors st + parse_errors st
  = List.length lines
  /\ 1 <= total_records st
  /\ (forall l, In l format_labels ->
                class_get l (classified_records st) = labelled l lines)
  /\ class_get error_de_lectura (classified_records st)
     = read_errors 1 lines
  /\ List.length (read_errors 1 lines) = json_decode_errors st
  /\ NoDup (map fst (classified_records st))
  /\ (forall l, In l (map fst (classified_records st)) ->
                In l format_labels \/ l = error_de_lectura).
Proof. apply analyze_errors_holds. Qed.


(** ** The report and the quarantine *)

(** The identifier that the report shows for a record: line 115. *)
Definition example_id (record : json) : json :=
  match record with
  | JObj o => obj_get "id" (JStr "ID_no_encontrado") o
  | _ => JNull
  end.

Definition is_object (record : json) : Prop := exists o, record = JObj o.

Lemma labelled_objects (l : string) (lines : list string) :
  Forall is_object (labelled l lines).
Proof.
  unfold labelled. apply Forall_flat_map. apply Forall_forall.
  intros line _. unfold outcome_of.
  destruct (json_loads line) as [record | e]; [| destruct e; constructor].
  destruct (classify_record json_loads record) as [format_name |] eqn:Hc;
    [| constructor].
  destruct (String.eqb l format_name); constructor; [| constructor].
  now apply (classify_record_label record format_name).
Qed.

Lemma examples_of_objects (records : list json) :
  Forall is_object records ->
  forall examples,
    foldM (fun examples rec =>
             id <- py_get rec "id" (JStr "ID_no_encontrado") ;;
             Ok (examples ++ [id])) records examples
    = Ok (examples ++ map example_id records).
Proof.
  induction 1 as [| record records [o ->] _ IH]; intros examples; simpl.
  - now rewrite app_nil_r.
  - rewrite IH. now rewrite <- app_assoc.
Qed.

(** The examples of a class whose records are objects: the report raises
    when one of the first two identifiers is not a text. *)
Lemma report_examples_objects (records : list json) :
  Forall is_object records ->
  report_examples records
  = if forallb (fun r => is_str (example_id r)) (firstn 2 records)
    then Ok tt else Raise TypeError.
Proof.
  intros Hobj. unfold report_examples.
  rewrite examples_of_objects by (apply Forall_firstn; exact Hobj).
  cbn [Py.bind app]. rewrite <- (forallb_map example_id is_str).
  destruct (map example_id (firstn 2 records)); reflexivity.
Qed.

Lemma insert_class_perm (x : string * list json)
  (l : list (string * list json)) :
  Permutation (x :: l) (insert_class x l).
Proof.
  induction l as [| y l IH]; simpl; [reflexivity |].
  destruct (String.leb (fst x) (fst y)); [reflexivity |].
  rewrite perm_swap. now constructor.
Qed.

Lemma sorted_items_perm (c : list (string * list json)) :
  Permutation c (sorted_items c).
Proof.
  induction c as [| x c IH]; simpl; [constructor |].
  rewrite <- insert_class_perm. now constructor.
Qed.

(** A loop whose body returns nothing or raises [TypeError]. *)
Lemma foldM_report {A : Type} (f : A -> result unit) (l : list A) :
  (forall x, In x l -> f x = Ok tt \/ f x = Raise TypeError) ->
  (foldM (fun _ x => f x) l tt = Ok tt /\ forall x, In x l -> f x = Ok tt)
  \/ (foldM (fun _ x => f x) l tt = Raise TypeError
      /\ exists x, In x l /\ f x = Raise TypeError).
Proof.
  induction l as [| x l IH]; intros H; simpl.
  - left. split; [reflexivity | intros x []].
  - destruct (H x (or_introl eq_refl)) as [Hx | Hx]; rewrite Hx; simpl.
    + destruct IH as [[H1 H2] | [H1 (y & Hy & H2)]].
      * intros y Hy. apply H. now right.
      * left. split; [exact H1 |].
        intros y [<- | Hy]; [exact Hx | now apply H2].
      * right. split; [exact H1 |]. exists y. split; [now right | exact H2].
    + right. split; [reflexivity |]. exists x. split; [now left | exact Hx].
Qed.

(** The first two records of the two quarantined classes. *)
Definition examples (lines : list string) : list json :=
  firstn 2 (labelled formato_c lines) ++ firstn 2 (labelled formato_d lines).

Lemma class_get_entry (c : list (string * list json)) (l : string)
  (records : list json) :
  NoDup (map fst c) -> In (l, records) c -> class_get l c = records.
Proof.
  intros Hnd Hin. unfold class_get. now rewrite (lookup_entry l records c).
Qed.

Lemma class_get_nonempty (c : list (string * list json)) (l : string) :
  class_get l c <> [] -> In (l, class_get l c) c.
Proof.
  unfold class_get. intros H.
  destruct (Dict.lookup String.eqb l c) as [records |] eqn:E;
    [| contradiction].
  clear H. induction c as [| [k v] c IH]; simpl in *; [discriminate |].
  destruct (String.eqb l k) eqn:Ek.
  - apply String.eqb_eq in Ek. subst k. injection E as ->. now left.
  - right. now apply IH.
Qed.

(** What [generate_report] does after [analyze_errors]. *)
Lemma generate_report_after (lines : list string) (st : analysis) :
  analyze_errors json_loads decode_error_str (Some lines) = Ok st ->
  generate_report (classified_records st) (total_records st)
  = if forallb (fun r => is_str (example_id r)) (examples lines)
    then Ok tt else Raise TypeError.
Proof.
  intros Hst.
  destruct (analyze_errors_holds lines st Hst)
    as (_ & Hpos & Hlab & _ & _ & Hnd & Hkeys).
  assert (Hitem : forall item,
             In item (classified_records st) ->
             report_class (total_records st) item
             = if String.eqb (fst item) formato_c
                  || String.eqb (fst item) formato_d
               then if forallb (fun r => is_str (example_id r))
                         (firstn 2 (labelled (fst item) lines))
                    then Ok tt else Raise TypeError
               else Ok tt).
  { intros [l records] Hin. unfold report_class. cbn [fst].
    replace (Nat.eqb (total_records st) 0) with false
      by (symmetry; apply Nat.eqb_neq; lia).
    assert (Hl : In l format_labels \/ l = error_de_lectura)
      by (apply Hkeys; now apply (in_map fst) in Hin).
    pose proof (class_get_entry _ _ _ Hnd Hin) as Hget.
    destruct Hl as [Hl | ->]; [| reflexivity].
    rewrite (Hlab l Hl) in Hget. subst records.
    repeat (destruct Hl as [<- | Hl]; [try reflexivity |]);
      try contradiction;
      apply report_examples_objects, labelled_objects. }
  unfold generate_report.
  assert (Hcases : forall x,
             In x (sorted_items (classified_records st)) ->
             report_class (total_records st) x = Ok tt
             \/ report_class (total_records st) x = Raise TypeError).
  { intros x Hx.
    apply (Permutation_in x (Permutation_sym (sorted_items_perm _))) in Hx.
    rewrite (Hitem x Hx).
    destruct (String.eqb (fst x) formato_c || String.eqb (fst x) formato_d);
      [| now left].
    destruct (forallb _ _); [now left | now right]. }
  unfold examples. rewrite forallb_app.
  destruct (foldM_report _ _ Hcases) as [[Hok Hall] | [Hraise (x & Hx & Hbad)]].
  - rewrite Hok.
    assert (Hclass : forall l,
               l = formato_c \/ l = formato_d ->
               forallb (fun r => is_str (example_id r))
                 (firstn 2 (labelled l lines)) = true).
    { intros l Hl.
      assert (Hin : In l format_labels)
        by (destruct Hl as [-> | ->]; simpl; tauto).
      destruct (labelled l lines) as [| r rs] eqn:E; [reflexivity |].
      assert (Hne : class_get l (classified_records st) <> [])
        by (rewrite (Hlab l Hin), E; discriminate).
      apply class_get_nonempty in Hne.
      pose proof (Hall _ (Permutation_in _ (sorted_items_perm _) Hne)) as Ho.
      rewrite (Hitem _ Hne) in Ho. cbn [fst] in Ho.
      replace (String.eqb l formato_c || String.eqb l formato_d) with true
        in Ho by (destruct Hl as [-> | ->]; reflexivity).
      rewrite E in Ho.
      destruct (forallb _ _); [reflexivity | discriminate]. }
    now rewrite (Hclass formato_c), (Hclass formato_d) by tauto.
  - rewrite Hraise.
    apply (Permutation_in x (Permutation_sym (sorted_items_perm _))) in Hx.
    rewrite (Hitem x Hx) in Hbad.
    destruct (String.eqb (fst x) formato_c) eqn:Ec.
    + apply String.eqb_eq in Ec. rewrite Ec in Hbad. cbn [orb] in Hbad.
      destruct (forallb _ (firstn 2 (labelled formato_c lines)));
        [discriminate Hbad | reflexivity].
    + destruct (String.eqb (fst x) formato_d) eqn:Ed;
        [| discriminate Hbad].
      apply String.eqb_eq in Ed. rewrite Ed in Hbad. cbn [orb] in Hbad.
      destruct (forallb _ (firstn 2 (labelled formato_d lines)));
        [discriminate Hbad |].
      now rewrite andb_false_r.
Qed.

(** X18. After an analysis that succeeds, [run_analysis] depends on the
    identifiers of the first two records of each quarantined class: when
    one of them is not a text (a number, [null], ...) the report raises
    [TypeError], the error leaves [run_analysis] and no quarantine file is
    written; otherwise [run_analysis] returns its summary. *)
Theorem report_needs_text_identifiers (lines : list string)
  (errors_dir : list (string * list string)) (st : analysis) :
  analyze_errors json_loads decode_error_str (Some lines) = Ok st ->
  if forallb (fun r => is_str (example_id r)) (examples lines)
  then exists results,
      fst (run_analysis json_loads decode_error_str (Some lines) errors_dir)
      = Ok results
  else run_analysis json_loads decode_error_str (Some lines) errors_dir
       = (Raise TypeError, errors_dir).
Proof.
  intros Hst. unfold run_analysis.
  rewrite Hst, (generate_report_after lines st Hst).
  destruct (forallb _ _); [eexists |]; reflexivity.
Qed.

(** X19. When [run_analysis] returns, the number of problematic cases is
    the number of records labelled Fallback Truncated or Inconsistent; a
    quarantine file is written for each of the two classes that has
    records, and it holds those records, one line each, in the order of
    the nested file; every other file of the directory of errors is left
    as it was, also the quarantine file of a class that has no record
    now: a file left there by an earlier analysis is neither emptied nor
    removed. *)
Theorem quarantine_holds_the_problematic_records (lines : list string)
  (errors_dir dir' : list (string * list string))
  (results : analysis_results) :
  run_analysis json_loads decode_error_str (Some lines) errors_dir
  = (Ok results, dir') ->
  let truncados := labelled formato_c lines in
  let inconsistentes := labelled formato_d lines in
  let content records :=
    map (fun record => (Show.dumps record ++ newline)%string) records in
  problematic_cases results
  = List.length truncados + List.length inconsistentes
  /\ results_total_records results = count is_classified lines
  /\ files_created results
     = match truncados with [] => [] | _ => [truncados_name] end
       ++ match inconsistentes with [] => [] | _ => [inconsistentes_name] end
  /\ forall name,
      Dict.lookup String.eqb name dir'
      = match inconsistentes, truncados with
        | _ :: _, _ =>
            if String.eqb name inconsistentes_name
            then Some (content inconsistentes)
            else match truncados with
                 | _ :: _ =>
                     if String.eqb name truncados_name
                     then Some (content truncados)
                     else Dict.lookup String.eqb name errors_dir
                 | [] => Dict.lookup String.eqb name errors_dir
                 end
        | [], _ :: _ =>
            if String.eqb name truncados_name
            then Some (content truncados)
            else Dict.lookup String.eqb name errors_dir
        | [], [] => Dict.lookup String.eqb name errors_dir
        end.
Proof.
  unfold run_analysis. intros H. cbv zeta.
  destruct (analyze_errors json_loads decode_error_str (Some lines))
    as [st |] eqn:Hst; [| discriminate].
  destruct (generate_report _ _); [| discriminate].
  injection H as <- <-.
  destruct (analyze_errors_holds lines st Hst)
    as (_ & _ & Hlab & _ & _ & _ & _).
  assert (Htotal : total_records st = count is_classified lines).
  { unfold analyze_errors in Hst.
    destruct (analyze_lines_holds lines 1 initial_analysis)
      as (_ & Ht & _); [constructor | intros l [] |].
    destruct (Nat.eqb _ 0); [discriminate |]. injection Hst as <-.
    exact Ht. }
  cbn [problematic_cases results_total_records files_created].
  unfold save_problematic_cases.
  rewrite (Hlab formato_c) by (simpl; tauto).
  rewrite (Hlab formato_d) by (simpl; tauto).
  split; [reflexivity |]. split; [exact Htotal |]. split.
  - rewrite map_app. unfold quarantine.
    destruct (labelled formato_c lines), (labelled formato_d lines);
      reflexivity.
  - intros name. unfold quarantine.
    destruct (labelled formato_c lines) as [| c cs],
             (labelled formato_d lines) as [| d ds];
      cbn [app fold_left]; unfold write_file; cbn [fst snd].
    + reflexivity.
    + destruct (String.eqb name inconsistentes_name) eqn:E.
      * now apply (DictProps.lookup_set_eq String.eqb String.eqb_sym
                     string_eqb_trans).
      * now apply (DictProps.lookup_set_neq String.eqb String.eqb_sym
                     string_eqb_trans).
    + destruct (String.eqb name truncados_name) eqn:E.
      * now apply (DictProps.lookup_set_eq String.eqb String.eqb_sym
                     string_eqb_trans).
      * now apply (DictProps.lookup_set_neq String.eqb String.eqb_sym
                     string_eqb_trans).
    + destruct (String.eqb name inconsistentes_name) eqn:E.
      * now apply (DictProps.lookup_set_eq String.eqb String.eqb_sym
                     string_eqb_trans).
      * rewrite (DictProps.lookup_set_neq String.eqb String.eqb_sym
                   string_eqb_trans _ _ _ _ E).
        destruct (String.eqb name truncados_name) eqn:E'.
        -- now apply (DictProps.lookup_set_eq String.eqb String.eqb_sym
                        string_eqb_trans).
        -- now apply (DictProps.lookup_set_neq String.eqb String.eqb_sym
                        string_eqb_trans).
Qed.

End Analysis.

(** A nested file of three lines: a perfect record, a record without raw
    response whose identifier is a number, and a line that is not JSON. *)
Definition numbered_nested : list string :=
  [(Show.dumps ErroresProps.perfect_record ++ newline)%string;
   (Json.dq "{'id': 7, 'razonamiento_modelo': 'Sin datos.', 'raw_response': ''}"
    ++ newline)%string;
   "no es json"].

(** The same file with a text as identifier of the second record. *)
Definition text_nested : list string :=
  [(Show.dumps ErroresProps.perfect_record ++ newline)%string;
   (Json.dq "{'id': 'B', 'razonamiento_modelo': 'Sin datos.', 'raw_response': ''}"
    ++ newline)%string;
   "no es json"].

Definition decode_text (line : string) : string :=
  "Expecting value: line 1 column 1 (char 0)".

Lemma analysis_accounts_for_every_line_witness :
  exists st,
    analyze_errors Json.loads decode_text (Some numbered_nested) = Ok st
    /\ total_records st + json_decode_errors st + parse_errors st
       = List.length numbered_nested.
Proof.
  exists (analyze_lines Json.loads decode_text 1 numbered_nested
            initial_analysis).
  assert (H : analyze_errors Json.loads decode_text (Some numbered_nested)
              = Ok (analyze_lines Json.loads decode_text 1 numbered_nested
                      initial_analysis))
    by (vm_compute; reflexivity).
  split; [exact H |].
  exact (proj1 (analysis_accounts_for_every_line Json.loads decode_text
                  numbered_nested _ H)).
Defined.

Lemma report_needs_text_identifiers_witness :
  run_analysis Json.loads decode_text (Some numbered_nested) []
  = (Raise TypeError, []).
Proof.
  assert (H : analyze_errors Json.loads decode_text (Some numbered_nested)
              = Ok (analyze_lines Json.loads decode_text 1 numbered_nested
                      initial_analysis))
    by (vm_compute; reflexivity).
  exact (report_needs_text_identifiers Json.loads decode_text
           numbered_nested [] _ H).
Defined.

Lemma quarantine_holds_the_problematic_records_witness :
  exists results dir',
    run_analysis Json.loads decode_text (Some text_nested)
      [(truncados_name, ["de un análisis anterior"])]
    = (Ok results, dir')
    /\ problematic_cases results = 0 + 1
    /\ Dict.lookup String.eqb truncados_name dir'
       = Some ["de un análisis anterior"].
Proof.
  eexists. eexists.
  assert (H : run_analysis Json.loads decode_text (Some text_nested)
                [(truncados_name, ["de un análisis anterior"])]
              = (Ok _, _))
    by (vm_compute; reflexivity).
  split; [exact H |].
  destruct (quarantine_holds_the_problematic_records Json.loads decode_text
              text_nested _ _ _ H) as (Hp & _ & _ & Hdir).
  split; [exact Hp | exact (Hdir truncados_name)].
Defined.

End AnalyzerProps.

(* ------------------------------------------------------------------ *)
(** ** From the validator to the analyser: how the records of cases that
       went wrong are labelled *)

Module RecordProps.

Import Validador Errores ExecutorProps.

Section Records.
Variable json_loads : string -> result json.
Variable exn_str : exn -> string.
Variable cfg : api_config.

(** X20. The record that [process_single_case] writes for a case whose
    processing raised is never labelled Perfect by [classify_record]: its
    raw response is empty, so it is labelled Inconsistent, or Fallback
    Truncated when the text of the exception contains the word fallback;
    either way it is one of the two quarantined classes. *)
Theorem failed_cases_are_quarantined (env : task_env) (case_data : obj)
  (e : exn) :
  classify_record json_loads (JObj (failed_record exn_str env case_data e))
  = Ok (if Str.contains "fallback"
             (Str.lower ("Error en procesamiento: " ++ exn_str e))
        then formato_c else formato_d).
Proof.
  unfold classify_record, flags, failed_record. simpl.
  destruct (Str.contains "fallback" _); reflexivity.
Qed.

(** The sentinel is what the reference decoder makes of it. *)
Definition sentinel_value : json :=
  JObj [("razonamiento",
         JStr "ERROR: Máximo de reintentos alcanzado después de múltiples intentos con timeout incremental");
        ("clasificaciones", JList [])].

Lemma sentinel_decoded : Json.loads max_retries_sentinel = Ok sentinel_value.
Proof. vm_compute. reflexivity. Qed.

(** The label of a record whose reasoning does not mention a fallback and
    whose raw response decodes to an object with an empty list of
    classifications. *)
Lemma classify_empty_response (o : obj) (razonamiento raw : string) :
  obj_lookup "razonamiento_modelo" o = Some (JStr razonamiento) ->
  obj_lookup "raw_response" o = Some (JStr raw) ->
  Str.contains "fallback" (Str.lower razonamiento) = false ->
  raw <> EmptyString ->
  json_loads raw = Ok sentinel_value ->
  classify_record json_loads (JObj o) = Ok formato_d.
Proof.
  intros Hr Hraw Hf Hne Hloads.
  unfold classify_record, flags, py_get, obj_get. rewrite Hr, Hraw.
  cbn [Py.bind py_lower]. rewrite Hf.
  unfold raw_flags, loads_value. cbn [truthy].
  replace (String.eqb raw "") with false
    by (symmetry; now apply String.eqb_neq).
  cbn [negb]. rewrite Hloads. reflexivity.
Qed.

(** X21. A case for which every attempt of the retry budget, of 1 to 1023
    attempts, fails is not reported as an error: the validator returns the
    sentinel, the parser reads it as a response without classification,
    and the record has the sentinel as raw response, no predicted code and
    no [error] key.  The analyser labels that record Inconsistent. *)
Theorem exhausted_cases_are_inconsistent (env : task_env) (case_data : obj)
  (prompts : string * string) :
  (1 <= max_retries cfg <= 1023)%Z ->
  get_validation_prompt env (obj_get "observacion" (JStr "") case_data)
  = Ok prompts ->
  (forall attempt,
      (Z.of_nat attempt < max_retries cfg)%Z ->
      fails (endpoint env (fst prompts) (snd prompts)) attempt) ->
  json_loads max_retries_sentinel = Json.loads max_retries_sentinel ->
  let record := fst (process_single_case json_loads exn_str cfg env case_data) in
  obj_lookup "raw_response" record = Some (JStr max_retries_sentinel)
  /\ obj_lookup "predicted_codes" record = Some (JList [])
  /\ obj_lookup "error" record = None
  /\ classify_record json_loads (JObj record) = Ok formato_d.
Proof.
  intros Hm Hprompt Hfail Hloads. rewrite sentinel_decoded in Hloads.
  destruct prompts as [system_prompt user_prompt]. cbn [fst snd] in Hfail.
  unfold process_single_case, try_single_case. rewrite Hprompt.
  assert (Hraw : fst (generate_prediction_api cfg
                        (endpoint env system_prompt user_prompt) (random env))
                 = Ok max_retries_sentinel).
  { unfold generate_prediction_api.
    destruct (Z.to_nat (max_retries cfg)) as [| n] eqn:En; [lia |].
    apply (attempts_loop_failure cfg _ _ n 0); [lia | lia |].
    intros j Hj. apply Hfail. lia. }
  destruct (generate_prediction_api cfg
              (endpoint env system_prompt user_prompt) (random env))
    as [returned trace].
  cbn [fst] in Hraw. subst returned. cbn [Py.bind].
  assert (Hparse : parse_response json_loads max_retries_sentinel
                   = Ok ([], JStr "ERROR: Máximo de reintentos alcanzado después de múltiples intentos con timeout incremental")).
  { unfold parse_response.
    replace (Str.strip max_retries_sentinel) with max_retries_sentinel
      by (vm_compute; reflexivity).
    rewrite Hloads. reflexivity. }
  rewrite Hparse. cbn [Py.bind fst].
  repeat split.
  eapply classify_empty_response; try reflexivity; [discriminate | exact Hloads].
Qed.

End Records.

Lemma exhausted_cases_are_inconsistent_witness :
  classify_record Json.loads
    (JObj (fst (process_single_case Json.loads ValidadorProps.no_text
                  ValidadorProps.default_cfg
                  {| get_validation_prompt := fun _ => Ok ("sistema", "usuario");
                     endpoint :=
                       fun _ _ _ => Failure "APITimeoutError" "Request timed out.";
                     random := fun _ => F64Props.zero;
                     now := "2025-12-29T10:00:00" |}
                  [("id", JStr "A"); ("observacion", JStr "texto")])))
  = Ok formato_d.
Proof.
  apply (exhausted_cases_are_inconsistent Json.loads ValidadorProps.no_text
           ValidadorProps.default_cfg
           {| get_validation_prompt := fun _ => Ok ("sistema", "usuario");
              endpoint :=
                fun _ _ _ => Failure "APITimeoutError" "Request timed out.";
              random := fun _ => F64Props.zero;
              now := "2025-12-29T10:00:00" |}
           [("id", JStr "A"); ("observacion", JStr "texto")]
           ("sistema", "usuario")).
  - simpl. lia.
  - reflexivity.
  - intros attempt _. exists "APITimeoutError", "Request timed out.".
    reflexivity.
  - reflexivity.
Defined.

End RecordProps.

(* ------------------------------------------------------------------ *)
(** ** The whole consolidation, and what the analyser makes of it *)

Module ProcessProps.

Import Validador Lotes LotesProps FlattenProps Errores AnalyzerProps.

Lemma first_found_none (dir : list (string * list string)) :
  forall ps,
    (forall f p, In f dir -> In p ps -> Re.fnmatch (fst f) p = false) ->
    first_found dir ps = [].
Proof.
  induction ps as [| p ps IH]; intros H; simpl; [reflexivity |].
  assert (Hg : glob dir p = []).
  { unfold glob. apply HandoffProps.filter_none.
    intros f Hf. apply H; [exact Hf | now left]. }
  rewrite Hg. apply IH. intros f q Hf Hq. apply H; [exact Hf | now right].
Qed.

Section Process.
Variable json_loads : string -> result json.
Variable complex : bool.

(** X22. On a clean file that exists, with lines [clean_lines], [process]
    never raises, and what it returns agrees with what it wrote.  In a
    directory where no name matches one of the four patterns
    it returns [None] and writes nothing.  Whenever it returns [None] the
    flattened file has not been written (the nested file may have been).
    When it returns its results, both files have been written: the nested
    file has one line per unified record, [nested_count], which is also
    [unified_records]; the flattened file has [unnested_rows] rows, never
    more than the nested file in the mode without expansion; there is at
    most one parsing issue per unified record, and at most ten are
    returned. *)
Theorem process_reports_what_it_wrote
  (dir : list (string * list string)) (clean_lines : list string) :
  let run := process json_loads complex dir clean_lines in
  ((forall f p, In f dir -> In p patterns -> Re.fnmatch (fst f) p = false) ->
   run = (None, {| nested_file := None; unnested_file := None |}))
  /\ (fst run = None -> unnested_file (snd run) = None)
  /\ (forall results,
        fst run = Some results ->
        exists lines rows,
          nested_file (snd run) = Some lines
          /\ unnested_file (snd run) = Some rows
          /\ List.length lines = nested_count results
          /\ nested_count results = unified_records results
          /\ List.length rows = unnested_rows results
          /\ parsing_issues_count results <= unified_records results
          /\ List.length (parsing_issues results)
             = Nat.min 10 (parsing_issues_count results)
          /\ (complex = false ->
              unnested_rows results <= nested_count results)).
Proof.
  intros run. subst run. unfold process. split; [| split].
  - intros Hnone. unfold load_batch_files, find_batch_files.
    now rewrite (first_found_none dir patterns Hnone).
  - destruct (load_batch_files json_loads dir) as [st |]; [| reflexivity].
    destruct (validate_consistency_raises _ _); [reflexivity |].
    unfold create_nested_format.
    destruct (create_unnested_format _ _ _ _) as [[rows issues] |];
      [discriminate | reflexivity].
  - intros results.
    destruct (load_batch_files json_loads dir) as [st |]; [| discriminate].
    destruct (validate_consistency_raises _ _); [discriminate |].
    unfold create_nested_format.
    destruct (create_unnested_format json_loads complex (unified_data st)
                (load_reference_data json_loads clean_lines))
      as [[rows issues] |] eqn:Hrows; [| discriminate].
    pose proof (length_firstn 10 issues) as Hshown.
    set (shown := firstn 10 issues) in *. clearbody shown.
    cbn [fst snd]. intros H. injection H as <-.
    cbn [nested_file unnested_file nested_count unified_records unnested_rows
           parsing_issues_count parsing_issues].
    unfold create_unnested_format in Hrows.
    destruct (unnest_loop_rows _ _ _ _ _ _ _ _ Hrows)
      as (new & Hnew & Hlen & _ & Hiss & Hsimple).
    simpl in Hnew, Hiss. subst new.
    pose proof (filter_length_le
                  (referenced (load_reference_data json_loads clean_lines))
                  (unified_data st)) as Hf.
    exists (map (fun kv => (Show.dumps (snd kv) ++ newline)%string)
              (unified_data st)), rows.
    split; [reflexivity |]. split; [reflexivity |].
    split; [apply length_map |]. split; [reflexivity |].
    split; [reflexivity |]. split; [lia |].
    split; [exact Hshown |].
    intros Hc. destruct (Hsimple Hc) as [Hobs _].
    rewrite <- (length_map id_observacion), Hobs, length_map. exact Hf.
Qed.

End Process.

Section Nested.
Variable json_loads : string -> result json.
Variable decode_error_str : string -> string.

(** [classify_record] gives the record the label [l]. *)
Definition has_label (l : string) (record : json) : bool :=
  match classify_record json_loads record with
  | Ok format_name => String.eqb l format_name
  | Raise _ => false
  end.

Definition classifiable (record : json) : bool :=
  match classify_record json_loads record with
  | Ok _ => true
  | Raise _ => false
  end.

(** The decoder reads back every line of the nested file. *)
Definition read_back (unified_data : list (json * json)) : Prop :=
  forall kv,
    In kv unified_data ->
    json_loads (Show.dumps (snd kv) ++ newline)%string = Ok (snd kv).

Lemma nested_outcomes (unified_data : list (json * json)) :
  read_back unified_data ->
  let lines := fst (create_nested_format unified_data) in
  (forall l, labelled json_loads l lines
             = filter (has_label l) (map snd unified_data))
  /\ (forall n, read_errors json_loads decode_error_str n lines = [])
  /\ count json_loads is_classified lines
     = List.length (filter classifiable (map snd unified_data)).
Proof.
  unfold create_nested_format, count. cbn [fst].
  induction unified_data as [| kv d IH]; intros Hback.
  - repeat split.
  - destruct IH as (IH1 & IH2 & IH3);
      [intros x Hx; apply Hback; now right |].
    assert (Ho : outcome_of json_loads
                   (Show.dumps (snd kv) ++ newline)%string
                 = match classify_record json_loads (snd kv) with
                   | Ok format_name => Classified format_name (snd kv)
                   | Raise _ => Unexpected
                   end).
    { unfold outcome_of. rewrite (Hback kv) by now left. reflexivity. }
    cbn [map]. repeat split.
    + intros l. rewrite labelled_cons, Ho, IH1. cbn [filter].
      unfold has_label at 2.
      destruct (classify_record json_loads (snd kv)) as [format_name |];
        [| reflexivity].
      destruct (String.eqb l format_name); reflexivity.
    + intros n. rewrite read_errors_cons, Ho, IH2.
      destruct (classify_record json_loads (snd kv)); reflexivity.
    + cbn [filter]. rewrite Ho. unfold classifiable at 1.
      destruct (classify_record json_loads (snd kv)); cbn [is_classified];
        [cbn [List.length]; now rewrite IH3 | exact IH3].
Qed.

(** X23. When the decoder reads back the lines that [create_nested_format]
    writes, the analysis of the nested file goes record by record: no line
    is a read error, [total_records] is the number of unified records that
    [classify_record] can label and the others are counted as parse
    errors; under each label the classes hold the unified records of that
    label, in the order of the unified dictionary. *)
Theorem nested_file_is_analysed_record_by_record
  (unified_data : list (json * json)) (st : analysis) :
  read_back unified_data ->
  analyze_errors json_loads decode_error_str
    (Some (fst (create_nested_format unified_data))) = Ok st ->
  json_decode_errors st = 0
  /\ total_records st
     = List.length (filter classifiable (map snd unified_data))
  /\ total_records st + parse_errors st
     = snd (create_nested_format unified_data)
  /\ forall l,
      In l format_labels ->
      class_get l (classified_records st)
      = filter (has_label l) (map snd unified_data).
Proof.
  intros Hback Hst.
  destruct (nested_outcomes unified_data Hback) as (Hl & Hr & Hc).
  cbv zeta in Hl, Hr, Hc.
  destruct (analyze_errors_holds json_loads decode_error_str _ st Hst)
    as (Hsum & _ & Hlab & _ & Herr & _ & _).
  rewrite Hr in Herr. simpl in Herr.
  assert (Ht : total_records st
               = count json_loads is_classified
                   (fst (create_nested_format unified_data))).
  { unfold analyze_errors in Hst.
    destruct (analyze_lines_holds json_loads decode_error_str
                (fst (create_nested_format unified_data)) 1 initial_analysis)
      as (_ & Ht & _); [constructor | intros l [] |].
    destruct (Nat.eqb _ 0); [discriminate |]. injection Hst as <-.
    exact Ht. }
  repeat split.
  - now rewrite <- Herr.
  - now rewrite Ht, Hc.
  - rewrite <- Herr in Hsum. unfold create_nested_format in *.
    cbn [fst snd] in *. rewrite length_map in Hsum. lia.
  - intros l Hin. now rewrite (Hlab l Hin), Hl.
Qed.

End Nested.

Lemma nested_file_is_analysed_record_by_record_witness :
  exists st,
    analyze_errors Json.loads decode_text
      (Some (fst (create_nested_format
                    [(JStr "A", ErroresProps.perfect_record)]))) = Ok st
    /\ json_decode_errors st = 0.
Proof.
  exists (analyze_lines Json.loads decode_text 1
            (fst (create_nested_format
                    [(JStr "A", ErroresProps.perfect_record)]))
            initial_analysis).
  assert (H : analyze_errors Json.loads decode_text
                (Some (fst (create_nested_format
                              [(JStr "A", ErroresProps.perfect_record)])))
              = Ok (analyze_lines Json.loads decode_text 1
                      (fst (create_nested_format
                              [(JStr "A", ErroresProps.perfect_record)]))
                      initial_analysis))
    by (vm_compute; reflexivity).
  split; [exact H |].
  refine (proj1 (nested_file_is_analysed_record_by_record Json.loads
                   decode_text [(JStr "A", ErroresProps.perfect_record)]
                   _ _ H)).
  intros kv [<- | []]. vm_compute. reflexivity.
Defined.

End ProcessProps.

(* ------------------------------------------------------------------ *)
(** ** From the clean file to the unified dictionary *)

Module EndToEndProps.

Import Validador Lotes LotesProps BatchProps HandoffProps.



Section Run.
Variable json_loads : string -> result json.
Variable exn_str : exn -> string.
Variable cfg : api_config.
Variable env : run_env.
Variable batch_size : option Z.
Variable auto_confirm : bool.
Variable data : list obj.
Variable kb : knowledge_base.

Hypothesis reaches :
  ValidadorProps.reaches_loop json_loads env batch_size auto_confirm data.
Hypothesis loaded : loaded_kb env = Ok kb.




End Run.


End EndToEndProps.

(* ------------------------------------------------------------------ *)
(** ** Runs of the whole pipeline on small inputs *)

Module Scenario.

Import Validador Lotes Errores ValidadorProps LotesProps.

(** The clean file: case A groups two original records, case B one. *)
Definition clean_lines : list string :=
  [clean_line "A" "me robaron el celular" ["9"] ["d1"; "d2"];
   clean_line "B" "nada" [] ["d3"]].

(** The batch file the validator writes for A and B, and one more record,
    Z, that the clean file does not know. *)
Definition valid_raw : string :=
  Json.dq "{'razonamiento': 'Robo.', 'clasificaciones': [{'codigo': '9', 'justificacion': 'Robo de celular.'}]}".

Definition batch_record (id raw : string) (codes : list string) : json :=
  JObj [("id", JStr id);
        ("observacion", JStr "texto");
        ("expected_codes", strs codes);
        ("ids_delito_originales", JList []);
        ("predicted_codes", strs codes);
        ("razonamiento_modelo", JStr "Robo.");
        ("raw_response", JStr raw);
        ("timestamp", JStr "2025-12-29T10:00:00")].

Definition batch_dir : list file :=
  [("resultados_lote_1_20251229_1000.jsonl",
    [(Show.dumps (batch_record "A" valid_raw ["9"]) ++ newline)%string;
     (Show.dumps (batch_record "B" EmptyString []) ++ newline)%string;
     (Show.dumps (batch_record "Z" valid_raw ["9"]) ++ newline)%string])].

Definition unified : list (json * json) :=
  [(JStr "A", batch_record "A" valid_raw ["9"]);
   (JStr "B", batch_record "B" EmptyString []);
   (JStr "Z", batch_record "Z" valid_raw ["9"])].

Example consolidation :
  option_map unified_data
    (match load_batch_files Json.loads batch_dir with
     | Ok st => Some st
     | Raise _ => None
     end) = Some unified.
Proof. vm_compute. reflexivity. Qed.

Example consistency_report :
  validate_consistency unified (load_reference_data Json.loads clean_lines)
  = Some ([], [JStr "Z"]).
Proof. vm_compute. reflexivity. Qed.

(** With the expansion, A gives two rows, B one, Z none: three rows for
    three unified records, although the report lists an extra
    identifier. *)
Example rows_complex :
  unnested_count Json.loads true unified
    (load_reference_data Json.loads clean_lines) = Ok 3
  /\ List.length unified = 3.
Proof. split; vm_compute; reflexivity. Qed.

(** Without the expansion, two rows for three unified records. *)
Example rows_simple :
  unnested_count Json.loads false unified
    (load_reference_data Json.loads clean_lines) = Ok 2.
Proof. vm_compute. reflexivity. Qed.

(** The labels of the error analyser: A is perfect, B, with an empty raw
    response, is inconsistent. *)
Example labels :
  classify_record Json.loads (batch_record "A" valid_raw ["9"])
  = Ok formato_a
  /\ classify_record Json.loads (batch_record "B" EmptyString [])
     = Ok formato_d.
Proof. split; vm_compute; reflexivity. Qed.

(** A response that decodes to a list makes [parse_response] raise, and
    the case comes out as a failure record. *)
Example list_response_fails :
  fst (process_single_case Json.loads
         (fun _ => "'list' object has no attribute 'get'") default_cfg
         {| get_validation_prompt := fun _ => Ok ("sistema", "usuario");
            endpoint := fun _ _ _ => Response "[]";
            random := fun _ => F64Props.zero;
            now := "2025-12-29T10:00:00" |}
         [("id", JStr "A"); ("observacion", JStr "texto")])
  = [("id", JStr "A");
     ("observacion", JStr "texto");
     ("expected_codes", JList []);
     ("ids_delito_originales", JList []);
     ("predicted_codes", JList []);
     ("razonamiento_modelo",
      JStr "Error en procesamiento: 'list' object has no attribute 'get'");
     ("raw_response", JStr EmptyString);
     ("timestamp", JStr "2025-12-29T10:00:00");
     ("error", JBool true)].
Proof. vm_compute. reflexivity. Qed.

(** An interrupt at the first batch: the run is cancelled, leaves no batch
    file and [run_validation] raises [KeyboardInterrupt]. *)
Example interrupted_run :
  run_validation Json.loads no_text default_cfg
    {| prompt_version := prompt_version (quiet_env clean_lines);
       loaded_kb := loaded_kb (quiet_env clean_lines);
       clean_file := Some clean_lines;
       config_batch_size := 1;
       typed := EmptyString;
       lotes_dir := Some [];
       init_error := None;
       interrupt_at := Some 0;
       endpoint_of := endpoint_of (quiet_env clean_lines);
       random_of := random_of (quiet_env clean_lines);
       now_of := now_of (quiet_env clean_lines);
       stamp_of := stamp_of (quiet_env clean_lines);
       elapsed_seconds := 1%Q |} true
  = (KeyboardInterrupt, []).
Proof. vm_compute. reflexivity. Qed.

End Scenario.
